(** * nuxt-ai-chatbot: the chat composable and the chat endpoint

    A shallow embedding of [useChat] (the client composable, streaming
    version) and of the [/api/chat] event handler, with the handler that
    came before it and the functions of the chat widget that touch the
    conversation, followed by the properties of the design document that
    can be stated over them and by further properties of the code.

    Conventions of the embedding.
    - A JavaScript string is the list of its UTF-16 code units
      ([jsstring := list N]); [lit] turns a Rocq string literal into one.
    - A value produced by [JSON.parse] is a [json]; [undefined] is the
      [None] of [option json].
    - Code that awaits is split at its suspension points: the part that
      runs before the first [await] is one function, the continuation that
      runs once the response is there is another.
    - A call that can throw returns an [option], or a result paired with
      the error thrown.
    - What the platform does (HTTP transport, [TextDecoder]) enters as
      data: a response carries the already decoded text of its chunks. *)

From Stdlib Require Import Ascii String DecimalString.
From Stdlib Require Import List NArith ZArith Bool Lia.
From Equations Require Import Equations.
From Equations.Prop Require Import Logic.
Import ListNotations.

Set Warnings "-register-all".

Local Open Scope N_scope.

(** ** JavaScript strings *)

Definition jsstring := list N.

(** [lit "abc"] is the JavaScript string literal ["abc"]. *)
Definition lit (s : String.string) : jsstring :=
  map Ascii.N_of_ascii (String.list_ascii_of_string s).
Arguments lit s%_string.

(** [dq] reads a literal in which every apostrophe stands for a quotation
    mark: [dq "{'a':1}"] is the text [{"a":1}]. *)
Definition dq (s : String.string) : jsstring :=
  map (fun c => if c =? 39 then 34 else c) (lit s).
Arguments dq s%_string.

Definition LF : N := 10.
Definition CR : N := 13.
Definition BACKTICK : N := 96.

Fixpoint str_eqb (a b : jsstring) : bool :=
  match a, b with
  | [], [] => true
  | x :: a', y :: b' => (x =? y) && str_eqb a' b'
  | _, _ => false
  end.

(** [s.startsWith(p)] *)
Fixpoint startsWith (p s : jsstring) : bool :=
  match p, s with
  | [], _ => true
  | x :: p', y :: s' => (x =? y) && startsWith p' s'
  | _ :: _, [] => false
  end.

(** [s.endsWith(p)] *)
Definition endsWith (p s : jsstring) : bool :=
  startsWith (rev p) (rev s).

(** [s.includes(p)] *)
Fixpoint includes (p s : jsstring) : bool :=
  startsWith p s ||
  match s with
  | [] => false
  | _ :: s' => includes p s'
  end.

(** [s.slice(n)] for [0 <= n] and [s.substring(0, n)]. *)
Definition slice_from (n : nat) (s : jsstring) : jsstring := skipn n s.
Definition substring0 (n : nat) (s : jsstring) : jsstring := firstn n s.

(** The code units [String.prototype.trim] removes: WhiteSpace (TAB, VT, FF,
    SP, NBSP, ZWNBSP and the space separators) and LineTerminator (LF, CR,
    LS, PS). *)
Definition is_js_space (c : N) : bool :=
  (c =? 9) || (c =? 10) || (c =? 11) || (c =? 12) || (c =? 13) ||
  (c =? 32) || (c =? 160) || (c =? 5760) ||
  ((8192 <=? c) && (c <=? 8202)) ||
  (c =? 8232) || (c =? 8233) || (c =? 8239) || (c =? 8287) ||
  (c =? 12288) || (c =? 65279).

Fixpoint trimStart (s : jsstring) : jsstring :=
  match s with
  | c :: s' => if is_js_space c then trimStart s' else s
  | [] => []
  end.

Fixpoint trimEnd (s : jsstring) : jsstring :=
  match s with
  | [] => []
  | c :: s' =>
      match trimEnd s' with
      | [] => if is_js_space c then [] else [c]
      | t => c :: t
      end
  end.

(** [s.trim()] *)
Definition trim (s : jsstring) : jsstring := trimEnd (trimStart s).

(** ASCII and Latin-1 part of [toLowerCase]; it is applied to HTTP header
    values only, which are byte strings. *)
Definition lower_unit (c : N) : N :=
  if ((65 <=? c) && (c <=? 90)) ||
     ((192 <=? c) && (c <=? 222) && negb (c =? 215))
  then c + 32 else c.

Definition toLowerCase (s : jsstring) : jsstring := map lower_unit s.

(** Decimal rendering of a non-negative integer, as a template literal
    prints a status code. *)
Definition dec (n : N) : jsstring :=
  lit (DecimalString.NilEmpty.string_of_uint (N.to_uint n)).

(** ** Regular expressions of the source

    The three patterns of the source are matched by hand-written anchored
    matchers: given the text at the current position, a matcher returns the
    text after the match, or [None]. *)

(** [/```/] *)
Definition match_fence (s : jsstring) : option jsstring :=
  match s with
  | a :: b :: c :: rest =>
      if (a =? BACKTICK) && (b =? BACKTICK) && (c =? BACKTICK)
      then Some rest else None
  | _ => None
  end.

(** [\r?]: greedy; in both patterns below the next atom is [\n], so giving
    the carriage return back can never make a failed match succeed. *)
Definition opt_cr (s : jsstring) : jsstring :=
  match s with
  | c :: s' => if c =? CR then s' else s
  | [] => []
  end.

(** [\n] *)
Definition one_lf (s : jsstring) : option jsstring :=
  match s with
  | c :: s' => if c =? LF then Some s' else None
  | [] => None
  end.

(** [/\r?\n/] *)
Definition match_newline (s : jsstring) : option jsstring :=
  one_lf (opt_cr s).

(** [/\r?\n\r?\n/] *)
Definition match_blank (s : jsstring) : option jsstring :=
  match match_newline s with
  | Some s1 => match_newline s1
  | None => None
  end.

Lemma opt_cr_length s : (length (opt_cr s) <= length s)%nat.
Proof.
  destruct s as [|c s]; simpl; [lia|].
  destruct (c =? CR); simpl; lia.
Qed.

Lemma one_lf_length s r : one_lf s = Some r -> (length r < length s)%nat.
Proof.
  destruct s as [|c s]; simpl; [discriminate|].
  destruct (c =? LF); [|discriminate].
  intros [= <-]. lia.
Qed.

Lemma match_newline_length s r :
  match_newline s = Some r -> (length r < length s)%nat.
Proof.
  unfold match_newline. intros H%one_lf_length.
  pose proof (opt_cr_length s). lia.
Qed.

Lemma match_blank_length s r :
  match_blank s = Some r -> (length r < length s)%nat.
Proof.
  unfold match_blank.
  destruct (match_newline s) as [s1|] eqn:E; [|discriminate].
  intros H%match_newline_length. apply match_newline_length in E. lia.
Qed.

Lemma match_fence_length s r :
  match_fence s = Some r -> (length r < length s)%nat.
Proof.
  destruct s as [|a [|b [|c rest]]]; simpl; try discriminate.
  destruct (_ && _); [|discriminate].
  intros [= <-]. lia.
Qed.

Section Regex.

(** An anchored matcher that never matches the empty string. *)
Variable m : jsstring -> option jsstring.
Hypothesis m_length :
  forall s r, m s = Some r -> (length r < length s)%nat.

(** [s.split(re)], from the state "the current piece is [cur], the text
    still to scan is [s]": at each position try the pattern; on a match
    the piece is complete and scanning resumes after the match, otherwise
    the code unit joins the piece. The last piece is always pushed. *)
Equations split_from (cur s : jsstring) : list jsstring
  by wf (length s) lt :=
  split_from cur s with inspect (m s) := {
    | exist _ (Some r) _ => cur :: split_from [] r
    | exist _ None _ with s := {
        | [] => [cur]
        | c :: s' => split_from (cur ++ [c]) s' } }.

(** [(s.match(re_g) || []).length] for the global pattern: the number of
    matches found scanning left to right, each search resuming where the
    previous match ended. *)
Equations count_matches (s : jsstring) : nat
  by wf (length s) lt :=
  count_matches s with inspect (m s) := {
    | exist _ (Some r) _ => S (count_matches r)
    | exist _ None _ with s := {
        | [] => 0%nat
        | c :: s' => count_matches s' } }.

End Regex.

(** The split on [/\r?\n\r?\n/] from a state of its scan. *)
Definition split_blank_from (cur s : jsstring) : list jsstring :=
  split_from match_blank match_blank_length cur s.

(** [s.split(/\r?\n\r?\n/)] *)
Definition split_blank (s : jsstring) : list jsstring :=
  split_blank_from [] s.

(** [s.split(/\r?\n/)] *)
Definition split_lines (s : jsstring) : list jsstring :=
  split_from match_newline match_newline_length [] s.

(** [(s.match(/```/g) || []).length] *)
Definition fence_count (s : jsstring) : nat :=
  count_matches match_fence match_fence_length s.


(** ** JSON values

    The values [JSON.parse] builds. A number is kept as the text [String]
    prints for it, which tells two numbers apart exactly when they differ
    (zero and minus zero apart, which the source never distinguishes):
    [1e3] and [1000.0] are both [1000], a literal too large for a double is
    [Infinity]. An object holds its own properties in the order JavaScript
    enumerates them: array indices first, in ascending order, then the other
    keys in the order they were created; a key occurs once. *)

Inductive json : Type :=
| JNull
| JBool (b : bool)
| JNumber (text : jsstring)
| JString (s : jsstring)
| JArray (items : list json)
| JObject (members : list (jsstring * json)).

(** A JavaScript value as the source sees it: [None] is [undefined]. *)
Definition jsvalue := option json.
Definition undefined : jsvalue := None.

(** *** [JSON.parse] *)

Definition is_json_ws (c : N) : bool :=
  (c =? 9) || (c =? 10) || (c =? 13) || (c =? 32).

Fixpoint skip_ws (s : jsstring) : jsstring :=
  match s with
  | c :: s' => if is_json_ws c then skip_ws s' else s
  | [] => []
  end.

Definition is_digit (c : N) : bool := (48 <=? c) && (c <=? 57).

Definition hex_value (c : N) : option N :=
  if is_digit c then Some (c - 48)
  else if (97 <=? c) && (c <=? 102) then Some (c - 87)
  else if (65 <=? c) && (c <=? 70) then Some (c - 55)
  else None.

Definition hex4 (a b c d : N) : option N :=
  match hex_value a, hex_value b, hex_value c, hex_value d with
  | Some x, Some y, Some z, Some w => Some (((x * 16 + y) * 16 + z) * 16 + w)
  | _, _, _, _ => None
  end.

(** The code unit a single-character escape stands for. *)
Definition unescape (e : N) : option N :=
  if e =? 34 then Some 34          (* quotation mark *)
  else if e =? 92 then Some 92     (* reverse solidus *)
  else if e =? 47 then Some 47     (* solidus *)
  else if e =? 98 then Some 8      (* b: backspace *)
  else if e =? 102 then Some 12    (* f: form feed *)
  else if e =? 110 then Some 10    (* n: line feed *)
  else if e =? 114 then Some 13    (* r: carriage return *)
  else if e =? 116 then Some 9     (* t: tab *)
  else None.

Definition push_unit (c : N) (r : option (jsstring * jsstring)) :
  option (jsstring * jsstring) :=
  match r with
  | Some (t, rest) => Some (c :: t, rest)
  | None => None
  end.

(** The characters of a string literal after its opening quote, up to and
    including the closing quote. *)
Fixpoint parse_string_body (s : jsstring) : option (jsstring * jsstring) :=
  match s with
  | [] => None
  | c :: s1 =>
      if c =? 34 then Some ([], s1)
      else if c =? 92 then
        match s1 with
        | [] => None
        | e :: s2 =>
            if e =? 117 then
              match s2 with
              | h1 :: h2 :: h3 :: h4 :: s6 =>
                  match hex4 h1 h2 h3 h4 with
                  | Some u => push_unit u (parse_string_body s6)
                  | None => None
                  end
              | _ => None
              end
            else
              match unescape e with
              | Some u => push_unit u (parse_string_body s2)
              | None => None
              end
        end
      else if c <? 32 then None
      else push_unit c (parse_string_body s1)
  end.

(** The longest prefix of digits, and what follows it. *)
Fixpoint span_digits (s : jsstring) : jsstring * jsstring :=
  match s with
  | c :: s' =>
      if is_digit c then let (d, r) := span_digits s' in (c :: d, r)
      else ([], s)
  | [] => ([], [])
  end.

(** The parts of a number literal: an optional minus sign; then a single
    zero, or a non-zero digit followed by digits; then optionally a point and
    one or more digits; then optionally e or E, an optional sign and one or
    more digits. Each part returns its text and what follows it. *)
Definition number_sign (s : jsstring) : jsstring * jsstring :=
  match s with
  | c :: s' => if c =? 45 then ([c], s') else ([], s)
  | [] => ([], s)
  end.

Definition number_int (s : jsstring) : option (jsstring * jsstring) :=
  match s with
  | c :: s' =>
      if c =? 48 then Some ([c], s')
      else if is_digit c then Some (span_digits s)
      else None
  | [] => None
  end.

Definition number_frac (s : jsstring) : option (jsstring * jsstring) :=
  match s with
  | c :: s' =>
      if c =? 46 then
        match span_digits s' with
        | ([], _) => None
        | (d, r) => Some (c :: d, r)
        end
      else Some ([], s)
  | [] => Some ([], s)
  end.

Definition number_exp (s : jsstring) : option (jsstring * jsstring) :=
  match s with
  | c :: s' =>
      if (c =? 101) || (c =? 69) then
        let (sg, s1) :=
          match s' with
          | g :: s'' => if (g =? 43) || (g =? 45) then ([g], s'') else ([], s')
          | [] => ([], s')
          end in
        match span_digits s1 with
        | ([], _) => None
        | (d, r) => Some (c :: sg ++ d, r)
        end
      else Some ([], s)
  | [] => Some ([], s)
  end.

Definition parse_number (s : jsstring) : option (jsstring * jsstring) :=
  let (sign, s0) := number_sign s in
  match number_int s0 with
  | None => None
  | Some (i, s1) =>
      match number_frac s1 with
      | None => None
      | Some (f, s2) =>
          match number_exp s2 with
          | None => None
          | Some (e, s3) => Some (sign ++ i ++ f ++ e, s3)
          end
      end
  end.

Definition with_value {A B} (f : A -> B) (r : option (A * jsstring)) :
  option (B * jsstring) :=
  match r with
  | Some (a, rest) => Some (f a, rest)
  | None => None
  end.

(** Recursive descent over the JSON grammar. [fuel] bounds the number of
    nested calls; [None] is a syntax error. *)
Fixpoint parse_value (fuel : nat) (s : jsstring) {struct fuel} :
  option (json * jsstring) :=
  match fuel with
  | O => None
  | S f =>
      match skip_ws s with
      | [] => None
      | c :: r =>
          if c =? 123 then                       (* { *)
            match skip_ws r with
            | d :: r' =>
                if d =? 125 then Some (JObject [], r')
                else with_value JObject (parse_members f (skip_ws r))
            | [] => None
            end
          else if c =? 91 then                   (* [ *)
            match skip_ws r with
            | d :: r' =>
                if d =? 93 then Some (JArray [], r')
                else with_value JArray (parse_elements f (skip_ws r))
            | [] => None
            end
          else if c =? 34 then with_value JString (parse_string_body r)
          else if startsWith (lit "true") (c :: r)
               then Some (JBool true, skipn 4 (c :: r))
          else if startsWith (lit "false") (c :: r)
               then Some (JBool false, skipn 5 (c :: r))
          else if startsWith (lit "null") (c :: r)
               then Some (JNull, skipn 4 (c :: r))
          else with_value JNumber (parse_number (c :: r))
      end
  end
with parse_elements (fuel : nat) (s : jsstring) {struct fuel} :
  option (list json * jsstring) :=
  match fuel with
  | O => None
  | S f =>
      match parse_value f s with
      | Some (v, r) =>
          match skip_ws r with
          | d :: r' =>
              if d =? 44 then with_value (cons v) (parse_elements f r')
              else if d =? 93 then Some ([v], r')
              else None
          | [] => None
          end
      | None => None
      end
  end
with parse_members (fuel : nat) (s : jsstring) {struct fuel} :
  option (list (jsstring * json) * jsstring) :=
  match fuel with
  | O => None
  | S f =>
      match skip_ws s with
      | q :: r =>
          if q =? 34 then
            match parse_string_body r with
            | Some (k, r1) =>
                match skip_ws r1 with
                | col :: r2 =>
                    if col =? 58 then
                      match parse_value f r2 with
                      | Some (v, r3) =>
                          match skip_ws r3 with
                          | d :: r4 =>
                              if d =? 44
                              then with_value (cons (k, v)) (parse_members f r4)
                              else if d =? 125 then Some ([(k, v)], r4)
                              else None
                          | [] => None
                          end
                      | None => None
                      end
                    else None
                | [] => None
                end
            | None => None
            end
          else None
      | [] => None
      end
  end.

(** The text as the grammar reads it, numbers by their literals and
    members as written; [None] is a syntax error. Every nested call of the
    descent is made after at least one code unit was consumed two calls
    earlier, so twice the length of the text is fuel enough. *)
Definition parse_text (s : jsstring) : option json :=
  match parse_value (2 * length s + 2) s with
  | Some (v, r) =>
      match skip_ws r with
      | [] => Some v
      | _ :: _ => None
      end
  | None => None
  end.

(** *** Numbers

    [JSON.parse] reads a number literal as the double nearest to the
    decimal it denotes, and [String] prints a double as the shortest decimal
    that reads back as the same double. Both are computed here with exact
    integer arithmetic. A finite double that is not zero is [m * 2^q] with
    [0 < m < 2^53] and [-1074 <= q <= 971]; the sign is kept apart. *)

(** The integer a run of digits denotes. *)
Definition digits_value (ds : jsstring) : Z :=
  fold_left (fun acc c => (acc * 10 + (Z.of_N c - 48))%Z) ds 0%Z.

(** The parts of a number literal: whether it has a minus sign, and [d] and
    [e] such that it denotes [d * 10^e]. *)
Definition literal_parts (l : jsstring) : bool * Z * Z :=
  let (neg, s0) :=
    match l with
    | c :: s' => if c =? 45 then (true, s') else (false, l)
    | [] => (false, l)
    end in
  let (i, s1) := span_digits s0 in
  let (f, s2) :=
    match s1 with
    | c :: s' => if c =? 46 then span_digits s' else ([], s1)
    | [] => ([], s1)
    end in
  let ex :=
    match s2 with
    | c :: s' =>
        if (c =? 101) || (c =? 69) then
          match s' with
          | g :: s'' =>
              if g =? 45 then (- digits_value (fst (span_digits s'')))%Z
              else if g =? 43 then digits_value (fst (span_digits s''))
              else digits_value (fst (span_digits s'))
          | [] => 0%Z
          end
        else 0%Z
    | [] => 0%Z
    end in
  (neg, digits_value (i ++ f), (ex - Z.of_nat (length f))%Z).

(** [num / den] rounded to the nearest integer, a tie to the even one. *)
Definition round_half_even (num den : Z) : Z :=
  let q := (num / den)%Z in
  let r := (num mod den)%Z in
  match (2 * r ?= den)%Z with
  | Lt => q
  | Gt => (q + 1)%Z
  | Eq => if Z.even q then q else (q + 1)%Z
  end.

(** A positive rational scaled by a power of two or of ten, kept as a
    fraction. *)
Definition scale (base : Z) (num den k : Z) : Z * Z :=
  if (0 <=? k)%Z then (num * base ^ k, den)%Z else (num, den * base ^ (- k))%Z.

(** [floor (log2 (num / den))] for a positive fraction. *)
Definition floor_log2 (num den : Z) : Z :=
  let c := (Z.log2 num - Z.log2 den)%Z in
  let (n1, d1) := scale 2 num den (- c) in
  if (d1 <=? n1)%Z then c else (c - 1)%Z.

(** The double nearest to [d * 10^e], for [0 < d]: [None] when it is
    infinite, the mantissa zero when it is zero. *)
Definition nearest_double (d e : Z) : option (Z * Z) :=
  let nd := Z.of_nat (length (dec (Z.to_N d))) in
  if (309 <=? nd - 1 + e)%Z then None
  else if (nd + e <=? -324)%Z then Some (0, 0)%Z
  else
    let (num, den) := scale 10 d 1 e in
    let q := Z.max (floor_log2 num den - 52) (-1074) in
    let (n1, d1) := scale 2 num den (- q) in
    let m := round_half_even n1 d1 in
    let (m, q) := if (m =? 2 ^ 53)%Z then (2 ^ 52, q + 1)%Z else (m, q) in
    if (971 <? q)%Z then None else Some (m, q).

(** Whether the fraction [num / den] rounds to the double [m * 2^q]: it
    lies between the midpoints to the neighbouring doubles, the midpoints
    themselves included when [m] is even. Everything is scaled by
    [2^(2 - q)]. *)
Definition rounds_to (m q : Z) (num den : Z) : bool :=
  let (n1, d1) := scale 2 num den (2 - q) in
  let below := if (m =? 2 ^ 52)%Z && (-1074 <? q)%Z then 1%Z else 2%Z in
  let low := ((4 * m - below) * d1)%Z in
  let high := ((4 * m + 2) * d1)%Z in
  if Z.even m then (low <=? n1)%Z && (n1 <=? high)%Z
  else (low <? n1)%Z && (n1 <? high)%Z.

(** [floor (log10 (num / den)) + 1] for a positive fraction: the number of
    digits before the decimal point. *)
Definition decimal_exponent (num den : Z) : Z :=
  let est := ((floor_log2 num den) * 30103 / 100000)%Z in
  let above n := let (n1, d1) := scale 10 num den (- n) in (d1 <=? n1)%Z in
  (* [above n]: [10^n <= num / den] *)
  if above (est + 1)%Z then (est + 2)%Z
  else if above est then (est + 1)%Z
  else est.

(** The shortest decimal that rounds to the double [m * 2^q], the closest to
    it when there are several: its digits as an integer [s] and the power of
    ten [t] that [s] is multiplied by. [k] counts the digits tried so far. *)
Fixpoint shortest (fuel : nat) (k : Z) (m q n : Z) : Z * Z :=
  let t := (n - k)%Z in
  let (xn, xd) := scale 2 m 1 q in
  let (n1, d1) := scale 10 xn xd (- t) in
  let lo := (n1 / d1)%Z in
  let hi := (lo + 1)%Z in
  let ok s := let (cn, cd) := scale 10 s 1 t in rounds_to m q cn cd in
  let lo_ok := (0 <? lo)%Z && ok lo in
  let hi_ok := ok hi in
  (* distance of x to lo is n1 - lo*d1, to hi is hi*d1 - n1 *)
  let pick :=
    match (n1 - lo * d1 ?= hi * d1 - n1)%Z with
    | Lt => lo
    | Gt => hi
    | Eq => if Z.even lo then lo else hi
    end in
  match fuel with
  | O => (lo, t)
  | S f =>
      if lo_ok && hi_ok then (pick, t)
      else if lo_ok then (lo, t)
      else if hi_ok then (hi, t)
      else shortest f (k + 1)%Z m q n
  end.

Fixpoint strip_zeros (rev_digits : jsstring) : jsstring :=
  match rev_digits with
  | c :: r => if c =? 48 then strip_zeros r else rev_digits
  | [] => []
  end.

Definition zeros (n : Z) : jsstring := repeat 48 (Z.to_nat n).

(** [Number::toString] on the digits [ds] of a number [0.ds * 10^n]. *)
Definition format_number (ds : jsstring) (n : Z) : jsstring :=
  let k := Z.of_nat (length ds) in
  if (k <=? n)%Z && (n <=? 21)%Z then ds ++ zeros (n - k)
  else if (0 <? n)%Z && (n <=? 21)%Z
  then firstn (Z.to_nat n) ds ++ 46 :: skipn (Z.to_nat n) ds
  else if (-6 <? n)%Z && (n <=? 0)%Z
  then lit "0." ++ zeros (- n) ++ ds
  else
    let e := (n - 1)%Z in
    let sign : N := if (0 <=? e)%Z then 43 else 45 in
    let mantissa :=
      match ds with
      | [c] => [c]
      | c :: r => c :: 46 :: r
      | [] => []
      end in
    mantissa ++ 101 :: sign :: dec (Z.to_N (Z.abs e)).

(** [String(Number(l))] for the text [l] of a JSON number. *)
Definition canon (l : jsstring) : jsstring :=
  let '(neg, d, e) := literal_parts l in
  if (d <=? 0)%Z then lit "0"
  else
    match nearest_double d e with
    | None => if neg then lit "-Infinity" else lit "Infinity"
    | Some (m, q) =>
        if (m =? 0)%Z then lit "0"
        else
          let (xn, xd) := scale 2 m 1 q in
          let n := decimal_exponent xn xd in
          let (s, t) := shortest 17 1 m q n in
          let all := dec (Z.to_N s) in
          let ds := rev (strip_zeros (rev all)) in
          let text := format_number ds (Z.of_nat (length all) + t) in
          if neg then 45 :: text else text
    end.

(** *** Objects *)

(** An array index: the decimal text, without a leading zero, of an integer
    below [2^32 - 1]. *)
Definition array_index (k : jsstring) : option N :=
  match k with
  | [] => None
  | c :: r =>
      if forallb is_digit k
         && (negb (c =? 48) || match r with [] => true | _ :: _ => false end)
         && (length k <=? 10)%nat
      then
        let n := Z.to_N (digits_value k) in
        if n <? 4294967295 then Some n else None
      else None
  end.

(** [CreateDataProperty]: the value of a key that exists is replaced where
    it is, a new key goes to the end. *)
Fixpoint put (k : jsstring) (v : json) (ms : list (jsstring * json)) :
  list (jsstring * json) :=
  match ms with
  | [] => [(k, v)]
  | (k', v') :: ms' =>
      if str_eqb k k' then (k', v) :: ms' else (k', v') :: put k v ms'
  end.

(** A property with the array index [n], put in its place among properties
    in ascending order of their indices. *)
Fixpoint insert_indexed (n : N) (kv : jsstring * json)
  (l : list (jsstring * json)) : list (jsstring * json) :=
  match l with
  | [] => [kv]
  | kv' :: l' =>
      match array_index (fst kv') with
      | Some n' => if n <? n' then kv :: l else kv' :: insert_indexed n kv l'
      | None => kv :: l
      end
  end.

Definition sort_indexed (l : list (jsstring * json)) : list (jsstring * json) :=
  fold_right
    (fun kv acc =>
       match array_index (fst kv) with
       | Some n => insert_indexed n kv acc
       | None => acc
       end)
    [] l.

(** The own properties of the object built from the members [ms] in the
    order they are written, as JavaScript enumerates them. *)
Definition own_properties (ms : list (jsstring * json)) :
  list (jsstring * json) :=
  let created := fold_left (fun acc kv => put (fst kv) (snd kv) acc) ms [] in
  sort_indexed created ++
  filter (fun kv => match array_index (fst kv) with
                    | Some _ => false
                    | None => true
                    end) created.

(** The value a text denotes, from what the grammar reads. *)
Fixpoint value_of (v : json) : json :=
  match v with
  | JNumber l => JNumber (canon l)
  | JArray items => JArray (map value_of items)
  | JObject ms =>
      JObject (own_properties (map (fun kv => (fst kv, value_of (snd kv))) ms))
  | _ => v
  end.

(** [JSON.parse(s)]; [None] when it throws a [SyntaxError]. *)
Definition JSON_parse (s : jsstring) : option json :=
  option_map value_of (parse_text s).

(** Enough fuel: a parse that succeeds with some fuel succeeds, with the same
    result, with any fuel of at least twice the number of code units it
    consumes. *)
Definition value_ok (F : nat) : Prop :=
  forall s v r, parse_value F s = Some (v, r) ->
    (length r < length s)%nat /\
    forall f, (2 * (length s - length r) <= S f)%nat ->
              parse_value f s = Some (v, r).

Definition elements_ok (F : nat) : Prop :=
  forall s l r, parse_elements F s = Some (l, r) ->
    (length r < length s)%nat /\
    forall f, (2 * (length s - length r) <= f)%nat ->
              parse_elements f s = Some (l, r).

Definition members_ok (F : nat) : Prop :=
  forall s l r, parse_members F s = Some (l, r) ->
    (length r < length s)%nat /\
    forall f, (2 * (length s - length r) <= f)%nat ->
              parse_members f s = Some (l, r).

(** A code unit that is not a control character. *)
Definition printable (c : N) : bool := 32 <=? c.

(** Every number of the value has a text without control characters, as
    every value built by [JSON_parse] has. *)
Fixpoint number_texts_ok (v : json) : bool :=
  match v with
  | JNumber l => forallb printable l
  | JArray items => forallb number_texts_ok items
  | JObject ms => forallb (fun kv => number_texts_ok (snd kv)) ms
  | _ => true
  end.

(** *** [JSON.stringify] *)

Definition DQUOTE : N := 34.
Definition BACKSLASH : N := 92.

Definition hex_digit (n : N) : N := if n <? 10 then 48 + n else 87 + n.

(** The six-character escape of a code unit, in lower-case hexadecimal. *)
Definition u_escape (c : N) : jsstring :=
  [BACKSLASH; 117;
   hex_digit ((c / 4096) mod 16); hex_digit ((c / 256) mod 16);
   hex_digit ((c / 16) mod 16); hex_digit (c mod 16)].

Definition is_high_surrogate (c : N) : bool := (55296 <=? c) && (c <=? 56319).
Definition is_low_surrogate (c : N) : bool := (56320 <=? c) && (c <=? 57343).

(** The characters of a quoted string: the quotation mark, the reverse
    solidus and the control characters are escaped, and so is a surrogate
    that is not part of a pair. *)
Fixpoint quote_units (s : jsstring) : jsstring :=
  match s with
  | [] => []
  | c :: s1 =>
      if c =? 34 then BACKSLASH :: 34 :: quote_units s1
      else if c =? 92 then BACKSLASH :: 92 :: quote_units s1
      else if c =? 8 then BACKSLASH :: 98 :: quote_units s1
      else if c =? 12 then BACKSLASH :: 102 :: quote_units s1
      else if c =? 10 then BACKSLASH :: 110 :: quote_units s1
      else if c =? 13 then BACKSLASH :: 114 :: quote_units s1
      else if c =? 9 then BACKSLASH :: 116 :: quote_units s1
      else if c <? 32 then u_escape c ++ quote_units s1
      else if is_high_surrogate c then
        match s1 with
        | d :: s2 =>
            if is_low_surrogate d then c :: d :: quote_units s2
            else u_escape c ++ quote_units s1
        | [] => u_escape c
        end
      else if is_low_surrogate c then u_escape c ++ quote_units s1
      else c :: quote_units s1
  end.

Definition quote (s : jsstring) : jsstring :=
  DQUOTE :: quote_units s ++ [DQUOTE].

Fixpoint join_comma (l : list jsstring) : jsstring :=
  match l with
  | [] => []
  | [x] => x
  | x :: l' => x ++ lit "," ++ join_comma l'
  end.

(** A number that is not finite. *)
Definition is_infinite (l : jsstring) : bool :=
  str_eqb l (lit "Infinity") || str_eqb l (lit "-Infinity").

(** [JSON.stringify(v)] of a value made of JSON data, without indentation.
    A number that is not finite is printed as [null]. *)
Fixpoint JSON_stringify (v : json) : jsstring :=
  match v with
  | JNull => lit "null"
  | JBool true => lit "true"
  | JBool false => lit "false"
  | JNumber l => if is_infinite l then lit "null" else l
  | JString s => quote s
  | JArray items => lit "[" ++ join_comma (map JSON_stringify items) ++ lit "]"
  | JObject members =>
      lit "{" ++
      join_comma
        (map (fun kv => quote (fst kv) ++ lit ":" ++ JSON_stringify (snd kv))
             members) ++
      lit "}"
  end.

(** *** Reading values *)

(** [ms[k]]: the last member with the key. *)
Fixpoint lookup_last (k : jsstring) (ms : list (jsstring * json)) : jsvalue :=
  match ms with
  | [] => undefined
  | (k', v) :: ms' =>
      match lookup_last k ms' with
      | Some v' => Some v'
      | None => if str_eqb k k' then Some v else undefined
      end
  end.

(** The list of the values when all are there. *)
Fixpoint all_some {A} (l : list (option A)) : option (list A) :=
  match l with
  | [] => Some []
  | None :: _ => None
  | Some x :: l' => option_map (cons x) (all_some l')
  end.

(** The text of [v], as string concatenation and [new Error(v)] take it;
    [None] is the [TypeError] thrown for a value that has no text. An object
    built by [JSON.parse] has the text [[object Object]] that it inherits,
    unless it has a property named [toString] of its own: that property is
    not a function, the [valueOf] it has or inherits returns no primitive
    value either, and the conversion throws. The text of an array is that of
    its items, joined by commas, with nothing for [null]. *)
Fixpoint js_to_string (v : json) : option jsstring :=
  match v with
  | JNull => Some (lit "null")
  | JBool true => Some (lit "true")
  | JBool false => Some (lit "false")
  | JNumber l => Some l
  | JString s => Some s
  | JArray items =>
      option_map join_comma
        (all_some
           (map (fun x => match x with JNull => Some [] | _ => js_to_string x end)
                items))
  | JObject ms =>
      match lookup_last (lit "toString") ms with
      | Some _ => None
      | None => Some (lit "[object Object]")
      end
  end.

(** [ToBoolean(v)]; the only number [JSON.parse] builds that is not truthy
    is zero. *)
Definition truthy (v : jsvalue) : bool :=
  match v with
  | None | Some JNull => false
  | Some (JBool b) => b
  | Some (JNumber l) => negb (str_eqb l (lit "0"))
  | Some (JString s) => match s with [] => false | _ :: _ => true end
  | Some (JArray _) | Some (JObject _) => true
  end.

Definition nullish (v : jsvalue) : bool :=
  match v with
  | None | Some JNull => true
  | Some _ => false
  end.

(** [a ?? b] *)
Definition coalesce (a b : jsvalue) : jsvalue := if nullish a then b else a.
Notation "a ?? b" := (coalesce a b) (at level 50, left associativity).

(** [a ?? d] where the default [d] is a value: the result is one too. *)
Definition coalesce_value (a : jsvalue) (d : json) : json :=
  match a with
  | None | Some JNull => d
  | Some v => v
  end.

(** [v.k] for a value that is neither [null] nor [undefined], and a key [k]
    that no prototype defines: every key the source reads ([delta],
    [content], [answer], [choices], [message], [error]) is such a key, so a
    string, a number, a boolean or an array has no such property. *)
Definition get (v : json) (k : jsstring) : jsvalue :=
  match v with
  | JObject ms => lookup_last k ms
  | _ => undefined
  end.

(** [v.k]: [None] is the [TypeError] thrown when [v] is [null]. *)
Definition member (v : json) (k : jsstring) : option jsvalue :=
  match v with
  | JNull => None
  | _ => Some (get v k)
  end.

(** [v?.k] *)
Definition opt_member (v : jsvalue) (k : jsstring) : jsvalue :=
  match v with
  | None | Some JNull => undefined
  | Some x => get x k
  end.

(** [v?.[0]] *)
Definition opt_first (v : jsvalue) : jsvalue :=
  match v with
  | None | Some JNull => undefined
  | Some (JArray items) => nth_error items 0
  | Some (JString s) =>
      match s with c :: _ => Some (JString [c]) | [] => undefined end
  | Some (JObject ms) => lookup_last (lit "0") ms
  | Some _ => undefined
  end.

(** ** The composable [useChat] *)

Inductive Role := user | assistant | system.

Definition Role_eqb (a b : Role) : bool :=
  match a, b with
  | user, user | assistant, assistant | system, system => true
  | _, _ => false
  end.

Record ChatMessage := { role : Role; content : jsstring }.

Record UseChatOptions := {
  opt_model : option jsstring;
  opt_temperature : option jsstring;
  opt_maxHistory : option Z;
  opt_systemPrompt : option jsstring;
  opt_maxTokens : option Z;
  opt_stream : option bool }.

(** [l.slice(start)] *)
Definition js_slice {A} (start : Z) (l : list A) : list A :=
  let len := Z.of_nat (length l) in
  let k := if (start <? 0)%Z then Z.max (len + start) 0 else Z.min start len in
  skipn (Z.to_nat k) l.

Definition buildHistory (opts : UseChatOptions) (messages : list ChatMessage) :
  list ChatMessage :=
  let hist := filter (fun m => negb (Role_eqb (role m) system)) messages in
  let maxHistory := match opt_maxHistory opts with Some n => n | None => 10%Z end in
  js_slice (- maxHistory)%Z hist.

Definition postProcessMarkdown (s : jsstring) : jsstring :=
  let out := s in
  let fenceCount := fence_count out in
  let out := if Nat.odd fenceCount then out ++ LF :: lit "```" else out in
  let out := if negb (endsWith [LF] out) then out ++ [LF] else out in
  out.

(** [parseSSELine(line)]: [JNull] is the [null] returned for a line that is
    not a data line. The [try] block throws when [JSON.parse] throws and when
    the parsed value is [null] (reading [obj.delta] is then a [TypeError]);
    both are caught and the payload is returned as text. *)
Definition parseSSELine (line : jsstring) : json :=
  let trimmed := trim line in
  if negb (startsWith (lit "data:") trimmed) then JNull
  else
    let payload := trim (slice_from 5 trimmed) in
    if negb (truthy (Some (JString payload)))
       || str_eqb payload (lit "[DONE]") || str_eqb payload (lit "[done]")
    then JString []
    else
      let attempt :=
        match JSON_parse payload with
        | None => None
        | Some obj =>
            match member obj (lit "delta") with
            | None => None
            | Some delta =>
                Some (coalesce_value
                        (opt_member delta (lit "content") ?? delta
                         ?? get obj (lit "content") ?? get obj (lit "answer"))
                        (JString []))
            end
        end in
      match attempt with
      | Some v => v
      | None => JString payload
      end.

(** *** Promises and errors *)

(** What the [catch] clause reads of a thrown value: [e?.name] and
    [e?.message]. *)
Record JsError := { err_name : option jsstring; err_message : option jsstring }.

(** [new Error(message)] *)
Definition new_Error (message : jsstring) : JsError :=
  {| err_name := Some (lit "Error"); err_message := Some message |}.

(** The [TypeError] of calling [out.match] on a value that is not a string;
    the wording is the engine's. *)
Definition not_a_function : JsError :=
  {| err_name := Some (lit "TypeError");
     err_message := Some (lit "out.match is not a function") |}.

(** The [TypeError] of turning into text a value that has none; the wording
    is the engine's. *)
Definition not_primitive : JsError :=
  {| err_name := Some (lit "TypeError");
     err_message := Some (lit "Cannot convert object to primitive value") |}.

(** The [TypeError] a read of a body is rejected with when the connection
    is lost, with its message. *)
Definition read_error (message : jsstring) : JsError :=
  {| err_name := Some (lit "TypeError"); err_message := Some message |}.

(** How an awaited promise settles. *)
Inductive Settled (A : Type) : Type :=
| Fulfilled (a : A)
| Rejected (e : JsError).
Arguments Fulfilled {A} a.
Arguments Rejected {A} e.

(** A response body read chunk by chunk: the decoded text of every chunk
    that arrives, and the message of the [TypeError] that ends the reading
    if the connection is lost. An abort does not end a reading this way: the
    handler passes no signal to its [fetch], and the client aborts a request
    only from [reset], which is a call between two reads
    ([reset_while_reading]). *)
Record Body := { chunks : list jsstring; ending : option jsstring }.

(** What the source reads of a [fetch] response. [resp_body] is [None] when
    [resp.body] is [null]; [resp_text] is how [resp.text()] settles. *)
Record Response := {
  resp_status : N;
  resp_statusText : jsstring;
  resp_contentType : option jsstring;
  resp_body : option Body;
  resp_text : Settled jsstring }.

(** [resp.ok] *)
Definition resp_ok (r : Response) : bool :=
  (200 <=? resp_status r) && (resp_status r <=? 299).

(** *** The state of one [useChat] instance *)

(** [controllers] is the store of the [AbortController]s created so far, each
    with the [aborted] flag of its signal; [abortCtrl] refers to one of them
    by its position, and so does the signal a request was issued with. *)
Record Session := {
  messages : list ChatMessage;
  pending : bool;
  error : option jsstring;
  controllers : list bool;
  abortCtrl : option nat }.

(** The body posted to [/api/chat], with the signal passed along. *)
Record ChatRequest := {
  req_prompt : jsstring;
  req_history : list ChatMessage;
  req_model : option jsstring;
  req_temperature : option jsstring;
  req_maxTokens : Z;
  req_stream : bool;
  req_signal : nat }.

Fixpoint set_at {A} (i : nat) (x : A) (l : list A) : list A :=
  match l, i with
  | [], _ => []
  | _ :: l', O => x :: l'
  | y :: l', S i' => y :: set_at i' x l'
  end.

(** [abortCtrl?.abort()] *)
Definition abort_current (ctrl : option nat) (store : list bool) : list bool :=
  match ctrl with
  | Some i => set_at i true store
  | None => store
  end.

Definition useChat (opts : UseChatOptions) : Session :=
  {| messages :=
       match opt_systemPrompt opts with
       | Some (c :: p) => [{| role := system; content := c :: p |}]
       | _ => []
       end;
     pending := false;
     error := None;
     controllers := [];
     abortCtrl := None |}.

(** [appendToMessage(index, chunk)]; [msg.content += chunk] concatenates the
    text of [chunk]. [None] is the [TypeError] thrown when [chunk] has no
    text; nothing is assigned then. *)
Definition appendToMessage (index : nat) (chunk : json)
  (msgs : list ChatMessage) : option (list ChatMessage) :=
  match nth_error msgs index with
  | None => Some msgs
  | Some msg =>
      match js_to_string chunk with
      | Some text =>
          Some (set_at index
                  {| role := role msg; content := content msg ++ text |}
                  msgs)
      | None => None
      end
  end.

(** [send(prompt)] up to its first [await]: the new state, and the request
    that is issued if one is. *)
Definition send_begin (opts : UseChatOptions) (prompt : jsstring) (s : Session) :
  Session * option ChatRequest :=
  if negb (truthy (Some (JString (trim prompt)))) || pending s then (s, None)
  else
    let store := abort_current (abortCtrl s) (controllers s) in
    let ctrl := length store in
    let tail := buildHistory opts (messages s) in
    let wantStream := match opt_stream opts with Some b => b | None => false end in
    ({| messages := messages s ++ [{| role := user; content := prompt |}];
        pending := true;
        error := None;
        controllers := store ++ [false];
        abortCtrl := Some ctrl |},
     Some {| req_prompt := prompt;
             req_history := tail;
             req_model := opt_model opts;
             req_temperature := opt_temperature opts;
             req_maxTokens :=
               match opt_maxTokens opts with Some n => n | None => 1536%Z end;
             req_stream := wantStream;
             req_signal := ctrl |}).

(** The [try] block of the non-streaming branch once [$fetch] has settled:
    the message list it leaves and the error it throws, if any. *)
Definition try_plain (r : Settled jsvalue) (msgs : list ChatMessage) :
  list ChatMessage * option JsError :=
  match r with
  | Rejected e => (msgs, Some e)
  | Fulfilled resp =>
      let err := opt_member resp (lit "error") in
      if truthy err
      then (msgs,
            Some (match js_to_string (coalesce_value err JNull) with
                  | Some message => new_Error message
                  | None => not_primitive
                  end))
      else
        match coalesce_value (opt_member resp (lit "answer")) (JString []) with
        | JString answer =>
            (msgs ++ [{| role := assistant;
                         content := postProcessMarkdown answer |}], None)
        | _ => (msgs, Some not_a_function)
        end
  end.

(** The body of [for (const line of lines)]; [None] when it throws. *)
Definition consume_line (idx : nat) (msgs : list ChatMessage) (line : jsstring) :
  option (list ChatMessage) :=
  match parseSSELine line with
  | JNull => Some msgs
  | JString [] => Some msgs
  | add => appendToMessage idx add msgs
  end.

(** [for (const line of lines)]: the message list it leaves, and the error
    that ends it if a line throws. *)
Fixpoint consume_lines (idx : nat) (msgs : list ChatMessage)
  (lines : list jsstring) : list ChatMessage * option JsError :=
  match lines with
  | [] => (msgs, None)
  | line :: rest =>
      match consume_line idx msgs line with
      | Some msgs' => consume_lines idx msgs' rest
      | None => (msgs, Some not_primitive)
      end
  end.

(** The body of [for (const evt of events)]. *)
Definition consume_event (idx : nat) (msgs : list ChatMessage) (evt : jsstring) :
  list ChatMessage * option JsError :=
  consume_lines idx msgs (split_lines evt).

(** [for (const evt of events)] *)
Fixpoint consume_events (idx : nat) (msgs : list ChatMessage)
  (events : list jsstring) : list ChatMessage * option JsError :=
  match events with
  | [] => (msgs, None)
  | evt :: rest =>
      match consume_event idx msgs evt with
      | (msgs', None) => consume_events idx msgs' rest
      | (msgs', Some e) => (msgs', Some e)
      end
  end.

(** [buffered.split(/\r?\n\r?\n/)] followed by [events.pop() ?? ""]: the
    complete events and the text kept in the buffer. *)
Definition splitFrames (buffered : jsstring) : list jsstring * jsstring :=
  let events := split_blank buffered in
  (removelast events, last events []).

(** The framing part of one turn of the read loop: the chunk joins the
    buffer, the complete events leave it. [st] holds the events taken so far
    and the buffer. *)
Definition feed (st : list jsstring * jsstring) (chunk : jsstring) :
  list jsstring * jsstring :=
  let (events, rest) := splitFrames (snd st ++ chunk) in
  (fst st ++ events, rest).

(** The state of the read loop: it goes on, with its buffer and the message
    list, or it has been left by an error thrown while it appended. *)
Inductive Reading :=
| Going (buffered : jsstring) (msgs : list ChatMessage)
| Threw (msgs : list ChatMessage) (e : JsError).

(** One turn of the read loop, on the chunk text [chunk]. *)
Definition read_chunk (contentType : option jsstring) (idx : nat)
  (st : Reading) (chunk : jsstring) : Reading :=
  match st with
  | Threw _ _ => st
  | Going buffered msgs =>
      let buffered := buffered ++ chunk in
      let ct := match contentType with
                | Some h => toLowerCase h
                | None => []
                end in
      if includes (lit "text/event-stream") ct then
        let (events, rest) := splitFrames buffered in
        match consume_events idx msgs events with
        | (msgs', None) => Going rest msgs'
        | (msgs', Some e) => Threw msgs' e
        end
      else
        match appendToMessage idx (JString chunk) msgs with
        | Some msgs' => Going [] msgs'
        | None => Threw msgs not_primitive
        end
  end.

(** The final correction of the message at [idx]. *)
Definition finalize_at (idx : nat) (msgs : list ChatMessage) : list ChatMessage :=
  match nth_error msgs idx with
  | None => msgs
  | Some doneMsg =>
      set_at idx
        {| role := role doneMsg;
           content := postProcessMarkdown (content doneMsg) |}
        msgs
  end.

(** The message of the error thrown for a response without a success
    status, as the template literal of the source builds it. *)
Definition api_error_message (status : N) (statusText serverMsg : jsstring) :
  jsstring :=
  lit "API " ++ dec status ++ lit " " ++ statusText ++
  match serverMsg with
  | [] => []
  | _ :: _ => lit " - " ++ substring0 200 serverMsg
  end.

(** The [try] block of the streaming branch once [fetch] has settled, the
    read loop run until the body ends, the connection is lost or a line
    throws, without another call in between. *)
Definition try_stream (r : Settled Response) (msgs : list ChatMessage) :
  list ChatMessage * option JsError :=
  match r with
  | Rejected e => (msgs, Some e)
  | Fulfilled resp =>
      if negb (resp_ok resp) then
        let serverMsg :=
          match resp_text resp with
          | Fulfilled t => t
          | Rejected _ => []
          end in
        (msgs,
         Some (new_Error
                 (api_error_message (resp_status resp) (resp_statusText resp)
                                    serverMsg)))
      else
        let msgs := msgs ++ [{| role := assistant; content := [] |}] in
        let idx := (length msgs - 1)%nat in
        match resp_body resp with
        | None =>
            match resp_text resp with
            | Fulfilled t =>
                match appendToMessage idx (JString (postProcessMarkdown t))
                                      msgs with
                | Some msgs' => (msgs', None)
                | None => (msgs, Some not_primitive)
                end
            | Rejected e => (msgs, Some e)
            end
        | Some body =>
            match fold_left (read_chunk (resp_contentType resp) idx)
                            (chunks body) (Going [] msgs) with
            | Threw msgs' e => (msgs', Some e)
            | Going _ msgs' =>
                match ending body with
                | Some message => (msgs', Some (read_error message))
                | None => (finalize_at idx msgs', None)
                end
            end
        end
  end.

(** The [catch] and [finally] clauses of [send]. *)
Definition settle (s : Session) (r : list ChatMessage * option JsError) : Session :=
  let (msgs, thrown) := r in
  {| messages := msgs;
     pending := false;
     error :=
       match thrown with
       | None => error s
       | Some e =>
           if match err_name e with
              | Some n => str_eqb n (lit "AbortError")
              | None => false
              end
           then error s
           else Some (match err_message e with
                      | Some m => m
                      | None => lit "Unknown error"
                      end)
       end;
     controllers := controllers s;
     abortCtrl := abortCtrl s |}.

(** [send] from its first [await] on, in the non-streaming branch. *)
Definition send_end_plain (r : Settled jsvalue) (s : Session) : Session :=
  settle s (try_plain r (messages s)).

(** [send] from its first [await] on, in the streaming branch. *)
Definition send_end_stream (r : Settled Response) (s : Session) : Session :=
  settle s (try_stream r (messages s)).

Definition reset (opts : UseChatOptions) (s : Session) : Session :=
  {| messages :=
       match opt_systemPrompt opts with
       | Some (c :: p) => [{| role := system; content := c :: p |}]
       | _ => []
       end;
     pending := pending s;
     error := None;
     controllers := abort_current (abortCtrl s) (controllers s);
     abortCtrl := abortCtrl s |}.

(** [messages.value = msgs], and [messages.value.push(m)] from outside the
    composable. *)
Definition with_messages (s : Session) (msgs : list ChatMessage) : Session :=
  {| messages := msgs; pending := pending s; error := error s;
     controllers := controllers s; abortCtrl := abortCtrl s |}.

(** The [DOMException] a request is rejected with when its signal is
    aborted. *)
Definition abort_error : JsError :=
  {| err_name := Some (lit "AbortError");
     err_message := Some (lit "The operation was aborted.") |}.

(** A call of [reset] while [send] reads the body of [resp], a response with
    a success status and a body: the chunks [cs] have been read and
    consumed, [reset] runs, and the read that was waiting is rejected with
    the abort. When consuming the chunks threw, [send] had ended before
    [reset] ran. *)
Definition reset_while_reading (opts : UseChatOptions) (resp : Response)
  (cs : list jsstring) (s : Session) : Session :=
  let msgs := messages s ++ [{| role := assistant; content := [] |}] in
  let idx := (length msgs - 1)%nat in
  match fold_left (read_chunk (resp_contentType resp) idx) cs (Going [] msgs) with
  | Threw msgs' e => reset opts (settle s (msgs', Some e))
  | Going _ msgs' =>
      let s' := reset opts (with_messages s msgs') in
      settle s' (messages s', Some abort_error)
  end.

(** ** The event handler of [/api/chat] *)

Record RuntimeConfig := {
  openaiApiKey : option jsstring;
  openaiModel : jsstring;
  openaiBaseUrl : jsstring }.

(** The fields the handler reads of the request body. *)
Record ChatBody := {
  body_prompt : jsstring;
  body_history : option (list ChatMessage);
  body_temperature : option jsstring;
  body_model : option jsstring;
  body_stream : option bool }.

(** The payload posted to the completion backend. *)
Record UpstreamPayload := {
  up_model : jsstring;
  up_temperature : jsstring;
  up_messages : list ChatMessage;
  up_stream : bool }.

Definition wants_stream (b : ChatBody) : bool :=
  match body_stream b with Some v => v | None => false end.

Definition upstream_payload (config : RuntimeConfig) (b : ChatBody) :
  UpstreamPayload :=
  {| up_model :=
       match body_model b with
       | Some (c :: m) => c :: m
       | _ => openaiModel config
       end;
     up_temperature :=
       match body_temperature b with Some t => t | None => lit "0.4" end;
     up_messages :=
       {| role := system; content := lit "You are a helpful assistant." |}
       :: match body_history b with Some h => h | None => [] end
       ++ [{| role := user; content := body_prompt b |}];
     up_stream := wants_stream b |}.

(** What the handler does to the outgoing response once streaming began. *)
Inductive OutEvent :=
| Write (data : jsstring)
| End.

(** How a run of the handler ends: it returns an object, which is sent as
    JSON with the status code set; or it returns [null] after writing to the
    response itself; or it throws, after what it had written. *)
Inductive HandlerResult :=
| Returned (statusCode : N) (value : json)
| Streamed (out : list OutEvent)
| Thrown (out : list OutEvent) (e : JsError).

(** [data?.choices?.[0]?.message?.content ?? ""] *)
Definition answer_of (data : json) : json :=
  coalesce_value
    (opt_member
       (opt_member (opt_first (opt_member (Some data) (lit "choices")))
                   (lit "message"))
       (lit "content"))
    (JString []).

Definition ping_frame : jsstring := lit ": ping" ++ [LF; LF].
Definition done_frame : jsstring := lit "data: [DONE]" ++ [LF; LF].
Definition data_frame (payload : jsstring) : jsstring :=
  lit "data: " ++ payload ++ [LF; LF].

(** The [SyntaxError] of [JSON.parse]; the wording is the engine's. *)
Definition syntax_error : JsError :=
  {| err_name := Some (lit "SyntaxError"); err_message := None |}.

(** The frames the handler writes for one chunk of an unstructured body. *)
Definition wrap_lines (chunk : jsstring) : list OutEvent :=
  map (fun ln => Write (data_frame ln))
      (filter (fun ln => (0 <? length ln)%nat) (split_lines chunk)).

(** The answer the handler takes from a backend body that came as one JSON
    document: the [try] block parses the text and reads the content, the
    [catch] clause falls back on the text itself. *)
Definition bridged_answer (text : jsstring) : json :=
  match JSON_parse text with
  | Some data => answer_of data
  | None => JString text
  end.

(** The object the handler returns for a backend response that has no
    success status. *)
Definition error_reply (upstream : Response) : json :=
  JObject
    [(lit "error",
      JString (lit "OpenAI error: " ++
               match resp_text upstream with
               | Fulfilled t => t
               | Rejected _ => []
               end))].

(** The handler, given how the [fetch] of the backend settles. *)
Definition handler (config : RuntimeConfig) (b : ChatBody)
  (fetched : Settled Response) : HandlerResult :=
  if negb (truthy (option_map JString (openaiApiKey config))) then
    Returned 500 (JObject [(lit "error", JString (lit "Server missing OPENAI_API_KEY"))])
  else
    match fetched with
    | Rejected e => Thrown [] e
    | Fulfilled upstream =>
        if negb (resp_ok upstream) then Returned 500 (error_reply upstream)
        else if negb (wants_stream b) then
          match resp_text upstream with
          | Rejected e => Thrown [] e
          | Fulfilled t =>
              match JSON_parse t with
              | None => Thrown [] syntax_error
              | Some data => Returned 200 (JObject [(lit "answer", answer_of data)])
              end
          end
        else
          let ping := Write ping_frame in
          let upstreamCT :=
            match resp_contentType upstream with
            | Some h => toLowerCase h
            | None => []
            end in
          if includes (lit "text/event-stream") upstreamCT then
            match resp_body upstream with
            | None => Streamed [ping; End]
            | Some body =>
                let relayed := map Write (chunks body) in
                match ending body with
                | None => Streamed (ping :: relayed ++ [End])
                | Some message => Thrown (ping :: relayed) (read_error message)
                end
            end
          else
            match resp_body upstream with
            | None => Streamed [ping; End]
            | Some body =>
                if includes (lit "application/json") upstreamCT then
                  match resp_text upstream with
                  | Rejected e => Thrown [ping] e
                  | Fulfilled text =>
                      let answer := bridged_answer text in
                      Streamed
                        [ping;
                         Write (data_frame
                                  (JSON_stringify (JObject [(lit "content", answer)])));
                         Write done_frame;
                         End]
                  end
                else
                  let wrapped := flat_map wrap_lines (chunks body) in
                  match ending body with
                  | None => Streamed (ping :: wrapped ++ [Write done_frame; End])
                  | Some message => Thrown (ping :: wrapped) (read_error message)
                  end
            end
    end.

(** ** Client and handler together

    The transport between the two is the platform's, and enters as a
    parameter: the text the server sends for an object the handler returns,
    the reason phrase the client reads for a status code, and the error
    [$fetch] rejects with for a response without a success status. An object
    returned by the handler reaches [fetch] as a response with the status
    code the handler set and that text as its body; [$fetch] resolves to the
    body parsed back, which is the object the handler returned as far as JSON
    can write it ([json_image]). *)

Record Transport := {
  serialize : json -> jsstring;
  reason_phrase : N -> jsstring;
  rejection : N -> json -> JsError }.

Definition body_of_request (req : ChatRequest) : ChatBody :=
  {| body_prompt := req_prompt req;
     body_history := Some (req_history req);
     body_temperature := req_temperature req;
     body_model := req_model req;
     body_stream := Some (req_stream req) |}.

Definition reply_response (t : Transport) (statusCode : N) (value : json) :
  Response :=
  let text := serialize t value in
  {| resp_status := statusCode;
     resp_statusText := reason_phrase t statusCode;
     resp_contentType := Some (lit "application/json");
     resp_body := Some {| chunks := [text]; ending := None |};
     resp_text := Fulfilled text |}.

(** The value a JSON text of [v] is parsed back to: what JSON cannot write,
    a number that is not finite, has become [null]. *)
Fixpoint json_image (v : json) : json :=
  match v with
  | JNumber l => if is_infinite l then JNull else v
  | JArray items => JArray (map json_image items)
  | JObject ms => JObject (map (fun kv => (fst kv, json_image (snd kv))) ms)
  | _ => v
  end.

Definition dollar_fetch (t : Transport) (statusCode : N) (value : json) :
  Settled jsvalue :=
  if (200 <=? statusCode) && (statusCode <=? 299)
  then Fulfilled (Some (json_image value))
  else Rejected (rejection t statusCode value).

(** The written data of a stream, one chunk for each write. *)
Fixpoint written (out : list OutEvent) : list jsstring :=
  match out with
  | [] => []
  | Write d :: out' => d :: written out'
  | End :: _ => []
  end.

Definition stream_response (t : Transport) (out : list OutEvent) : Response :=
  {| resp_status := 200;
     resp_statusText := reason_phrase t 200;
     resp_contentType := Some (lit "text/event-stream; charset=utf-8");
     resp_body := Some {| chunks := written out; ending := None |};
     resp_text := Fulfilled (concat (written out)) |}.

(** One call of [send] run to its end against the handler, for a backend
    whose [fetch] settles as [fetched]. [None] when the handler throws: what
    the client then receives is the framework's. *)
Definition exchange (config : RuntimeConfig) (t : Transport)
  (fetched : Settled Response)
  (opts : UseChatOptions) (prompt : jsstring) (s : Session) : option Session :=
  match send_begin opts prompt s with
  | (s1, None) => Some s1
  | (s1, Some req) =>
      match handler config (body_of_request req) fetched with
      | Returned statusCode value =>
          if req_stream req
          then Some (send_end_stream
                       (Fulfilled (reply_response t statusCode value)) s1)
          else Some (send_end_plain (dollar_fetch t statusCode value) s1)
      | Streamed out =>
          Some (send_end_stream (Fulfilled (stream_response t out)) s1)
      | Thrown _ _ => None
      end
  end.

(** ** Vocabulary of the design document *)

(** The text of a data line after the prefix, trimmed. *)
Definition payload_of (line : jsstring) : jsstring :=
  trim (slice_from 5 (trim line)).

(** The two spellings of the terminal sentinel the source compares with. *)
Definition is_sentinel (payload : jsstring) : bool :=
  str_eqb payload (lit "[DONE]") || str_eqb payload (lit "[done]").

(** A field is present when the object has it with a value other than
    [null]. *)
Definition present (v : jsvalue) : bool := negb (nullish v).

(** The first present candidate, in the order of the list. *)
Fixpoint first_present (candidates : list jsvalue) : jsvalue :=
  match candidates with
  | [] => undefined
  | c :: cs => if present c then c else first_present cs
  end.

(** The field [inner] of the object held by the field [outer]. *)
Definition nested_field (members : list (jsstring * json))
  (outer inner : jsstring) : jsvalue :=
  match lookup_last outer members with
  | Some (JObject fields) => lookup_last inner fields
  | _ => undefined
  end.

(** Extraction as the design document words it: the nested delta-content
    field, then the delta field, then the content field, then the answer
    field; the empty text when none is present. *)
Definition extract_by_priority (members : list (jsstring * json)) : json :=
  match first_present
          [nested_field members (lit "delta") (lit "content");
           lookup_last (lit "delta") members;
           lookup_last (lit "content") members;
           lookup_last (lit "answer") members] with
  | Some v => v
  | None => JString []
  end.

(** The answer of a backend document as the design document words it: the
    content of the message of the first choice, and the empty text when
    there is none. The first choice is [choices[0]], whatever [choices] is:
    the first item of an array, the first code unit of a string, the
    property [0] of an object. *)
Definition first_choice_content (data : json) : json :=
  let choices :=
    match data with
    | JObject top => lookup_last (lit "choices") top
    | _ => undefined
    end in
  let first :=
    match choices with
    | Some (JArray (x :: _)) => Some x
    | Some (JString (c :: _)) => Some (JString [c])
    | Some (JObject ms) => lookup_last (lit "0") ms
    | _ => undefined
    end in
  let message :=
    match first with
    | Some (JObject ms) => lookup_last (lit "message") ms
    | _ => undefined
    end in
  let content :=
    match message with
    | Some (JObject ms) => lookup_last (lit "content") ms
    | _ => undefined
    end in
  match content with
  | None | Some JNull => JString []
  | Some c => c
  end.

(** The answer extracted from the body of a backend response that came as
    one document: that of the document when the body parses, the body
    itself when it does not. *)
Definition extracted_answer (text : jsstring) : json :=
  match JSON_parse text with
  | Some data => first_choice_content data
  | None => JString text
  end.

(** What a run of the handler wrote to the outgoing response. *)
Definition output (r : HandlerResult) : list OutEvent :=
  match r with
  | Returned _ _ => []
  | Streamed out => out
  | Thrown out _ => out
  end.

(** The non-system messages of a list. *)
Definition non_system (messages : list ChatMessage) : list ChatMessage :=
  filter (fun m => negb (Role_eqb (role m) system)) messages.

(** ** The text a stream contributes *)

(** The text the read loop appends for one line: nothing for a line that is
    not a data line or whose payload is empty, the text of the payload
    otherwise; [None] when the payload has no text, and the line throws. *)
Definition line_text (line : jsstring) : option jsstring :=
  match parseSSELine line with
  | JNull => Some []
  | v => js_to_string v
  end.

(** The texts of lines put together, up to the first line that throws, and
    whether there is one. *)
Fixpoint texts_until (ts : list (option jsstring)) : jsstring * bool :=
  match ts with
  | [] => ([], false)
  | None :: _ => ([], true)
  | Some t :: rest => let (u, threw) := texts_until rest in (t ++ u, threw)
  end.

(** The lines of the complete events of a text. *)
Definition stream_lines (s : jsstring) : list jsstring :=
  flat_map split_lines (fst (splitFrames s)).

(** The text appended for the complete events of a text, up to the first
    line that throws, and whether there is one. *)
Definition stream_text (s : jsstring) : jsstring * bool :=
  texts_until (map line_text (stream_lines s)).

(** What the [catch] clause is handed when a line has thrown. *)
Definition thrown_if (threw : bool) : option JsError :=
  if threw then Some not_primitive else None.

(** A text made of white space only. *)
Definition all_space (s : jsstring) : bool := forallb is_js_space s.

(** Every code unit of a JavaScript string is below 2^16. *)
Definition js_wf (s : jsstring) : bool := forallb (fun c => c <? 65536) s.

(** Lines joined by line feeds. *)
Fixpoint join_lines (lines : list jsstring) : jsstring :=
  match lines with
  | [] => []
  | [l] => l
  | l :: rest => l ++ LF :: join_lines rest
  end.

(** A line that holds neither a line feed nor a carriage return. *)
Definition no_break (l : jsstring) : bool :=
  forallb (fun c => negb (c =? LF) && negb (c =? CR)) l.

(** The content kinds the source tells apart, as it reads them: the header
    in lower case, the empty text when there is none. *)
Definition is_event_stream (contentType : option jsstring) : bool :=
  includes (lit "text/event-stream")
    (match contentType with Some h => toLowerCase h | None => [] end).

Definition is_json_kind (contentType : option jsstring) : bool :=
  includes (lit "application/json")
    (match contentType with Some h => toLowerCase h | None => [] end).

(** The state of the read loop on an event stream once the text [s] has been
    received, for a slot that held [c0] when the loop began. *)
Definition reading_of (msgs : list ChatMessage) (r : Role) (c0 s : jsstring) :
  Reading :=
  let slot := msgs ++ [{| role := r; content := c0 ++ fst (stream_text s) |}] in
  if snd (stream_text s) then Threw slot not_primitive
  else Going (snd (splitFrames s)) slot.

(** The text the read loop has appended when it ends, and whether it was
    left by a line that throws: the text of the stream for an event stream,
    the chunks themselves for another content kind. *)
Definition body_text (contentType : option jsstring) (cs : list jsstring) :
  jsstring * bool :=
  if is_event_stream contentType then stream_text (concat cs)
  else (concat cs, false).

(** What the client makes of the answer it is handed. *)
Definition shown_answer (a : json) (msgs : list ChatMessage) :
  list ChatMessage * option JsError :=
  match a with
  | JString c =>
      (msgs ++ [{| role := assistant; content := postProcessMarkdown c |}], None)
  | JNull =>
      (msgs ++ [{| role := assistant; content := postProcessMarkdown [] |}], None)
  | _ => (msgs, Some not_a_function)
  end.

(** How a stream ends in the session: the content of the assistant message
    and the error, from the text appended and whether a line threw. *)
Definition slot_content (text : jsstring * bool) : jsstring :=
  if snd text then fst text else postProcessMarkdown (fst text).

Definition stream_error (text : jsstring * bool) : option jsstring :=
  if snd text then err_message not_primitive else None.

(** The test of the [catch] clause, and the message it records. *)
Definition is_abort (e : JsError) : bool :=
  match err_name e with
  | Some n => str_eqb n (lit "AbortError")
  | None => false
  end.

Definition message_of (e : JsError) : jsstring :=
  match err_message e with
  | Some m => m
  | None => lit "Unknown error"
  end.

(** The first test of the handler. *)
Definition key_missing (config : RuntimeConfig) : bool :=
  negb (truthy (option_map JString (openaiApiKey config))).

(** A text that holds no line feed. *)
Definition no_LF (t : jsstring) : bool := forallb (fun c => negb (c =? LF)) t.

(** A text without its last code unit when that is a carriage return. *)
Fixpoint chomp_cr (t : jsstring) : jsstring :=
  match t with
  | [] => []
  | [c] => if c =? CR then [] else [c]
  | c :: t' => c :: chomp_cr t'
  end.

(** The lines the handler wraps: the lines of every chunk that are not
    empty. *)
Definition wrapped_lines (cs : list jsstring) : list jsstring :=
  flat_map (fun chunk => filter (fun ln => (0 <? length ln)%nat) (split_lines chunk))
           cs.

(** The text the read loop appends for a line the handler wrapped. *)
Definition wrapped_text (ln : jsstring) : option jsstring :=
  line_text (lit "data: " ++ ln).

(** ** The earlier handler, without streaming

    The version of the endpoint that the streaming handler replaced. It
    reads no [stream] field and posts none. *)

(** The payload it posts: model, temperature, messages. *)
Definition first_payload (config : RuntimeConfig) (b : ChatBody) :
  jsstring * jsstring * list ChatMessage :=
  (match body_model b with
   | Some (c :: m) => c :: m
   | _ => openaiModel config
   end,
   match body_temperature b with Some t => t | None => lit "0.4" end,
   {| role := system; content := lit "You are a helpful assistant." |}
   :: match body_history b with Some h => h | None => [] end
   ++ [{| role := user; content := body_prompt b |}]).

Definition first_handler (config : RuntimeConfig) (b : ChatBody)
  (fetched : Settled Response) : HandlerResult :=
  if negb (truthy (option_map JString (openaiApiKey config))) then
    Returned 500 (JObject [(lit "error", JString (lit "Server missing OPENAI_API_KEY"))])
  else
    match fetched with
    | Rejected e => Thrown [] e
    | Fulfilled res =>
        if negb (resp_ok res) then
          Returned 500
            (JObject
               [(lit "error",
                 JString (lit "OpenAI error: " ++
                          match resp_text res with
                          | Fulfilled t => t
                          | Rejected _ => []
                          end))])
        else
          match resp_text res with
          | Rejected e => Thrown [] e
          | Fulfilled t =>
              match JSON_parse t with
              | None => Thrown [] syntax_error
              | Some data =>
                  Returned 200
                    (JObject
                       [(lit "answer",
                         coalesce_value
                           (opt_member
                              (opt_member
                                 (opt_first (opt_member (Some data) (lit "choices")))
                                 (lit "message"))
                              (lit "content"))
                           (JString []))])
              end
          end
    end.

(** ** The chat widget *)

(** The props of the widget that reach the composable or the message list,
    after [withDefaults]. *)
Record Props := {
  p_model : option jsstring;
  p_temperature : jsstring;
  p_systemPrompt : option jsstring;
  p_maxHistory : Z;
  p_welcomeMessage : jsstring;
  p_maxTokens : Z;
  p_stream : bool }.

(** The options the widget creates its [useChat] instance with. *)
Definition chat_options (props : Props) : UseChatOptions :=
  {| opt_model := p_model props;
     opt_temperature := Some (p_temperature props);
     opt_maxHistory := Some (p_maxHistory props);
     opt_systemPrompt := p_systemPrompt props;
     opt_maxTokens := Some (p_maxTokens props);
     opt_stream := Some (p_stream props) |}.

(** The refs of the widget that its functions read or write, with the state
    of its [useChat] instance. *)
Record Widget := {
  w_open : bool;
  w_input : jsstring;
  w_greeted : bool;
  w_chat : Session }.

Definition ensureGreeting (props : Props) (w : Widget) : Widget :=
  if w_greeted w then w
  else
    let nonSystemCount :=
      length (filter (fun m => negb (Role_eqb (role m) system))
                     (messages (w_chat w))) in
    if (nonSystemCount =? 0)%nat then
      {| w_open := w_open w;
         w_input := w_input w;
         w_greeted := true;
         w_chat :=
           with_messages (w_chat w)
             (messages (w_chat w) ++
              [{| role := assistant; content := p_welcomeMessage props |}]) |}
    else w.

(** [onSubmit] up to the first [await] of the [send] it calls: the widget
    it leaves and the request that is issued if one is. *)
Definition onSubmit (props : Props) (w : Widget) : Widget * option ChatRequest :=
  let q := trim (w_input w) in
  if negb (truthy (Some (JString q))) then (w, None)
  else
    let (s1, req) := send_begin (chat_options props) q (w_chat w) in
    ({| w_open := w_open w; w_input := []; w_greeted := w_greeted w;
        w_chat := s1 |}, req).

(** The reset button of the panel calls [reset] of the composable. *)
Definition click_reset (props : Props) (w : Widget) : Widget :=
  {| w_open := w_open w; w_input := w_input w; w_greeted := w_greeted w;
     w_chat := reset (chat_options props) (w_chat w) |}.

(** ** Sample data *)

Definition options (maxHistory : option Z) (stream : option bool) :
  UseChatOptions :=
  {| opt_model := None;
     opt_temperature := None;
     opt_maxHistory := maxHistory;
     opt_systemPrompt := None;
     opt_maxTokens := None;
     opt_stream := stream |}.

Definition sample_config : RuntimeConfig :=
  {| openaiApiKey := Some (lit "sk-test");
     openaiModel := lit "gpt-4o-mini";
     openaiBaseUrl := lit "https://api.openai.com/v1" |}.

(** A backend response with the given status, content type and body text,
    the body arriving as one chunk. *)
Definition backend_response (status : N) (contentType : String.string)
  (text : jsstring) : Response :=
  {| resp_status := status;
     resp_statusText := [];
     resp_contentType := Some (lit contentType);
     resp_body := Some {| chunks := [text]; ending := None |};
     resp_text := Fulfilled text |}.

Definition fetch_error : JsError :=
  {| err_name := Some (lit "FetchError");
     err_message := Some (lit "[POST] /api/chat: 500 Internal Server Error") |}.

(** A transport that sends compact JSON. *)
Definition sample_transport : Transport :=
  {| serialize := JSON_stringify;
     reason_phrase :=
       fun status => if status =? 200 then lit "OK"
                     else lit "Internal Server Error";
     rejection := fun _ _ => fetch_error |}.

(** The body of the non-streaming scenario of the design document. *)
Definition hi_there_body : jsstring :=
  dq "{'choices':[{'message':{'content':'hi there'}}]}".

(** The content kind the handler reads of a backend response. *)
Definition content_kind (upstream : Response) : jsstring :=
  match resp_contentType upstream with
  | Some h => toLowerCase h
  | None => []
  end.

Definition streaming_body : ChatBody :=
  {| body_prompt := lit "hello";
     body_history := Some [];
     body_temperature := None;
     body_model := None;
     body_stream := Some true |}.

Definition two_messages : list ChatMessage :=
  [{| role := user; content := lit "a" |};
   {| role := assistant; content := lit "b" |}].

(** The error of a server that cannot be reached. *)
Definition network_error : JsError :=
  {| err_name := Some (lit "TypeError");
     err_message := Some (lit "Failed to fetch") |}.

(** A backend response with a success status whose body arrives as the
    given chunks. *)
Definition chunked_response (contentType : String.string)
  (cs : list jsstring) (e : option jsstring) : Response :=
  {| resp_status := 200;
     resp_statusText := lit "OK";
     resp_contentType := Some (lit contentType);
     resp_body := Some {| chunks := cs; ending := e |};
     resp_text := Fulfilled (concat cs) |}.

(** The value of [hi_there_body]. *)
Definition hi_there_data : json :=
  JObject
    [(lit "choices",
      JArray
        [JObject
           [(lit "message",
             JObject [(lit "content", JString (lit "hi there"))])]])].

Definition no_key_config : RuntimeConfig :=
  {| openaiApiKey := None;
     openaiModel := lit "gpt-4o-mini";
     openaiBaseUrl := lit "https://api.openai.com/v1" |}.

Definition plain_body : ChatBody :=
  {| body_prompt := lit "hello";
     body_history := Some [];
     body_temperature := None;
     body_model := None;
     body_stream := Some false |}.

(** A session with a conversation behind it. *)
Definition talked_session : Session :=
  {| messages := two_messages;
     pending := false;
     error := None;
     controllers := [false];
     abortCtrl := Some 0%nat |}.

Definition sample_props : Props :=
  {| p_model := None;
     p_temperature := lit "0.4";
     p_systemPrompt := Some (lit "Be brief.");
     p_maxHistory := 10%Z;
     p_welcomeMessage := lit "Hello! How can I help?";
     p_maxTokens := 1536%Z;
     p_stream := false |}.

(** The widget as it is mounted, with the given input typed. *)
Definition mounted (props : Props) (typed : jsstring) : Widget :=
  {| w_open := false;
     w_input := typed;
     w_greeted := false;
     w_chat := useChat (chat_options props) |}.

(** * Properties *)

(** ** Scanning with a pattern *)

Example split_blank_example :
  split_blank (lit "a
b

c") = [lit "a
b"; lit "c"].
Proof. vm_compute. reflexivity. Qed.


Section RegexFacts.

Variable m : jsstring -> option jsstring.
Hypothesis m_length :
  forall s r, m s = Some r -> (length r < length s)%nat.

Lemma count_matches_hit s r :
  m s = Some r ->
  count_matches m m_length s = S (count_matches m m_length r).
Proof.
  intros H. rewrite count_matches_equation_1. unfold inspect.
  enough (G : forall o (e : m s = o), o = Some r ->
    count_matches_unfold_clause_1 m m_length s (exist _ o e) =
    S (count_matches m m_length r)) by (apply G; assumption).
  intros o e ->. reflexivity.
Qed.

Lemma count_matches_nil : count_matches m m_length [] = 0%nat.
Proof.
  rewrite count_matches_equation_1. unfold inspect.
  enough (G : forall o (e : m [] = o),
    count_matches_unfold_clause_1 m m_length [] (exist _ o e) = 0%nat)
    by apply G.
  intros [r|] e.
  - pose proof (m_length _ _ e) as L. simpl in L. lia.
  - reflexivity.
Qed.

Lemma count_matches_miss c s :
  m (c :: s) = None ->
  count_matches m m_length (c :: s) = count_matches m m_length s.
Proof.
  intros H. rewrite count_matches_equation_1. unfold inspect.
  enough (G : forall o (e : m (c :: s) = o), o = None ->
    count_matches_unfold_clause_1 m m_length (c :: s) (exist _ o e) =
    count_matches m m_length s) by (apply G; assumption).
  intros o e ->. reflexivity.
Qed.

Lemma split_from_hit cur s r :
  m s = Some r ->
  split_from m m_length cur s = cur :: split_from m m_length [] r.
Proof.
  intros H. rewrite split_from_equation_1. unfold inspect.
  enough (G : forall o (e : m s = o), o = Some r ->
    split_from_unfold_clause_1 m m_length cur s (exist _ o e) =
    cur :: split_from m m_length [] r) by (apply G; assumption).
  intros o e ->. reflexivity.
Qed.

Lemma split_from_nil cur : split_from m m_length cur [] = [cur].
Proof.
  rewrite split_from_equation_1. unfold inspect.
  enough (G : forall o (e : m [] = o),
    split_from_unfold_clause_1 m m_length cur [] (exist _ o e) = [cur])
    by apply G.
  intros [r|] e.
  - pose proof (m_length _ _ e) as L. simpl in L. lia.
  - reflexivity.
Qed.

Lemma split_from_miss cur c s :
  m (c :: s) = None ->
  split_from m m_length cur (c :: s) = split_from m m_length (cur ++ [c]) s.
Proof.
  intros H. rewrite split_from_equation_1. unfold inspect.
  enough (G : forall o (e : m (c :: s) = o), o = None ->
    split_from_unfold_clause_1 m m_length cur (c :: s) (exist _ o e) =
    split_from m m_length (cur ++ [c]) s) by (apply G; assumption).
  intros o e ->. reflexivity.
Qed.

(** A split is never empty: there is always a last piece. *)
Lemma split_from_not_nil cur s : split_from m m_length cur s <> [].
Proof.
  revert cur. induction s as [s IH] using (induction_ltof1 _ (@length N)).
  intros cur. destruct (m s) as [r|] eqn:E.
  - rewrite (split_from_hit _ _ _ E). discriminate.
  - destruct s as [|c s].
    + rewrite split_from_nil. discriminate.
    + rewrite (split_from_miss _ _ _ E). apply IH. unfold ltof. simpl. lia.
Qed.

End RegexFacts.

(** ** [JSON.parse] and its fuel *)

Example JSON_parse_example :
  JSON_parse (dq "{'a': [1, true, null], 'b': {'c': 'x\ny'}}") =
  Some (JObject [(lit "a", JArray [JNumber (lit "1"); JBool true; JNull]);
                 (lit "b", JObject [(lit "c", JString (lit "x" ++ [LF] ++ lit "y"))])]).
Proof. vm_compute. reflexivity. Qed.

Lemma skip_ws_length s : (length (skip_ws s) <= length s)%nat.
Proof.
  induction s as [|c s IH]; simpl; [lia|].
  destruct (is_json_ws c); simpl; lia.
Qed.

Lemma push_unit_some c o t r :
  push_unit c o = Some (t, r) -> exists t', o = Some (t', r) /\ t = c :: t'.
Proof.
  destruct o as [[t' r']|]; simpl; [|discriminate].
  intros [= <- <-]. eauto.
Qed.

Lemma parse_string_body_length s : forall t r,
  parse_string_body s = Some (t, r) -> (length r < length s)%nat.
Proof.
  induction s as [s IH] using (induction_ltof1 _ (@length N)). unfold ltof in IH.
  intros t r. destruct s as [|c s1]; simpl; [discriminate|].
  destruct (c =? 34).
  { intros [= <- <-]. lia. }
  destruct (c =? 92).
  { destruct s1 as [|e s2]; [discriminate|].
    destruct (e =? 117).
    - destruct s2 as [|h1 [|h2 [|h3 [|h4 s6]]]]; try discriminate.
      destruct (hex4 h1 h2 h3 h4); [|discriminate].
      intros (t' & H & _)%push_unit_some. apply IH in H; simpl in *; lia.
    - destruct (unescape e); [|discriminate].
      intros (t' & H & _)%push_unit_some. apply IH in H; simpl in *; lia. }
  destruct (c <? 32); [discriminate|].
  intros (t' & H & _)%push_unit_some. apply IH in H; simpl in *; lia.
Qed.

Lemma span_digits_length s d r :
  span_digits s = (d, r) -> (length r <= length s)%nat.
Proof.
  revert d r. induction s as [|c s IH]; simpl; intros d r.
  - intros [= <- <-]. simpl. lia.
  - destruct (is_digit c).
    + destruct (span_digits s) as [d' r'] eqn:E. intros [= <- <-].
      specialize (IH _ _ eq_refl). lia.
    + intros [= <- <-]. simpl. lia.
Qed.

Lemma number_sign_length s g r :
  number_sign s = (g, r) -> (length r <= length s)%nat.
Proof.
  destruct s as [|c s]; simpl.
  - intros [= <- <-]. simpl. lia.
  - destruct (c =? 45); intros [= <- <-]; simpl; lia.
Qed.

Lemma number_int_length s i r :
  number_int s = Some (i, r) -> (length r < length s)%nat.
Proof.
  destruct s as [|c s]; simpl; [discriminate|].
  destruct (c =? 48).
  { intros [= <- <-]. lia. }
  destruct (is_digit c) eqn:D; [|discriminate].
  destruct (span_digits s) as [d' r'] eqn:E. intros [= <- <-].
  apply span_digits_length in E. lia.
Qed.

Lemma number_frac_length s f r :
  number_frac s = Some (f, r) -> (length r <= length s)%nat.
Proof.
  destruct s as [|c s]; simpl.
  { intros [= <- <-]. simpl. lia. }
  destruct (c =? 46).
  - destruct (span_digits s) as [[|d0 d] r'] eqn:E; [discriminate|].
    intros [= <- <-]. apply span_digits_length in E. lia.
  - intros [= <- <-]. simpl. lia.
Qed.

Lemma number_exp_length s e r :
  number_exp s = Some (e, r) -> (length r <= length s)%nat.
Proof.
  destruct s as [|c s]; simpl.
  { intros [= <- <-]. simpl. lia. }
  destruct ((c =? 101) || (c =? 69)).
  - destruct s as [|g s'].
    + simpl. discriminate.
    + destruct ((g =? 43) || (g =? 45)).
      * destruct (span_digits s') as [[|d0 d] r'] eqn:E; [discriminate|].
        intros [= <- <-]. apply span_digits_length in E. simpl. lia.
      * destruct (span_digits (g :: s')) as [[|d0 d] r'] eqn:E; [discriminate|].
        intros [= <- <-]. apply span_digits_length in E. simpl in *. lia.
  - intros [= <- <-]. simpl. lia.
Qed.

Lemma parse_number_length s l r :
  parse_number s = Some (l, r) -> (length r < length s)%nat.
Proof.
  unfold parse_number.
  destruct (number_sign s) as [g s0] eqn:E0.
  destruct (number_int s0) as [[i s1]|] eqn:E1; [|discriminate].
  destruct (number_frac s1) as [[f s2]|] eqn:E2; [|discriminate].
  destruct (number_exp s2) as [[e s3]|] eqn:E3; [|discriminate].
  intros [= <- <-].
  apply number_sign_length in E0. apply number_int_length in E1.
  apply number_frac_length in E2. apply number_exp_length in E3. lia.
Qed.

Lemma with_value_some {A B} (f : A -> B) o b r :
  with_value f o = Some (b, r) -> exists a, o = Some (a, r) /\ b = f a.
Proof.
  destruct o as [[a r']|]; simpl; [|discriminate].
  intros [= <- <-]. eauto.
Qed.

Lemma parse_value_step F :
  elements_ok F -> members_ok F -> value_ok (S F).
Proof.
  intros IHe IHm s v r. cbn [parse_value].
  pose proof (skip_ws_length s) as Lws.
  destruct (skip_ws s) as [|c r0] eqn:Es; [discriminate|].
  simpl length in Lws.
  destruct (c =? 123) eqn:Ec1.
  { pose proof (skip_ws_length r0) as Lws0.
    destruct (skip_ws r0) as [|d r'] eqn:Es0; [discriminate|].
    simpl length in Lws0.
    destruct (d =? 125) eqn:Ed.
    - intros [= <- <-]. split; [lia|].
      intros [|f] Hf; [lia|]. cbn [parse_value]. rewrite Es, Ec1, Es0, Ed. reflexivity.
    - intros (ms & H & ->)%with_value_some.
      destruct (IHm _ _ _ H) as [L K]. simpl length in L. split; [lia|].
      intros [|f] Hf; [lia|]. cbn [parse_value]. rewrite Es, Ec1, Es0, Ed.
      rewrite K; [reflexivity|]. simpl length. lia. }
  destruct (c =? 91) eqn:Ec2.
  { pose proof (skip_ws_length r0) as Lws0.
    destruct (skip_ws r0) as [|d r'] eqn:Es0; [discriminate|].
    simpl length in Lws0.
    destruct (d =? 93) eqn:Ed.
    - intros [= <- <-]. split; [lia|].
      intros [|f] Hf; [lia|]. cbn [parse_value]. rewrite Es, Ec1, Ec2, Es0, Ed. reflexivity.
    - intros (ms & H & ->)%with_value_some.
      destruct (IHe _ _ _ H) as [L K]. simpl length in L. split; [lia|].
      intros [|f] Hf; [lia|]. cbn [parse_value]. rewrite Es, Ec1, Ec2, Es0, Ed.
      rewrite K; [reflexivity|]. simpl length. lia. }
  intros H.
  assert (L : (length r < length s)%nat).
  { destruct (c =? 34).
    { apply with_value_some in H as (t & H & _).
      apply parse_string_body_length in H. lia. }
    destruct (startsWith (lit "true") (c :: r0)).
    { injection H as <- <-.
      repeat match goal with
             | |- context [match ?l with _ => _ end] => destruct l
             end; cbn [length] in *; lia. }
    destruct (startsWith (lit "false") (c :: r0)).
    { injection H as <- <-.
      repeat match goal with
             | |- context [match ?l with _ => _ end] => destruct l
             end; cbn [length] in *; lia. }
    destruct (startsWith (lit "null") (c :: r0)).
    { injection H as <- <-.
      repeat match goal with
             | |- context [match ?l with _ => _ end] => destruct l
             end; cbn [length] in *; lia. }
    apply with_value_some in H as (t & H & _).
    apply parse_number_length in H. simpl in H. lia. }
  split; [exact L|].
  intros [|f] Hf; [lia|]. cbn [parse_value]. rewrite Es, Ec1, Ec2. exact H.
Qed.

Lemma parse_elements_step F :
  value_ok F -> elements_ok F -> elements_ok (S F).
Proof.
  intros IHv IHe s l r. cbn [parse_elements].
  destruct (parse_value F s) as [[v r1]|] eqn:Ev; [|discriminate].
  destruct (IHv _ _ _ Ev) as [Lv Kv].
  pose proof (skip_ws_length r1) as Lws.
  destruct (skip_ws r1) as [|d r'] eqn:Es; [discriminate|].
  simpl length in Lws.
  destruct (d =? 44) eqn:Ed1.
  - intros (l' & H & ->)%with_value_some.
    destruct (IHe _ _ _ H) as [Le Ke]. split; [lia|].
    intros [|f] Hf; [lia|]. cbn [parse_elements].
    rewrite Kv by lia. rewrite Es, Ed1. rewrite Ke by lia. reflexivity.
  - destruct (d =? 93) eqn:Ed2; [|discriminate].
    intros [= <- <-]. split; [lia|].
    intros [|f] Hf; [lia|]. cbn [parse_elements].
    rewrite Kv by lia. rewrite Es, Ed1, Ed2. reflexivity.
Qed.

Lemma parse_members_step F :
  value_ok F -> members_ok F -> members_ok (S F).
Proof.
  intros IHv IHm s l r. cbn [parse_members].
  pose proof (skip_ws_length s) as Lws.
  destruct (skip_ws s) as [|q r0] eqn:Es; [discriminate|].
  simpl length in Lws.
  destruct (q =? 34) eqn:Eq; [|discriminate].
  destruct (parse_string_body r0) as [[k r1]|] eqn:Ek; [|discriminate].
  pose proof (parse_string_body_length _ _ _ Ek) as Lk.
  pose proof (skip_ws_length r1) as Lws1.
  destruct (skip_ws r1) as [|col r2] eqn:Es1; [discriminate|].
  simpl length in Lws1.
  destruct (col =? 58) eqn:Ecol; [|discriminate].
  destruct (parse_value F r2) as [[v r3]|] eqn:Ev; [|discriminate].
  destruct (IHv _ _ _ Ev) as [Lv Kv].
  pose proof (skip_ws_length r3) as Lws3.
  destruct (skip_ws r3) as [|d r4] eqn:Es3; [discriminate|].
  simpl length in Lws3.
  destruct (d =? 44) eqn:Ed1.
  - intros (l' & H & ->)%with_value_some.
    destruct (IHm _ _ _ H) as [Lm Km]. split; [lia|].
    intros [|f] Hf; [lia|]. cbn [parse_members].
    rewrite Es, Eq, Ek, Es1, Ecol. rewrite Kv by lia. rewrite Es3, Ed1.
    rewrite Km by lia. reflexivity.
  - destruct (d =? 125) eqn:Ed2; [|discriminate].
    intros [= <- <-]. split; [lia|].
    intros [|f] Hf; [lia|]. cbn [parse_members].
    rewrite Es, Eq, Ek, Es1, Ecol. rewrite Kv by lia. rewrite Es3, Ed1, Ed2.
    reflexivity.
Qed.

Lemma parse_fuel_ok F : value_ok F /\ elements_ok F /\ members_ok F.
Proof.
  induction F as [|F (IHv & IHe & IHm)].
  - split; [|split]; intros s x r H; discriminate H.
  - split; [|split].
    + apply parse_value_step; assumption.
    + apply parse_elements_step; assumption.
    + apply parse_members_step; assumption.
Qed.

(** Numbers are read as doubles and printed as [String] prints them; the
    members of an object are enumerated as JavaScript enumerates them, a
    repeated key once, with its last value. *)
Example JSON_parse_values :
  JSON_parse (dq "{'b':1.0,'2':1e3,'a':1e400,'1':-0,'b':0.1e-6,'c':[0.1,1e21]}") =
  Some (JObject [(lit "1", JNumber (lit "0"));
                 (lit "2", JNumber (lit "1000"));
                 (lit "b", JNumber (lit "1e-7"));
                 (lit "a", JNumber (lit "Infinity"));
                 (lit "c", JArray [JNumber (lit "0.1"); JNumber (lit "1e+21")])]) /\
  option_map JSON_stringify
    (JSON_parse (dq "{'b':1.0,'2':1e3,'a':1e400,'1':-0,'b':0.1e-6,'c':[0.1,1e21]}")) =
  Some (dq "{'1':0,'2':1000,'b':1e-7,'a':null,'c':[0.1,1e+21]}").
Proof. vm_compute. split; reflexivity. Qed.

(** [JSON_parse] does not depend on its fuel: a text that the descent
    accepts with any fuel at all is accepted, with the same value. *)
Lemma JSON_parse_any_fuel F s v r :
  parse_value F s = Some (v, r) -> skip_ws r = [] ->
  JSON_parse s = Some (value_of v).
Proof.
  intros H Hr. destruct (parse_fuel_ok F) as (Hv & _ & _).
  destruct (Hv _ _ _ H) as [_ K].
  unfold JSON_parse, parse_text. rewrite K by lia. rewrite Hr. reflexivity.
Qed.

(** ** What [JSON.stringify] prints *)

(** Induction on JSON values, with the hypothesis for every item and member. *)
Lemma json_nested_ind (P : json -> Prop) :
  P JNull -> (forall b, P (JBool b)) -> (forall l, P (JNumber l)) ->
  (forall s, P (JString s)) ->
  (forall items, Forall P items -> P (JArray items)) ->
  (forall ms, Forall (fun kv => P (snd kv)) ms -> P (JObject ms)) ->
  forall v, P v.
Proof.
  intros Hnull Hbool Hnum Hstr Harr Hobj.
  fix IH 1. intros [| b | l | s | items | ms].
  - exact Hnull.
  - apply Hbool.
  - apply Hnum.
  - apply Hstr.
  - apply Harr. induction items as [|x items IHl]; constructor; [apply IH|exact IHl].
  - apply Hobj. induction ms as [|[k x] ms IHl]; constructor; [apply IH|exact IHl].
Qed.

Lemma forallb_app_true {A} (f : A -> bool) l1 l2 :
  forallb f l1 = true -> forallb f l2 = true -> forallb f (l1 ++ l2) = true.
Proof. intros H1 H2. rewrite forallb_app, H1, H2. reflexivity. Qed.

Lemma hex_digit_printable n : printable (hex_digit n) = true.
Proof.
  unfold hex_digit, printable. destruct (n <? 10); apply N.leb_le; lia.
Qed.

Lemma u_escape_printable c : forallb printable (u_escape c) = true.
Proof.
  unfold u_escape. cbn [forallb]. rewrite !hex_digit_printable. reflexivity.
Qed.

Lemma quote_units_printable s : forallb printable (quote_units s) = true.
Proof.
  induction s as [s IH] using (induction_ltof1 _ (@length N)). unfold ltof in IH.
  destruct s as [|c s1]; [reflexivity|]. cbn [quote_units].
  assert (IH1 : forallb printable (quote_units s1) = true)
    by (apply IH; simpl; lia).
  do 7 (match goal with
        | |- forallb printable (if ?b then _ else _) = true =>
            destruct b; [cbn [forallb]; rewrite IH1; reflexivity|]
        end).
  destruct (c <? 32) eqn:Ec.
  { apply forallb_app_true; [apply u_escape_printable|exact IH1]. }
  assert (Pc : printable c = true).
  { unfold printable. apply N.leb_le. apply N.ltb_ge in Ec. exact Ec. }
  destruct (is_high_surrogate c).
  { destruct s1 as [|d s2]; [apply u_escape_printable|].
    destruct (is_low_surrogate d) eqn:Ed.
    - cbn [forallb]. rewrite Pc, IH by (simpl; lia).
      unfold is_low_surrogate in Ed. apply andb_true_iff in Ed as [B _].
      apply N.leb_le in B. unfold printable.
      rewrite (proj2 (N.leb_le 32 d)) by lia. reflexivity.
    - apply forallb_app_true; [apply u_escape_printable|exact IH1]. }
  destruct (is_low_surrogate c).
  { apply forallb_app_true; [apply u_escape_printable|exact IH1]. }
  cbn [forallb]. rewrite Pc, IH1. reflexivity.
Qed.

Lemma quote_printable s : forallb printable (quote s) = true.
Proof.
  unfold quote. cbn [forallb]. rewrite forallb_app, quote_units_printable.
  reflexivity.
Qed.

Lemma join_comma_printable l :
  Forall (fun x => forallb printable x = true) l ->
  forallb printable (join_comma l) = true.
Proof.
  induction 1 as [|x l Hx Hl IH]; [reflexivity|].
  destruct l as [|y l]; [exact Hx|].
  change (join_comma (x :: y :: l)) with (x ++ lit "," ++ join_comma (y :: l)).
  rewrite !forallb_app, Hx, IH. reflexivity.
Qed.

(** The text [JSON.stringify] prints has no control character in it, hence
    no line break. *)
Lemma JSON_stringify_printable v :
  number_texts_ok v = true -> forallb printable (JSON_stringify v) = true.
Proof.
  induction v as [| b | l | s | items IH | ms IH] using json_nested_ind;
    cbn [JSON_stringify number_texts_ok]; intros Hok.
  - reflexivity.
  - destruct b; reflexivity.
  - destruct (is_infinite l); [reflexivity|exact Hok].
  - apply quote_printable.
  - rewrite !forallb_app. cbn [lit forallb]. 
    rewrite join_comma_printable; [reflexivity|].
    rewrite forallb_forall in Hok. rewrite Forall_forall in IH.
    apply Forall_forall. intros x Hx. apply in_map_iff in Hx as (y & <- & Hy).
    auto.
  - rewrite !forallb_app.
    rewrite join_comma_printable; [reflexivity|].
    rewrite forallb_forall in Hok. rewrite Forall_forall in IH.
    apply Forall_forall. intros x Hx. apply in_map_iff in Hx as ([k y] & <- & Hy).
    pose proof (IH _ Hy (Hok _ Hy)) as E.
    cbn [fst snd] in E |- *. rewrite !forallb_app, quote_printable, E.
    reflexivity.
Qed.

(** ** What [JSON.parse] builds *)

(** What [String] prints for a number has no control character. *)
Lemma dec_printable n : forallb printable (dec n) = true.
Proof.
  unfold dec. generalize (N.to_uint n). intros u.
  induction u; cbn; auto.
Qed.

Lemma zeros_printable n : forallb printable (zeros n) = true.
Proof. unfold zeros. induction (Z.to_nat n); cbn; auto. Qed.

Lemma strip_zeros_printable l :
  forallb printable l = true -> forallb printable (strip_zeros l) = true.
Proof.
  induction l as [|c l IH]; cbn [strip_zeros forallb]; [reflexivity|].
  intros H. destruct (c =? 48); [|exact H].
  apply andb_true_iff in H as [_ H]. apply IH, H.
Qed.

Lemma rev_printable l :
  forallb printable l = true -> forallb printable (rev l) = true.
Proof.
  intros H. apply forallb_forall. intros c Hc. apply in_rev in Hc.
  rewrite forallb_forall in H. auto.
Qed.

Lemma format_number_printable ds n :
  forallb printable ds = true -> forallb printable (format_number ds n) = true.
Proof.
  intros H. unfold format_number.
  destruct (_ && _).
  { rewrite forallb_app, H, zeros_printable. reflexivity. }
  destruct (_ && _).
  { rewrite <- (firstn_skipn (Z.to_nat n) ds), forallb_app in H.
    apply andb_true_iff in H as [H1 H2].
    rewrite forallb_app. cbn [forallb]. rewrite H1, H2. reflexivity. }
  destruct (_ && _).
  { rewrite !forallb_app, zeros_printable, H. reflexivity. }
  cbv zeta. rewrite forallb_app. cbn [forallb]. rewrite dec_printable.
  assert (Hm : forallb printable
                 match ds with
                 | [] => []
                 | [c] => [c]
                 | c :: (_ :: _) as r => c :: 46 :: r
                 end = true).
  { destruct ds as [|c [|c' r]]; [reflexivity|exact H|].
    cbn [forallb] in H |- *. apply andb_true_iff in H as [-> ->]. reflexivity. }
  rewrite Hm. destruct (0 <=? n - 1)%Z; reflexivity.
Qed.

Lemma canon_printable l : forallb printable (canon l) = true.
Proof.
  unfold canon. destruct (literal_parts l) as [[neg d] e].
  destruct (d <=? 0)%Z; [reflexivity|].
  destruct (nearest_double d e) as [[m q]|]; [|destruct neg; reflexivity].
  destruct (m =? 0)%Z; [reflexivity|].
  destruct (scale 2 m 1 q) as [xn xd].
  destruct (shortest 17 1 m q (decimal_exponent xn xd)) as [x t].
  cbv zeta.
  assert (H : forallb printable
                (format_number (rev (strip_zeros (rev (dec (Z.to_N x)))))
                   (Z.of_nat (length (dec (Z.to_N x))) + t)) = true).
  { apply format_number_printable, rev_printable, strip_zeros_printable,
      rev_printable, dec_printable. }
  destruct neg; [cbn [forallb]; rewrite H; reflexivity|exact H].
Qed.

(** The own properties of an object are members it was written with. *)
Section OwnProperties.

Variable P : json -> bool.

Lemma put_forallb k v ms :
  P v = true -> forallb (fun kv => P (snd kv)) ms = true ->
  forallb (fun kv => P (snd kv)) (put k v ms) = true.
Proof.
  intros Hv. induction ms as [|[k' v'] ms IH]; cbn [put forallb snd].
  - intros _. rewrite Hv. reflexivity.
  - intros [H1 H2]%andb_true_iff. destruct (str_eqb k k'); cbn [forallb snd].
    + rewrite Hv, H2. reflexivity.
    + rewrite H1, (IH H2). reflexivity.
Qed.

Lemma created_forallb ms : forall acc,
  forallb (fun kv => P (snd kv)) ms = true ->
  forallb (fun kv => P (snd kv)) acc = true ->
  forallb (fun kv => P (snd kv))
    (fold_left (fun acc kv => put (fst kv) (snd kv) acc) ms acc) = true.
Proof.
  induction ms as [|[k v] ms IH]; intros acc; cbn [fold_left forallb fst snd].
  - intros _ H. exact H.
  - intros [H1 H2]%andb_true_iff Hacc. apply IH; [exact H2|].
    apply put_forallb; assumption.
Qed.

Lemma insert_indexed_forallb n kv l :
  P (snd kv) = true -> forallb (fun kv => P (snd kv)) l = true ->
  forallb (fun kv => P (snd kv)) (insert_indexed n kv l) = true.
Proof.
  intros Hkv. induction l as [|kv' l IH]; cbn [insert_indexed forallb].
  - intros _. rewrite Hkv. reflexivity.
  - intros H. pose proof H as [H1 H2]%andb_true_iff.
    destruct (array_index (fst kv')) as [n'|].
    + destruct (n <? n'); cbn [forallb].
      * rewrite Hkv, H. reflexivity.
      * rewrite H1, (IH H2). reflexivity.
    + cbn [forallb]. rewrite Hkv, H. reflexivity.
Qed.

Lemma sort_indexed_forallb l :
  forallb (fun kv => P (snd kv)) l = true ->
  forallb (fun kv => P (snd kv)) (sort_indexed l) = true.
Proof.
  unfold sort_indexed. induction l as [|kv l IH]; cbn [fold_right forallb];
    [reflexivity|].
  intros [H1 H2]%andb_true_iff. destruct (array_index (fst kv)).
  - apply insert_indexed_forallb; [exact H1|apply IH, H2].
  - apply IH, H2.
Qed.

Lemma own_properties_forallb ms :
  forallb (fun kv => P (snd kv)) ms = true ->
  forallb (fun kv => P (snd kv)) (own_properties ms) = true.
Proof.
  intros H. unfold own_properties.
  pose proof (created_forallb ms [] H eq_refl) as Hc.
  rewrite forallb_app, (sort_indexed_forallb _ Hc).
  apply forallb_forall. intros kv [Hin _]%filter_In.
  rewrite forallb_forall in Hc. auto.
Qed.

End OwnProperties.

Lemma value_of_texts_ok v : number_texts_ok (value_of v) = true.
Proof.
  induction v as [| b | l | s | items IH | ms IH] using json_nested_ind;
    cbn [value_of number_texts_ok]; try reflexivity.
  - apply canon_printable.
  - apply forallb_forall. intros x (y & <- & Hy)%in_map_iff.
    rewrite Forall_forall in IH. auto.
  - apply own_properties_forallb. apply forallb_forall.
    intros kv (kv' & <- & Hin)%in_map_iff. cbn [snd].
    rewrite Forall_forall in IH. auto.
Qed.

Lemma JSON_parse_texts_ok s v :
  JSON_parse s = Some v -> number_texts_ok v = true.
Proof.
  unfold JSON_parse. destruct (parse_text s) as [v'|]; [|discriminate].
  intros [= <-]. apply value_of_texts_ok.
Qed.

Lemma lookup_last_texts_ok k ms v :
  forallb (fun kv => number_texts_ok (snd kv)) ms = true ->
  lookup_last k ms = Some v -> number_texts_ok v = true.
Proof.
  induction ms as [|[k' x] ms IH]; cbn [lookup_last forallb snd]; [discriminate|].
  intros [Hx Hms]%andb_true_iff.
  destruct (lookup_last k ms) as [v'|] eqn:E.
  - intros [= <-]. apply IH; [exact Hms|reflexivity].
  - destruct (str_eqb k k'); [|discriminate]. intros [= <-]. exact Hx.
Qed.

Lemma opt_member_texts_ok x k v :
  match x with Some j => number_texts_ok j = true | None => True end ->
  opt_member x k = Some v -> number_texts_ok v = true.
Proof.
  destruct x as [[| | | | |ms]|]; cbn; try discriminate.
  intros H. apply lookup_last_texts_ok, H.
Qed.

Lemma opt_first_texts_ok x v :
  match x with Some j => number_texts_ok j = true | None => True end ->
  opt_first x = Some v -> number_texts_ok v = true.
Proof.
  destruct x as [[| | |s|items|ms]|]; cbn [opt_first]; try discriminate.
  - destruct s; [discriminate|]. intros _ [= <-]. reflexivity.
  - destruct items as [|y items]; [discriminate|]. cbn.
    intros [Hy _]%andb_true_iff [= <-]. exact Hy.
  - intros H. apply lookup_last_texts_ok, H.
Qed.

Lemma answer_of_texts_ok data :
  number_texts_ok data = true -> number_texts_ok (answer_of data) = true.
Proof.
  intros H. unfold answer_of.
  set (a := opt_member (Some data) (lit "choices")).
  assert (Ha : match a with Some j => number_texts_ok j = true | None => True end).
  { destruct a eqn:E; [|exact I]. eapply (opt_member_texts_ok (Some data)), E. exact H. }
  set (b := opt_first a).
  assert (Hb : match b with Some j => number_texts_ok j = true | None => True end).
  { destruct b eqn:E; [|exact I]. eapply opt_first_texts_ok, E. exact Ha. }
  set (c := opt_member b (lit "message")).
  assert (Hc : match c with Some j => number_texts_ok j = true | None => True end).
  { destruct c eqn:E; [|exact I]. eapply opt_member_texts_ok, E. exact Hb. }
  set (d := opt_member c (lit "content")).
  assert (Hd : match d with Some j => number_texts_ok j = true | None => True end).
  { destruct d eqn:E; [|exact I]. eapply opt_member_texts_ok, E. exact Hc. }
  destruct d as [[]|]; cbn [coalesce_value]; try reflexivity; exact Hd.
Qed.

Lemma bridged_answer_texts_ok text :
  number_texts_ok (bridged_answer text) = true.
Proof.
  unfold bridged_answer. destruct (JSON_parse text) as [data|] eqn:E; [|reflexivity].
  apply answer_of_texts_ok. eapply JSON_parse_texts_ok, E.
Qed.

(** ** The fence count *)

Lemma match_fence_app s r t :
  match_fence s = Some r -> match_fence (s ++ t) = Some (r ++ t).
Proof.
  destruct s as [|a [|b [|c s]]]; simpl; try discriminate.
  destruct (_ && _); [|discriminate]. intros [= <-]. reflexivity.
Qed.

(** A failed match stays failed when the text goes on with a code unit that
    is not a backtick. *)
Lemma match_fence_miss_app s c t :
  c <> BACKTICK -> match_fence s = None -> match_fence (s ++ c :: t) = None.
Proof.
  intros Hc. apply N.eqb_neq in Hc.
  destruct s as [|a [|b [|d s]]]; simpl; intros H.
  - destruct t as [|x [|y t]]; try reflexivity.
    rewrite Hc. reflexivity.
  - destruct t as [|x t]; try reflexivity.
    rewrite Hc, andb_false_r. reflexivity.
  - rewrite Hc, andb_false_r. reflexivity.
  - destruct (_ && _); [discriminate|reflexivity].
Qed.

Lemma fence_count_hit s r :
  match_fence s = Some r -> fence_count s = S (fence_count r).
Proof. apply count_matches_hit. Qed.

Lemma fence_count_nil : fence_count [] = 0%nat.
Proof. apply count_matches_nil. Qed.

Lemma fence_count_miss c s :
  match_fence (c :: s) = None -> fence_count (c :: s) = fence_count s.
Proof. apply count_matches_miss. Qed.

(** No fence spans a code unit that is not a backtick: the count of a text
    cut at such a code unit is the sum of the counts of its two parts. *)
Lemma fence_count_app s c t :
  c <> BACKTICK ->
  fence_count (s ++ c :: t) = (fence_count s + fence_count t)%nat.
Proof.
  intros Hc. induction s as [s IH] using (induction_ltof1 _ (@length N)).
  destruct (match_fence s) as [r|] eqn:E.
  - rewrite (fence_count_hit _ _ (match_fence_app _ _ (c :: t) E)).
    rewrite (fence_count_hit _ _ E).
    rewrite IH; [reflexivity|]. unfold ltof. eapply match_fence_length, E.
  - pose proof (match_fence_miss_app _ _ t Hc E) as E'.
    destruct s as [|a s].
    + simpl in *. rewrite (fence_count_miss _ _ E'), fence_count_nil.
      reflexivity.
    + simpl in E' |- *. rewrite (fence_count_miss _ _ E').
      rewrite (fence_count_miss _ _ E).
      apply IH. unfold ltof. simpl. lia.
Qed.

Lemma LF_not_backtick : LF <> BACKTICK.
Proof. discriminate. Qed.

Lemma endsWith_LF_snoc s : endsWith [LF] (s ++ [LF]) = true.
Proof. unfold endsWith. rewrite rev_app_distr. reflexivity. Qed.

Lemma postProcessMarkdown_fixed s :
  Nat.odd (fence_count s) = false -> endsWith [LF] s = true ->
  postProcessMarkdown s = s.
Proof.
  intros Hodd Hend. unfold postProcessMarkdown.
  rewrite Hodd, Hend. reflexivity.
Qed.

(** The text [postProcessMarkdown] returns has an even number of fences and
    ends with a line feed. *)
Lemma postProcessMarkdown_shape s :
  Nat.odd (fence_count (postProcessMarkdown s)) = false /\
  endsWith [LF] (postProcessMarkdown s) = true.
Proof.
  unfold postProcessMarkdown.
  destruct (Nat.odd (fence_count s)) eqn:Hodd.
  - assert (Hend : endsWith [LF] (s ++ LF :: lit "```") = false).
    { unfold endsWith. rewrite rev_app_distr. reflexivity. }
    rewrite Hend. simpl negb. cbv iota. split.
    + rewrite <- app_assoc. simpl app.
      rewrite (fence_count_app _ _ _ LF_not_backtick).
      replace (fence_count (lit "```" ++ [LF])) with 1%nat by reflexivity.
      rewrite Nat.add_1_r, Nat.odd_succ, <- Nat.negb_odd, Hodd. reflexivity.
    + apply endsWith_LF_snoc.
  - destruct (endsWith [LF] s) eqn:Hend; simpl negb; cbv iota.
    + split; assumption.
    + split; [|apply endsWith_LF_snoc].
      rewrite (fence_count_app _ _ _ LF_not_backtick), fence_count_nil.
      rewrite Nat.add_0_r. exact Hodd.
Qed.

(** C4. [postProcessMarkdown] is idempotent: applying it to its own result
    changes nothing; and a text that has an even number of triple-backtick
    fences and ends with a line feed is returned as it is. *)
Theorem postProcessMarkdown_idempotent :
  (forall x, postProcessMarkdown (postProcessMarkdown x) = postProcessMarkdown x) /\
  (forall x, Nat.even (fence_count x) = true -> endsWith [LF] x = true ->
             postProcessMarkdown x = x).
Proof.
  split.
  - intros x. destruct (postProcessMarkdown_shape x) as [Hodd Hend].
    apply postProcessMarkdown_fixed; assumption.
  - intros x Heven Hend. apply postProcessMarkdown_fixed; [|assumption].
    rewrite <- Nat.negb_even, Heven. reflexivity.
Qed.

Lemma postProcessMarkdown_idempotent_witness :
  postProcessMarkdown (postProcessMarkdown (lit "a ``` b")) =
    postProcessMarkdown (lit "a ``` b") /\
  postProcessMarkdown (lit "a ``` b ``` c" ++ [LF]) = lit "a ``` b ``` c" ++ [LF].
Proof.
  split.
  - apply (proj1 postProcessMarkdown_idempotent).
  - apply (proj2 postProcessMarkdown_idempotent); reflexivity.
Defined.

(** ** Splitting into frames *)

Ltac split_units :=
  repeat match goal with
  | |- context [N.eqb ?a ?b] => destruct (N.eqb_spec a b); subst
  | H : context [N.eqb ?a ?b] |- _ => destruct (N.eqb_spec a b); subst
  end.

Lemma match_newline_app s r t :
  match_newline s = Some r -> match_newline (s ++ t) = Some (r ++ t).
Proof.
  unfold match_newline, one_lf, opt_cr.
  destruct s as [|x [|y s]]; simpl; intros H; split_units;
    try discriminate; try congruence;
    injection H as <-; reflexivity.
Qed.

(** A separator found in a text is found, the same, when the text goes on. *)
Lemma match_blank_app s r t :
  match_blank s = Some r -> match_blank (s ++ t) = Some (r ++ t).
Proof.
  unfold match_blank.
  destruct (match_newline s) as [s1|] eqn:E; [|discriminate].
  intros H. rewrite (match_newline_app _ _ t E). apply match_newline_app, H.
Qed.

Lemma split_blank_from_hit cur s r :
  match_blank s = Some r ->
  split_blank_from cur s = cur :: split_blank_from [] r.
Proof. apply split_from_hit. Qed.

Lemma split_blank_from_nil cur : split_blank_from cur [] = [cur].
Proof. apply split_from_nil. Qed.

Lemma split_blank_from_miss cur c s :
  match_blank (c :: s) = None ->
  split_blank_from cur (c :: s) = split_blank_from (cur ++ [c]) s.
Proof. apply split_from_miss. Qed.

Lemma split_blank_from_not_nil cur s : split_blank_from cur s <> [].
Proof. apply split_from_not_nil. Qed.

(** When a separator begins at the head of [a] and ends beyond [a], no
    separator lies within [a]: the whole of [a] joins the current piece. *)
Lemma split_blank_straddle cur a b :
  match_blank a = None -> match_blank (a ++ b) <> None ->
  split_blank_from cur a = [cur ++ a].
Proof.
  intros Ha Hab.
  destruct a as [|x [|y [|z [|w a]]]].
  - rewrite split_blank_from_nil, app_nil_r. reflexivity.
  - rewrite (split_blank_from_miss _ _ _ Ha), split_blank_from_nil.
    reflexivity.
  - assert (H1 : match_blank [y] = None).
    { clear. unfold match_blank, match_newline, one_lf, opt_cr.
      split_units; reflexivity. }
    rewrite (split_blank_from_miss _ _ _ Ha), (split_blank_from_miss _ _ _ H1),
      split_blank_from_nil.
    rewrite <- app_assoc. reflexivity.
  - assert (H2 : match_blank [z] = None).
    { clear. unfold match_blank, match_newline, one_lf, opt_cr.
      split_units; reflexivity. }
    assert (H1 : match_blank [y; z] = None).
    { revert Ha Hab. unfold match_blank, match_newline, one_lf, opt_cr. simpl.
      destruct b as [|b0 b]; split_units;
        try reflexivity; try discriminate; try congruence. }
    rewrite (split_blank_from_miss _ _ _ Ha), (split_blank_from_miss _ _ _ H1),
      (split_blank_from_miss _ _ _ H2), split_blank_from_nil.
    rewrite <- !app_assoc. reflexivity.
  - exfalso. apply Hab. revert Ha. clear.
    unfold match_blank, match_newline, one_lf, opt_cr. simpl.
    split_units; try reflexivity; try discriminate; try congruence.
Qed.

Lemma removelast_cons_split cur s :
  removelast (cur :: split_blank_from [] s) =
  cur :: removelast (split_blank_from [] s).
Proof.
  pose proof (split_blank_from_not_nil [] s) as H.
  destruct (split_blank_from [] s); [contradiction|reflexivity].
Qed.

Lemma last_cons_split cur s d :
  last (cur :: split_blank_from [] s) d = last (split_blank_from [] s) d.
Proof.
  pose proof (split_blank_from_not_nil [] s) as H.
  destruct (split_blank_from [] s); [contradiction|reflexivity].
Qed.

Lemma last_app_nonempty {A} (l l' : list A) d :
  l' <> [] -> last (l ++ l') d = last l' d.
Proof.
  intros H. induction l as [|x l IH]; [reflexivity|].
  simpl app. destruct (l ++ l') eqn:E.
  - apply app_eq_nil in E. tauto.
  - rewrite <- IH. reflexivity.
Qed.

(** The scan of [a ++ b] from a state the scan of the whole text reaches
    (first hypothesis) is the scan of [a], whose last piece is put back in
    front of [b] and scanned again. *)
Lemma split_blank_resume a : forall cur b,
  split_blank_from [] (cur ++ a ++ b) = split_blank_from cur (a ++ b) ->
  split_blank_from cur (a ++ b) =
  removelast (split_blank_from cur a) ++
  split_blank_from [] (last (split_blank_from cur a) [] ++ b).
Proof.
  induction a as [a IH] using (induction_ltof1 _ (@length N)).
  intros cur b R.
  destruct (match_blank a) as [ra|] eqn:Ea.
  - rewrite (split_blank_from_hit _ _ _ (match_blank_app _ _ b Ea)).
    rewrite (split_blank_from_hit _ _ _ Ea).
    rewrite removelast_cons_split, last_cons_split. simpl. f_equal.
    apply IH; [|reflexivity].
    unfold ltof. eapply match_blank_length, Ea.
  - destruct (match_blank (a ++ b)) as [rab|] eqn:Eab.
    + rewrite (split_blank_straddle cur a b Ea) by congruence.
      simpl. rewrite <- app_assoc. symmetry. exact R.
    + destruct a as [|c a].
      * rewrite split_blank_from_nil. simpl. symmetry. exact R.
      * simpl app in *.
        rewrite (split_blank_from_miss _ _ _ Ea).
        rewrite (split_blank_from_miss _ _ _ Eab) in R |- *.
        apply IH; [unfold ltof; simpl; lia|].
        rewrite <- app_assoc. exact R.
Qed.

Lemma splitFrames_app a b :
  splitFrames (a ++ b) =
  (fst (splitFrames a) ++ fst (splitFrames (snd (splitFrames a) ++ b)),
   snd (splitFrames (snd (splitFrames a) ++ b))).
Proof.
  unfold splitFrames, split_blank. simpl fst. simpl snd.
  rewrite (split_blank_resume a [] b eq_refl).
  pose proof (split_blank_from_not_nil []
                (last (split_blank_from [] a) [] ++ b)) as H.
  rewrite removelast_app by exact H.
  rewrite last_app_nonempty by exact H. reflexivity.
Qed.

(** C6. Frame splitting does not depend on where the text is cut: splitting
    a first piece, putting the remainder in front of the second piece and
    splitting again gives the events, in order, and the remainder that
    splitting the whole text gives. *)
Theorem splitFrames_chunk_invariant (piece1 piece2 : jsstring) :
  let (events1, remainder1) := splitFrames piece1 in
  let (events2, remainder2) := splitFrames (remainder1 ++ piece2) in
  splitFrames (piece1 ++ piece2) = (events1 ++ events2, remainder2).
Proof.
  pose proof (splitFrames_app piece1 piece2) as H.
  destruct (splitFrames piece1) as [events1 remainder1]. cbn [fst snd] in H.
  destruct (splitFrames (remainder1 ++ piece2)) as [events2 remainder2].
  exact H.
Qed.

(** The same for any number of chunks, as the read loop feeds them. *)
Lemma feed_chunks_from s chunks :
  fold_left feed chunks (splitFrames s) = splitFrames (s ++ concat chunks).
Proof.
  revert s. induction chunks as [|c chunks IH]; intros s.
  - simpl. rewrite app_nil_r. reflexivity.
  - simpl. rewrite app_assoc, <- IH. f_equal.
    unfold feed. rewrite (splitFrames_app s c).
    destruct (splitFrames (snd (splitFrames s) ++ c)). reflexivity.
Qed.

Lemma feed_chunks chunks :
  fold_left feed chunks ([], []) = splitFrames (concat chunks).
Proof. apply (feed_chunks_from [] chunks). Qed.

(** ** Payload extraction *)

Lemma str_eqb_eq a b : str_eqb a b = true <-> a = b.
Proof.
  revert b. induction a as [|x a IH]; intros [|y b]; simpl; split; intros H;
    try reflexivity; try discriminate.
  - apply andb_true_iff in H as [H1 H2]. apply N.eqb_eq in H1. apply IH in H2.
    congruence.
  - injection H as -> ->. rewrite N.eqb_refl. apply IH. reflexivity.
Qed.

(** [parseSSELine] on a data line, by the cases of its payload. *)
Lemma parseSSELine_data line :
  startsWith (lit "data:") (trim line) = true ->
  parseSSELine line =
  let payload := payload_of line in
  if match payload with [] => true | _ :: _ => false end || is_sentinel payload
  then JString []
  else match JSON_parse payload with
       | None | Some JNull => JString payload
       | Some obj =>
           coalesce_value
             (opt_member (get obj (lit "delta")) (lit "content")
              ?? get obj (lit "delta")
              ?? get obj (lit "content") ?? get obj (lit "answer"))
             (JString [])
       end.
Proof.
  intros H. unfold parseSSELine. rewrite H. cbn [negb].
  unfold payload_of, is_sentinel. cbv zeta.
  set (payload := trim (slice_from 5 (trim line))).
  replace (negb (truthy (Some (JString payload))))
    with (match payload with [] => true | _ :: _ => false end)
    by (destruct payload; reflexivity).
  rewrite <- orb_assoc.
  destruct (_ || _); [reflexivity|].
  destruct (JSON_parse payload) as [[]|]; reflexivity.
Qed.

(** A text that parses as an object is neither empty nor the sentinel. *)
Lemma JSON_parse_object_payload payload members :
  JSON_parse payload = Some (JObject members) ->
  match payload with [] => true | _ :: _ => false end || is_sentinel payload
  = false.
Proof.
  intros H. destruct payload as [|c p]; [discriminate H|].
  cbn [orb]. unfold is_sentinel.
  destruct (str_eqb (c :: p) (lit "[DONE]")) eqn:E1.
  { apply str_eqb_eq in E1. rewrite E1 in H. vm_compute in H. discriminate. }
  destruct (str_eqb (c :: p) (lit "[done]")) eqn:E2.
  { apply str_eqb_eq in E2. rewrite E2 in H. vm_compute in H. discriminate. }
  reflexivity.
Qed.

Lemma parseSSELine_object line members :
  startsWith (lit "data:") (trim line) = true ->
  JSON_parse (payload_of line) = Some (JObject members) ->
  parseSSELine line = extract_by_priority members.
Proof.
  intros Hdata Hparse. rewrite (parseSSELine_data _ Hdata). cbv zeta.
  rewrite (JSON_parse_object_payload _ _ Hparse), Hparse.
  unfold extract_by_priority, nested_field, first_present, present. cbn [get].
  destruct (lookup_last (lit "delta") members) as [[| | | | |inner]|];
    cbn [opt_member get coalesce nullish negb coalesce_value];
    try reflexivity.
  - destruct (lookup_last (lit "content") members) as [[]|];
    destruct (lookup_last (lit "answer") members) as [[]|]; reflexivity.
  - destruct (lookup_last (lit "content") inner) as [[]|]; reflexivity.
  - destruct (lookup_last (lit "content") members) as [[]|];
    destruct (lookup_last (lit "answer") members) as [[]|]; reflexivity.
Qed.

Lemma parseSSELine_unparsed line :
  startsWith (lit "data:") (trim line) = true ->
  JSON_parse (payload_of line) = None ->
  is_sentinel (payload_of line) = false ->
  parseSSELine line = JString (payload_of line).
Proof.
  intros Hdata Hparse Hsent. rewrite (parseSSELine_data _ Hdata). cbv zeta.
  rewrite Hsent, Hparse. destruct (payload_of line); reflexivity.
Qed.

(** A text that parses as [null] is returned as text too: reading a property
    of [null] throws inside the [try] block. *)
Lemma parseSSELine_null line :
  startsWith (lit "data:") (trim line) = true ->
  JSON_parse (payload_of line) = Some JNull ->
  parseSSELine line = JString (payload_of line).
Proof.
  intros Hdata Hparse. rewrite (parseSSELine_data _ Hdata). cbv zeta.
  rewrite Hparse.
  destruct (_ || _) eqn:E; [|reflexivity].
  destruct (payload_of line) as [|c p]; [reflexivity|].
  cbn [orb] in E. unfold is_sentinel in E.
  apply orb_true_iff in E as [E|E]; apply str_eqb_eq in E;
    rewrite E in Hparse; vm_compute in Hparse; discriminate.
Qed.

(** What [parseSSELine] returns is never [undefined], and it is [null] only
    for a line that is not a data line. *)
Lemma parseSSELine_null_iff line :
  parseSSELine line = JNull <-> startsWith (lit "data:") (trim line) = false.
Proof.
  split.
  - destruct (startsWith (lit "data:") (trim line)) eqn:Hdata; [|reflexivity].
    rewrite (parseSSELine_data _ Hdata). cbv zeta.
    destruct (_ || _); [discriminate|].
    destruct (JSON_parse (payload_of line)) as [obj|]; [|discriminate].
    destruct obj; try discriminate;
      unfold coalesce_value;
      match goal with
      | |- match ?v with _ => _ end = _ -> _ => destruct v as [[]|]
      end; discriminate.
  - intros H. unfold parseSSELine. rewrite H. reflexivity.
Qed.

(** C2, as the source has it. On a data line whose payload is exactly
    [[DONE]] or exactly [[done]], [parseSSELine] returns the empty text. *)
Theorem parseSSELine_sentinel line :
  startsWith (lit "data:") (trim line) = true ->
  payload_of line = lit "[DONE]" \/ payload_of line = lit "[done]" ->
  parseSSELine line = JString [].
Proof.
  intros Hdata Hpay. rewrite (parseSSELine_data _ Hdata). cbv zeta.
  assert (Hs : is_sentinel (payload_of line) = true).
  { unfold is_sentinel. destruct Hpay as [-> | ->]; reflexivity. }
  rewrite Hs, orb_true_r. reflexivity.
Qed.

Lemma parseSSELine_sentinel_witness :
  parseSSELine (lit "data: [DONE]") = JString [] /\
  parseSSELine (lit "  data:[done]  ") = JString [].
Proof.
  split.
  - apply (parseSSELine_sentinel (lit "data: [DONE]")).
    + reflexivity.
    + left. reflexivity.
  - apply (parseSSELine_sentinel (lit "  data:[done]  ")).
    + reflexivity.
    + right. reflexivity.
Defined.

(** C2, as stated, fails. The payload [[Done]] equals the sentinel up to
    case, yet the line is not given the empty result: the payload does not
    parse as JSON and is returned as text. *)
Lemma parseSSELine_mixed_case_sentinel :
  startsWith (lit "data:") (trim (lit "data: [Done]")) = true /\
  toLowerCase (payload_of (lit "data: [Done]")) = toLowerCase (lit "[DONE]") /\
  parseSSELine (lit "data: [Done]") = JString (lit "[Done]") /\
  parseSSELine (lit "data: [Done]") <> JString [].
Proof.
  repeat split; try reflexivity.
  vm_compute. discriminate.
Qed.

(** C5. On a data line whose payload parses as an object, [parseSSELine]
    returns the first present field among the nested delta-content field, the
    delta field, the content field and the answer field, in that order (a
    field being present when it has a value other than [null]); on a data
    line whose payload does not parse, and is not the sentinel, it returns
    the payload itself as text. *)
Theorem parseSSELine_priority line :
  startsWith (lit "data:") (trim line) = true ->
  (forall members,
     JSON_parse (payload_of line) = Some (JObject members) ->
     parseSSELine line = extract_by_priority members) /\
  (JSON_parse (payload_of line) = None ->
   is_sentinel (payload_of line) = false ->
   parseSSELine line = JString (payload_of line)).
Proof.
  intros Hdata. split.
  - intros members. apply parseSSELine_object, Hdata.
  - apply parseSSELine_unparsed, Hdata.
Qed.

Lemma parseSSELine_priority_witness :
  parseSSELine
    (dq "data: {'answer':'d','content':'c','delta':{'content':'a'}}")
  = JString (lit "a") /\
  parseSSELine (dq "data: {'answer':'d','content':'c','delta':'b'}")
  = JString (lit "b") /\
  parseSSELine (dq "data: {'answer':'d','content':'c'}") = JString (lit "c") /\
  parseSSELine (dq "data: {'answer':'d'}") = JString (lit "d") /\
  parseSSELine (lit "data: Hel") = JString (lit "Hel").
Proof.
  split; [|split; [|split; [|split]]].
  - apply (proj1 (parseSSELine_priority
             (dq "data: {'answer':'d','content':'c','delta':{'content':'a'}}")
             eq_refl)
           [(lit "answer", JString (lit "d")); (lit "content", JString (lit "c"));
            (lit "delta", JObject [(lit "content", JString (lit "a"))])]).
    reflexivity.
  - apply (proj1 (parseSSELine_priority
             (dq "data: {'answer':'d','content':'c','delta':'b'}") eq_refl)
           [(lit "answer", JString (lit "d")); (lit "content", JString (lit "c"));
            (lit "delta", JString (lit "b"))]).
    reflexivity.
  - apply (proj1 (parseSSELine_priority
             (dq "data: {'answer':'d','content':'c'}") eq_refl)
           [(lit "answer", JString (lit "d")); (lit "content", JString (lit "c"))]).
    reflexivity.
  - apply (proj1 (parseSSELine_priority (dq "data: {'answer':'d'}") eq_refl)
           [(lit "answer", JString (lit "d"))]).
    reflexivity.
  - apply (proj2 (parseSSELine_priority (lit "data: Hel") eq_refl));
      reflexivity.
Defined.

(** A field whose value is [null] is passed over, as [??] passes over it;
    a field of another type is returned as it is, and the read loop appends
    its string form. *)
Example null_field_is_passed_over :
  parseSSELine (dq "data: {'content':null,'answer':'x'}") = JString (lit "x") /\
  parseSSELine (dq "data: {'content':5,'answer':'x'}") = JNumber (lit "5") /\
  consume_line 0 [{| role := assistant; content := lit "n=" |}]
    (dq "data: {'content':5,'answer':'x'}")
  = Some [{| role := assistant; content := lit "n=5" |}].
Proof. vm_compute. repeat split. Qed.

Lemma lookup_last_absent k ms :
  ~ In k (map fst ms) -> lookup_last k ms = undefined.
Proof.
  induction ms as [|[k' v] ms IH]; simpl; intros H; [reflexivity|].
  rewrite IH by tauto.
  destruct (str_eqb k k') eqn:E; [|reflexivity].
  apply str_eqb_eq in E. subst. tauto.
Qed.

(** C10. On a data line whose payload parses as an object that has none of
    the fields delta, content and answer (hence no nested delta-content
    field either), [parseSSELine] returns the empty text, and the read loop
    appends nothing for the line. *)
Theorem parseSSELine_no_recognized_field line members :
  startsWith (lit "data:") (trim line) = true ->
  JSON_parse (payload_of line) = Some (JObject members) ->
  (forall k, In k [lit "delta"; lit "content"; lit "answer"] ->
             ~ In k (map fst members)) ->
  parseSSELine line = JString [] /\
  forall idx msgs, consume_line idx msgs line = Some msgs.
Proof.
  intros Hdata Hparse Hnone.
  assert (E : parseSSELine line = JString []).
  { rewrite (parseSSELine_object _ _ Hdata Hparse).
    unfold extract_by_priority, nested_field.
    rewrite !lookup_last_absent by (apply Hnone; simpl; tauto).
    reflexivity. }
  split; [exact E|].
  intros idx msgs. unfold consume_line. rewrite E. reflexivity.
Qed.

Lemma parseSSELine_no_recognized_field_witness :
  parseSSELine (dq "data: {'id':'x1','done':false}") = JString [] /\
  forall idx msgs,
    consume_line idx msgs (dq "data: {'id':'x1','done':false}") = Some msgs.
Proof.
  apply (parseSSELine_no_recognized_field
           (dq "data: {'id':'x1','done':false}")
           [(lit "id", JString (lit "x1")); (lit "done", JBool false)]).
  - reflexivity.
  - reflexivity.
  - intros k Hk Hin. simpl in Hk, Hin.
    destruct Hk as [<-|[<-|[<-|[]]]];
      destruct Hin as [Hin|[Hin|[]]]; discriminate Hin.
Defined.

(** ** The history window *)

Lemma buildHistory_unfold opts msgs :
  buildHistory opts msgs =
  js_slice (- match opt_maxHistory opts with Some n => n | None => 10%Z end)
           (non_system msgs).
Proof. reflexivity. Qed.

(** No system message is in the window, whatever the maximum. *)
Lemma buildHistory_no_system opts msgs m :
  In m (buildHistory opts msgs) -> role m <> system.
Proof.
  rewrite buildHistory_unfold. unfold js_slice. intros H.
  assert (Hin : In m (non_system msgs)).
  { rewrite <- (firstn_skipn (Z.to_nat
      (if (- match opt_maxHistory opts with Some n => n | None => 10 end <? 0)%Z
       then Z.max (Z.of_nat (length (non_system msgs)) +
                   - match opt_maxHistory opts with Some n => n | None => 10 end) 0
       else Z.min (- match opt_maxHistory opts with Some n => n | None => 10 end)
                  (Z.of_nat (length (non_system msgs)))))
      (non_system msgs)).
    apply in_or_app. right. exact H. }
  apply filter_In in Hin as [_ Hrole].
  destruct (role m); [discriminate|discriminate|discriminate Hrole].
Qed.

(** For a maximum of at least one, the window is the last
    [min N (number of non-system messages)] non-system messages. *)
Lemma buildHistory_positive opts msgs :
  let N := match opt_maxHistory opts with Some n => n | None => 10%Z end in
  let hist := non_system msgs in
  (0 < N)%Z ->
  buildHistory opts msgs =
    skipn (length hist - Nat.min (Z.to_nat N) (length hist)) hist /\
  length (buildHistory opts msgs) = Nat.min (Z.to_nat N) (length hist).
Proof.
  intros N hist HN. rewrite buildHistory_unfold. fold N. fold hist.
  unfold js_slice.
  assert (Hneg : (- N <? 0)%Z = true) by (apply Z.ltb_lt; lia).
  rewrite Hneg.
  assert (Hk : Z.to_nat (Z.max (Z.of_nat (length hist) + - N) 0) =
               (length hist - Nat.min (Z.to_nat N) (length hist))%nat) by lia.
  rewrite Hk. split; [reflexivity|].
  rewrite length_skipn. lia.
Qed.

(** C7 fails for a maximum of zero: [hist.slice(-0)] is [hist.slice(0)], the
    whole list. With [maxHistory: 0] and two non-system messages the window
    holds both, where the last [min 0 2 = 0] messages are none. *)
Theorem buildHistory_zero_max_sends_all :
  buildHistory (options (Some 0%Z) None) two_messages = two_messages /\
  Nat.min 0 (length (non_system two_messages)) = 0%nat.
Proof. split; reflexivity. Qed.

Lemma buildHistory_zero_max opts msgs :
  opt_maxHistory opts = Some 0%Z -> buildHistory opts msgs = non_system msgs.
Proof.
  intros H. rewrite buildHistory_unfold, H. unfold js_slice.
  change (- 0 <? 0)%Z with false. cbv iota.
  rewrite Z.min_l by lia. reflexivity.
Qed.

(** ** Sending while a request is pending *)

(** C1 fails on the source: while a request is pending, [send] returns at
    its guard, before the line that aborts the previous request. The state
    is unchanged (no controller is aborted, no message is appended) and no
    request is issued. *)
Theorem send_begin_pending opts prompt s :
  pending s = true -> send_begin opts prompt s = (s, None).
Proof.
  intros H. unfold send_begin. rewrite H, orb_true_r. reflexivity.
Qed.

Lemma send_begin_pending_witness :
  pending (fst (send_begin (options None (Some true)) (lit "hello")
                  (useChat (options None (Some true))))) = true /\
  send_begin (options None (Some true)) (lit "again")
    (fst (send_begin (options None (Some true)) (lit "hello")
            (useChat (options None (Some true))))) =
  (fst (send_begin (options None (Some true)) (lit "hello")
          (useChat (options None (Some true)))), None).
Proof.
  split.
  - reflexivity.
  - apply (send_begin_pending (options None (Some true)) (lit "again")).
    reflexivity.
Defined.

(** The first request's controller is still not aborted after the second
    call, and the message list holds the first prompt only. *)
Lemma send_twice_state :
  let s1 := fst (send_begin (options None (Some true)) (lit "hello")
                   (useChat (options None (Some true)))) in
  let s2 := fst (send_begin (options None (Some true)) (lit "again") s1) in
  controllers s2 = [false] /\ abortCtrl s2 = Some 0%nat /\
  messages s2 = [{| role := user; content := lit "hello" |}] /\
  snd (send_begin (options None (Some true)) (lit "again") s1) = None.
Proof. repeat split. Qed.

(** When no request is pending, [send] does abort the controller of the
    previous request, create a new one, append the prompt and become pending. *)
Lemma send_begin_idle opts prompt s :
  pending s = false -> trim prompt <> [] ->
  exists req,
    send_begin opts prompt s =
    ({| messages := messages s ++ [{| role := user; content := prompt |}];
        pending := true;
        error := None;
        controllers := abort_current (abortCtrl s) (controllers s) ++ [false];
        abortCtrl := Some (length (abort_current (abortCtrl s) (controllers s))) |},
     Some req) /\
    req_prompt req = prompt /\
    req_history req = buildHistory opts (messages s) /\
    req_stream req = match opt_stream opts with Some b => b | None => false end.
Proof.
  intros Hp Ht. unfold send_begin. rewrite Hp.
  destruct (trim prompt) as [|c t]; [contradiction|].
  cbn [truthy negb orb].
  eexists. split; [reflexivity|]. repeat split.
Qed.

(** ** A backend error, from the backend to the session *)

Lemma handler_upstream_error config b upstream :
  truthy (option_map JString (openaiApiKey config)) = true ->
  resp_ok upstream = false ->
  handler config b (Fulfilled upstream) = Returned 500 (error_reply upstream).
Proof.
  intros Hkey Hok. unfold handler. rewrite Hkey, Hok. reflexivity.
Qed.

(** The message holds at most 200 code units of the server's text. *)
Lemma api_error_message_bounded status statusText serverMsg :
  (length (api_error_message status statusText serverMsg) <=
   length (lit "API " ++ dec status ++ lit " " ++ statusText) + 3 + 200)%nat.
Proof.
  unfold api_error_message.
  rewrite !app_assoc. rewrite <- !app_assoc.
  destruct serverMsg as [|c m].
  - rewrite !length_app. simpl. lia.
  - rewrite !length_app.
    pose proof (firstn_le_length 200 (c :: m)) as L.
    unfold substring0. simpl length in *. lia.
Qed.

(** C3, as the source has it. For a backend response without a success
    status the handler replies with status 500, whatever the backend's
    status, and an object holding the whole error text of the backend. The
    call of [send] ends not pending, with the user's prompt as the only new
    message. In streaming mode the session error is [API 500], the reason
    phrase, and the first 200 code units of the text of the reply; in
    non-streaming mode it is the message of the error [$fetch] rejects
    with. *)
Theorem upstream_error_session config t upstream opts prompt s :
  truthy (option_map JString (openaiApiKey config)) = true ->
  resp_ok upstream = false ->
  pending s = false ->
  trim prompt <> [] ->
  (forall b,
     handler config b (Fulfilled upstream) =
     Returned 500
       (JObject [(lit "error",
                  JString (lit "OpenAI error: " ++
                           match resp_text upstream with
                           | Fulfilled body => body
                           | Rejected _ => []
                           end))])) /\
  exists s',
    exchange config t (Fulfilled upstream) opts prompt s = Some s' /\
    messages s' = messages s ++ [{| role := user; content := prompt |}] /\
    pending s' = false /\
    (opt_stream opts = Some true ->
     error s' =
       Some (api_error_message 500 (reason_phrase t 500)
               (serialize t (error_reply upstream)))) /\
    (opt_stream opts <> Some true ->
     error s' =
       if match err_name (rejection t 500 (error_reply upstream)) with
          | Some n => str_eqb n (lit "AbortError")
          | None => false
          end
       then None
       else Some (match err_message (rejection t 500 (error_reply upstream)) with
                  | Some m => m
                  | None => lit "Unknown error"
                  end)).
Proof.
  intros Hkey Hok Hp Ht.
  split; [intros b; apply handler_upstream_error; assumption|].
  destruct (send_begin_idle opts prompt s Hp Ht)
    as (req & Hbegin & _ & _ & Hstream).
  unfold exchange. rewrite Hbegin.
  rewrite (handler_upstream_error _ _ _ Hkey Hok).
  rewrite Hstream.
  destruct (opt_stream opts) as [[|]|].
  - (* stream: true *)
    eexists. split; [reflexivity|].
    unfold send_end_stream, settle, try_stream, reply_response, resp_ok.
    cbn [resp_status resp_statusText resp_text messages pending error].
    change ((200 <=? 500) && (500 <=? 299)) with false. cbn [negb].
    split; [reflexivity|]. split; [reflexivity|]. split.
    + intros _. cbn [new_Error err_name err_message].
      change (str_eqb (lit "Error") (lit "AbortError")) with false.
      reflexivity.
    + intros H. contradiction H. reflexivity.
  - (* stream: false *)
    eexists. split; [reflexivity|].
    unfold send_end_plain, settle, try_plain, dollar_fetch.
    change ((200 <=? 500) && (500 <=? 299)) with false.
    cbn [messages pending error].
    split; [reflexivity|]. split; [reflexivity|]. split.
    + discriminate.
    + intros _. reflexivity.
  - (* stream not set *)
    eexists. split; [reflexivity|].
    unfold send_end_plain, settle, try_plain, dollar_fetch.
    change ((200 <=? 500) && (500 <=? 299)) with false.
    cbn [messages pending error].
    split; [reflexivity|]. split; [reflexivity|]. split.
    + discriminate.
    + intros _. reflexivity.
Qed.

Lemma upstream_error_session_witness :
  (forall b,
     handler sample_config b
       (Fulfilled (backend_response 500 "text/plain" (lit "quota exceeded"))) =
     Returned 500
       (JObject [(lit "error",
                  JString (lit "OpenAI error: " ++
                           match resp_text
                                   (backend_response 500 "text/plain"
                                      (lit "quota exceeded")) with
                           | Fulfilled body => body
                           | Rejected _ => []
                           end))])) /\
  exists s',
    exchange sample_config sample_transport
      (Fulfilled (backend_response 500 "text/plain" (lit "quota exceeded")))
      (options None (Some true)) (lit "hello")
      (useChat (options None (Some true))) = Some s' /\
    messages s' =
      messages (useChat (options None (Some true))) ++
      [{| role := user; content := lit "hello" |}] /\
    pending s' = false /\
    (opt_stream (options None (Some true)) = Some true ->
     error s' =
       Some (api_error_message 500 (reason_phrase sample_transport 500)
               (serialize sample_transport
                  (error_reply
                     (backend_response 500 "text/plain" (lit "quota exceeded")))))) /\
    (opt_stream (options None (Some true)) <> Some true ->
     error s' =
       if match err_name
                  (rejection sample_transport 500
                     (error_reply
                        (backend_response 500 "text/plain" (lit "quota exceeded"))))
          with
          | Some n => str_eqb n (lit "AbortError")
          | None => false
          end
       then None
       else Some (match err_message
                          (rejection sample_transport 500
                             (error_reply
                                (backend_response 500 "text/plain"
                                   (lit "quota exceeded")))) with
                  | Some m => m
                  | None => lit "Unknown error"
                  end)).
Proof.
  apply (upstream_error_session sample_config sample_transport
           (backend_response 500 "text/plain" (lit "quota exceeded"))
           (options None (Some true)) (lit "hello")
           (useChat (options None (Some true)))).
  - reflexivity.
  - reflexivity.
  - reflexivity.
  - vm_compute. discriminate.
Defined.

(** The scenario of the design document: the backend answers 500 with the
    body [quota exceeded]. Over a transport that sends compact JSON, the
    session error names the status 500 of the handler's reply and holds the
    body text; the prompt is the only message. *)
Lemma quota_exceeded_scenario :
  option_map (fun s => (messages s, pending s, error s))
    (exchange sample_config sample_transport
       (Fulfilled (backend_response 500 "text/plain" (lit "quota exceeded")))
       (options None (Some true)) (lit "hello")
       (useChat (options None (Some true)))) =
  Some ([{| role := user; content := lit "hello" |}], false,
        Some (lit "API 500 Internal Server Error - " ++
              dq "{'error':'OpenAI error: quota exceeded'}")).
Proof. vm_compute. reflexivity. Qed.

Lemma quota_exceeded_error_text :
  includes (lit "500")
    (lit "API 500 Internal Server Error - " ++
     dq "{'error':'OpenAI error: quota exceeded'}") = true /\
  includes (lit "quota exceeded")
    (lit "API 500 Internal Server Error - " ++
     dq "{'error':'OpenAI error: quota exceeded'}") = true.
Proof. split; vm_compute; reflexivity. Qed.

(** C3, as stated, fails. The backend answers 429; the session error is the
    same as for a backend that answers 500, and the backend's status is
    nowhere in it. *)
Lemma backend_status_not_surfaced :
  resp_ok (backend_response 429 "text/plain" (lit "quota exceeded")) = false /\
  option_map error
    (exchange sample_config sample_transport
       (Fulfilled (backend_response 429 "text/plain" (lit "quota exceeded")))
       (options None (Some true)) (lit "hello")
       (useChat (options None (Some true)))) =
  Some (Some (lit "API 500 Internal Server Error - " ++
              dq "{'error':'OpenAI error: quota exceeded'}")) /\
  includes (dec 429)
    (lit "API 500 Internal Server Error - " ++
     dq "{'error':'OpenAI error: quota exceeded'}") = false.
Proof. vm_compute. repeat split. Qed.

(** ** The non-streaming answer *)

Lemma handler_plain_hi_there config b upstream :
  truthy (option_map JString (openaiApiKey config)) = true ->
  resp_ok upstream = true ->
  wants_stream b = false ->
  resp_text upstream = Fulfilled hi_there_body ->
  handler config b (Fulfilled upstream) =
  Returned 200 (JObject [(lit "answer", JString (lit "hi there"))]).
Proof.
  intros Hkey Hok Hstream Htext. unfold handler.
  rewrite Hkey, Hok, Hstream, Htext. cbn [negb].
  replace (JSON_parse hi_there_body) with
    (Some (JObject [(lit "choices",
             JArray [JObject [(lit "message",
               JObject [(lit "content", JString (lit "hi there"))])]])]))
    by (vm_compute; reflexivity).
  reflexivity.
Qed.

(** C8. In non-streaming mode, when the backend returns the body
    [{"choices":[{"message":{"content":"hi there"}}]}] with a success status,
    a call of [send] from an idle session, with a prompt that is not blank,
    appends the prompt and exactly one assistant message, whose content is
    [hi there] followed by one line feed; the messages already there are left
    as they were, no error is recorded and the session is idle again. *)
Theorem plain_answer_session config t upstream opts prompt s :
  truthy (option_map JString (openaiApiKey config)) = true ->
  resp_ok upstream = true ->
  resp_text upstream = Fulfilled hi_there_body ->
  opt_stream opts <> Some true ->
  pending s = false ->
  trim prompt <> [] ->
  exists s',
    exchange config t (Fulfilled upstream) opts prompt s = Some s' /\
    messages s' =
      messages s ++
      [{| role := user; content := prompt |};
       {| role := assistant; content := lit "hi there" ++ [LF] |}] /\
    error s' = None /\
    pending s' = false.
Proof.
  intros Hkey Hok Htext Hopt Hp Ht.
  destruct (send_begin_idle opts prompt s Hp Ht)
    as (req & Hbegin & _ & _ & Hstream).
  assert (Hplain : req_stream req = false).
  { rewrite Hstream. destruct (opt_stream opts) as [[|]|];
      [contradiction Hopt|..]; reflexivity. }
  unfold exchange. rewrite Hbegin.
  rewrite (handler_plain_hi_there config (body_of_request req) upstream
             Hkey Hok); [|cbn; rewrite Hplain; reflexivity|exact Htext].
  rewrite Hplain.
  eexists. split; [reflexivity|].
  unfold send_end_plain, settle, dollar_fetch.
  change ((200 <=? 200) && (200 <=? 299)) with true. cbv iota.
  change (json_image (JObject [(lit "answer", JString (lit "hi there"))]))
    with (JObject [(lit "answer", JString (lit "hi there"))]).
  unfold try_plain.
  replace (opt_member (Some (JObject [(lit "answer", JString (lit "hi there"))]))
             (lit "error")) with undefined by (vm_compute; reflexivity).
  replace (opt_member (Some (JObject [(lit "answer", JString (lit "hi there"))]))
             (lit "answer")) with (Some (JString (lit "hi there")))
    by (vm_compute; reflexivity).
  cbn [truthy undefined coalesce_value messages pending error].
  replace (postProcessMarkdown (lit "hi there")) with (lit "hi there" ++ [LF])
    by (vm_compute; reflexivity).
  split; [|split; reflexivity].
  rewrite <- app_assoc. reflexivity.
Qed.

Lemma plain_answer_session_witness :
  exists s',
    exchange sample_config sample_transport
      (Fulfilled (backend_response 200 "application/json" hi_there_body))
      (options None None) (lit "hello") (useChat (options None None)) = Some s' /\
    messages s' =
      messages (useChat (options None None)) ++
      [{| role := user; content := lit "hello" |};
       {| role := assistant; content := lit "hi there" ++ [LF] |}] /\
    error s' = None /\
    pending s' = false.
Proof.
  apply (plain_answer_session sample_config sample_transport
           (backend_response 200 "application/json" hi_there_body)
           (options None None) (lit "hello") (useChat (options None None))).
  - reflexivity.
  - reflexivity.
  - reflexivity.
  - discriminate.
  - reflexivity.
  - vm_compute. discriminate.
Defined.

(** ** The streaming handler *)

Lemma match_blank_printable c s :
  printable c = true -> match_blank (c :: s) = None.
Proof.
  unfold printable. intros H%N.leb_le.
  unfold match_blank, match_newline, opt_cr, one_lf.
  destruct (N.eqb_spec c CR) as [->|_]; [unfold CR in H; lia|].
  destruct (N.eqb_spec c LF) as [->|_]; [unfold LF in H; lia|].
  reflexivity.
Qed.

(** A text without control characters, followed by a blank line, is one
    piece of the split. *)
Lemma split_blank_from_frame t : forall cur rest,
  forallb printable t = true ->
  split_blank_from cur (t ++ LF :: LF :: rest) =
  (cur ++ t) :: split_blank_from [] rest.
Proof.
  induction t as [|c t IH]; intros cur rest H.
  - rewrite app_nil_r. apply split_blank_from_hit. reflexivity.
  - cbn [forallb] in H. apply andb_true_iff in H as [Hc Ht].
    cbn [app]. rewrite (split_blank_from_miss _ _ _ (match_blank_printable _ _ Hc)).
    rewrite (IH _ _ Ht), <- app_assoc. reflexivity.
Qed.

(** The output of the handler on the JSON path, as the client's splitter
    sees it: three frames and nothing left over. The first is a comment, the
    second the one data frame, the third the sentinel. *)
Lemma bridge_stream_frames text :
  splitFrames
    (ping_frame ++
     data_frame (JSON_stringify (JObject [(lit "content", bridged_answer text)])) ++
     done_frame) =
  ([lit ": ping";
    lit "data: " ++
      JSON_stringify (JObject [(lit "content", bridged_answer text)]);
    lit "data: [DONE]"], []).
Proof.
  unfold splitFrames, split_blank, ping_frame, data_frame, done_frame.
  rewrite <- !app_assoc. cbn [app].
  set (j := JSON_stringify (JObject [(lit "content", bridged_answer text)])).
  assert (Hj : forallb printable (lit "data: " ++ j) = true).
  { rewrite forallb_app. unfold j.
    rewrite JSON_stringify_printable; [reflexivity|].
    cbn [number_texts_ok forallb snd].
    rewrite bridged_answer_texts_ok. reflexivity. }
  rewrite (split_blank_from_frame (lit ": ping") [] _ eq_refl).
  change (lit "data: " ++ j ++ LF :: LF :: lit "data: [DONE]" ++ [LF; LF])
    with (lit "data: " ++ (j ++ LF :: LF :: lit "data: [DONE]" ++ [LF; LF])).
  rewrite app_assoc.
  rewrite (split_blank_from_frame _ [] _ Hj).
  rewrite (split_blank_from_frame (lit "data: [DONE]") [] [] eq_refl).
  rewrite split_blank_from_nil. reflexivity.
Qed.

(** The answer the handler takes is the one the design document
    describes. *)
Lemma answer_of_first_choice data : answer_of data = first_choice_content data.
Proof.
  unfold answer_of, first_choice_content.
  destruct data as [| b | l | s | items | top]; try reflexivity.
  cbn [opt_member get].
  destruct (lookup_last (lit "choices") top)
    as [[| b | l | [|c s] | [|x items] | ms]|]; try reflexivity.
  - cbn [opt_first nth_error].
    destruct x as [| b | l | s | items' | ms]; try reflexivity.
    cbn [opt_member get].
    destruct (lookup_last (lit "message") ms) as [[]|]; reflexivity.
  - cbn [opt_first].
    destruct (lookup_last (lit "0") ms) as [[| b | l | s | items' | ms0]|];
      try reflexivity.
    cbn [opt_member get].
    destruct (lookup_last (lit "message") ms0) as [[]|]; reflexivity.
Qed.

Lemma bridged_answer_extracted text : bridged_answer text = extracted_answer text.
Proof.
  unfold bridged_answer, extracted_answer.
  destruct (JSON_parse text); [apply answer_of_first_choice|reflexivity].
Qed.

(** C9. In streaming mode, for a backend response with a success status,
    the first thing the handler writes is the keep-alive comment frame,
    whatever the content kind and the body of the response; and when the
    content kind names JSON and not an event stream, and there is a body, it
    writes after it exactly one data frame, then the sentinel frame, and
    ends the response. The data frame holds, as a content field, the answer
    extracted from the body: the content of the message of the first choice
    when the body parses (the empty text when there is none), the body itself
    when it does not. What the handler wrote splits into these three frames,
    with nothing left over. *)
Theorem handler_stream_output config b upstream :
  truthy (option_map JString (openaiApiKey config)) = true ->
  resp_ok upstream = true ->
  wants_stream b = true ->
  (exists rest,
     output (handler config b (Fulfilled upstream)) = Write ping_frame :: rest) /\
  (forall body text,
     includes (lit "text/event-stream") (content_kind upstream) = false ->
     includes (lit "application/json") (content_kind upstream) = true ->
     resp_body upstream = Some body ->
     resp_text upstream = Fulfilled text ->
     handler config b (Fulfilled upstream) =
     Streamed
       [Write ping_frame;
        Write (data_frame
                 (JSON_stringify
                    (JObject [(lit "content", extracted_answer text)])));
        Write done_frame;
        End] /\
     splitFrames
       (concat (written (output (handler config b (Fulfilled upstream))))) =
     ([lit ": ping";
       lit "data: " ++
         JSON_stringify (JObject [(lit "content", extracted_answer text)]);
       lit "data: [DONE]"], [])).
Proof.
  intros Hkey Hok Hstream. unfold handler.
  rewrite Hkey, Hok, Hstream. cbn [negb].
  fold (content_kind upstream). split.
  - destruct (includes (lit "text/event-stream") (content_kind upstream)).
    + destruct (resp_body upstream) as [body|]; [|eexists; reflexivity].
      destruct (ending body); eexists; reflexivity.
    + destruct (resp_body upstream) as [body|]; [|eexists; reflexivity].
      destruct (includes (lit "application/json") (content_kind upstream)).
      * destruct (resp_text upstream); eexists; reflexivity.
      * destruct (ending body); eexists; reflexivity.
  - intros body text Hsse Hjson Hbody Htext.
    rewrite Hsse, Hbody, Hjson, Htext. cbv zeta.
    rewrite <- (bridged_answer_extracted text). split; [reflexivity|].
    cbn [output written concat]. rewrite app_nil_r.
    apply bridge_stream_frames.
Qed.

Lemma handler_stream_output_witness :
  (exists rest,
     output (handler sample_config streaming_body
               (Fulfilled (backend_response 200 "application/json" hi_there_body)))
     = Write ping_frame :: rest) /\
  handler sample_config streaming_body
    (Fulfilled (backend_response 200 "application/json" hi_there_body)) =
  Streamed
    [Write (lit ": ping" ++ [LF; LF]);
     Write (dq "data: {'content':'hi there'}" ++ [LF; LF]);
     Write (lit "data: [DONE]" ++ [LF; LF]);
     End] /\
  splitFrames
    (concat (written (output (handler sample_config streaming_body
       (Fulfilled (backend_response 200 "application/json" hi_there_body))))))
  = ([lit ": ping"; dq "data: {'content':'hi there'}"; lit "data: [DONE]"], []).
Proof.
  split.
  - apply (proj1 (handler_stream_output sample_config streaming_body
                    (backend_response 200 "application/json" hi_there_body)
                    eq_refl eq_refl eq_refl)).
  - apply (proj2 (handler_stream_output sample_config streaming_body
                    (backend_response 200 "application/json" hi_there_body)
                    eq_refl eq_refl eq_refl)
             {| chunks := [hi_there_body]; ending := None |} hi_there_body);
      reflexivity.
Defined.

(** The frames of the witness, as text. *)
Lemma bridge_frames_hi_there :
  written (output (handler sample_config streaming_body
             (Fulfilled (backend_response 200 "application/json" hi_there_body))))
  = [lit ": ping" ++ [LF; LF];
     dq "data: {'content':'hi there'}" ++ [LF; LF];
     lit "data: [DONE]" ++ [LF; LF]].
Proof. vm_compute. reflexivity. Qed.

(** ** Scenarios of the design document *)

(** Streaming: the backend's event stream carries [Hel], [lo] and the
    sentinel, cut into chunks in the middle of a frame and of a separator.
    The assistant message ends as [Hello] and a line feed. *)
Example streaming_hello :
  option_map (fun s => (messages s, pending s, error s))
    (exchange sample_config sample_transport
       (Fulfilled
          {| resp_status := 200;
             resp_statusText := lit "OK";
             resp_contentType := Some (lit "text/event-stream");
             resp_body :=
               Some {| chunks := [lit "data: H"; lit "el" ++ [LF];
                                  LF :: lit "data: lo" ++ [LF; LF];
                                  lit "data: [DONE]" ++ [LF; LF]];
                       ending := None |};
             resp_text := Fulfilled [] |})
       (options None (Some true)) (lit "hello")
       (useChat (options None (Some true)))) =
  Some ([{| role := user; content := lit "hello" |};
         {| role := assistant; content := lit "Hello" ++ [LF] |}],
        false, None).
Proof. vm_compute. reflexivity. Qed.

(** A reset while the answer streams: what was streamed is discarded with
    the rest of the conversation, and no error is recorded. *)
Example reset_discards_partial_text :
  let s1 := fst (send_begin (options None (Some true)) (lit "hello")
                   (useChat (options None (Some true)))) in
  let s2 :=
    reset_while_reading (options None (Some true))
      {| resp_status := 200;
         resp_statusText := lit "OK";
         resp_contentType := Some (lit "text/event-stream; charset=utf-8");
         resp_body := Some {| chunks := []; ending := None |};
         resp_text := Fulfilled [] |}
      [lit "data: Hel" ++ [LF; LF]; lit "data: l"] s1 in
  messages s2 = [] /\ error s2 = None /\ pending s2 = false /\
  controllers s2 = [true].
Proof. vm_compute. repeat split. Qed.

(** A connection lost while the answer streams: the text appended so far
    stays as it is, not finalized, and the error is recorded. *)
Example lost_connection_keeps_partial_text :
  let s1 := fst (send_begin (options None (Some true)) (lit "hello")
                   (useChat (options None (Some true)))) in
  let s2 :=
    send_end_stream
      (Fulfilled
         {| resp_status := 200;
            resp_statusText := lit "OK";
            resp_contentType := Some (lit "text/event-stream; charset=utf-8");
            resp_body :=
              Some {| chunks := [lit "data: Hel" ++ [LF; LF]; lit "data: l"];
                      ending := Some (lit "network error") |};
            resp_text := Fulfilled [] |}) s1 in
  messages s2 = [{| role := user; content := lit "hello" |};
                 {| role := assistant; content := lit "Hel" |}] /\
  error s2 = Some (lit "network error") /\ pending s2 = false.
Proof. vm_compute. repeat split. Qed.

(** A payload without a text: the line throws, the text appended before it
    stays, and the error of the conversion is recorded. *)
Example payload_without_text :
  let s1 := fst (send_begin (options None (Some true)) (lit "hello")
                   (useChat (options None (Some true)))) in
  let s2 :=
    send_end_stream
      (Fulfilled
         {| resp_status := 200;
            resp_statusText := lit "OK";
            resp_contentType := Some (lit "text/event-stream");
            resp_body :=
              Some {| chunks := [dq "data: {'content':1e3}" ++ [LF; LF];
                                 dq "data: {'delta':{'toString':1}}" ++ [LF; LF];
                                 lit "data: lost" ++ [LF; LF]];
                      ending := None |};
            resp_text := Fulfilled [] |}) s1 in
  messages s2 = [{| role := user; content := lit "hello" |};
                 {| role := assistant; content := lit "1000" |}] /\
  error s2 = Some (lit "Cannot convert object to primitive value") /\
  pending s2 = false.
Proof. vm_compute. repeat split. Qed.

(** [reset] aborts the controller of the request in flight. *)
Example reset_aborts :
  let s1 := fst (send_begin (options None (Some true)) (lit "hello")
                   (useChat (options None (Some true)))) in
  controllers (reset (options None (Some true)) s1) = [true] /\
  messages (reset (options None (Some true)) s1) = [].
Proof. vm_compute. repeat split. Qed.

(** * Further properties of the code *)

(** ** The slot of the streaming answer *)

Lemma set_at_last {A} (l : list A) (x y : A) :
  set_at (length l) y (l ++ [x]) = l ++ [y].
Proof. induction l as [|a l IH]; simpl; [reflexivity|]. rewrite IH. reflexivity. Qed.

Lemma nth_error_last {A} (l : list A) (x : A) :
  nth_error (l ++ [x]) (length l) = Some x.
Proof. induction l as [|a l IH]; simpl; [reflexivity|exact IH]. Qed.

Lemma set_at_twice {A} i (x : A) l : set_at i x (set_at i x l) = set_at i x l.
Proof.
  revert i. induction l as [|a l IH]; intros [|i]; simpl; try reflexivity.
  rewrite IH. reflexivity.
Qed.

Lemma set_at_length {A} i (x : A) l : length (set_at i x l) = length l.
Proof.
  revert i. induction l as [|a l IH]; intros [|i]; simpl; try reflexivity.
  rewrite IH. reflexivity.
Qed.

Lemma nth_error_set_at {A} i (x : A) l :
  (i < length l)%nat -> nth_error (set_at i x l) i = Some x.
Proof.
  revert i. induction l as [|a l IH]; intros [|i] H; simpl in *; try lia.
  - reflexivity.
  - apply IH. lia.
Qed.

Lemma nth_error_set_at_other {A} i j (x : A) l :
  i <> j -> nth_error (set_at i x l) j = nth_error l j.
Proof.
  revert i j. induction l as [|a l IH]; intros [|i] [|j] H; simpl;
    try reflexivity; try congruence.
  apply IH. congruence.
Qed.

(** The slot with [text] added to its content. *)
Lemma slot_unchanged (m : ChatMessage) :
  {| role := role m; content := content m ++ [] |} = m.
Proof. destruct m as [r c]. cbn [role content]. rewrite app_nil_r. reflexivity. Qed.

Lemma appendToMessage_slot msgs m chunk :
  appendToMessage (length msgs) chunk (msgs ++ [m]) =
  option_map
    (fun text => msgs ++ [{| role := role m; content := content m ++ text |}])
    (js_to_string chunk).
Proof.
  unfold appendToMessage. rewrite nth_error_last.
  destruct (js_to_string chunk); cbn [option_map]; [|reflexivity].
  rewrite set_at_last. reflexivity.
Qed.

Lemma consume_line_slot msgs m line :
  consume_line (length msgs) (msgs ++ [m]) line =
  option_map
    (fun text => msgs ++ [{| role := role m; content := content m ++ text |}])
    (line_text line).
Proof.
  unfold consume_line, line_text.
  destruct (parseSSELine line) as [| b | l | [|c t] | items | ms];
    try apply appendToMessage_slot;
    cbn [js_to_string option_map]; rewrite slot_unchanged; reflexivity.
Qed.

Lemma consume_lines_slot lines : forall msgs m,
  consume_lines (length msgs) (msgs ++ [m]) lines =
  (msgs ++ [{| role := role m;
               content :=
                 content m ++ fst (texts_until (map line_text lines)) |}],
   thrown_if (snd (texts_until (map line_text lines)))).
Proof.
  induction lines as [|l lines IH]; intros msgs m;
    cbn [consume_lines map texts_until].
  - cbn [fst snd thrown_if]. rewrite slot_unchanged. reflexivity.
  - rewrite consume_line_slot. destruct (line_text l) as [t|]; cbn [option_map].
    + rewrite IH. cbn [role content].
      destruct (texts_until (map line_text lines)) as [u threw].
      cbn [fst snd]. rewrite app_assoc. reflexivity.
    + cbn [fst snd thrown_if]. rewrite slot_unchanged. reflexivity.
Qed.

Lemma texts_until_app a b :
  texts_until (a ++ b) =
  if snd (texts_until a) then texts_until a
  else (fst (texts_until a) ++ fst (texts_until b), snd (texts_until b)).
Proof.
  induction a as [|[t|] a IH]; cbn [app texts_until].
  - destruct (texts_until b). reflexivity.
  - rewrite IH. destruct (texts_until a) as [u [|]]; cbn [fst snd];
      [reflexivity|]. rewrite app_assoc. reflexivity.
  - reflexivity.
Qed.

Lemma consume_events_slot events : forall msgs m,
  consume_events (length msgs) (msgs ++ [m]) events =
  (msgs ++
   [{| role := role m;
       content :=
         content m ++
         fst (texts_until (map line_text (flat_map split_lines events))) |}],
   thrown_if
     (snd (texts_until (map line_text (flat_map split_lines events))))).
Proof.
  induction events as [|e events IH]; intros msgs m;
    cbn [consume_events flat_map].
  - cbn [map texts_until fst snd thrown_if]. rewrite slot_unchanged. reflexivity.
  - unfold consume_event. rewrite consume_lines_slot, map_app, texts_until_app.
    destruct (texts_until (map line_text (split_lines e))) as [u [|]];
      cbn [fst snd thrown_if]; [reflexivity|].
    rewrite IH. cbn [role content]. rewrite app_assoc. reflexivity.
Qed.

(** X9. [appendToMessage] touches the message at the index and no other.
    With an index beyond the list it changes nothing, whatever the chunk.
    Otherwise, when the chunk has a text, the list keeps its length and the
    message keeps its role and gains that text at the end of its content;
    when it has none, the call throws and nothing is changed. *)
Theorem appendToMessage_only_index index chunk msgs :
  (nth_error msgs index = None ->
   appendToMessage index chunk msgs = Some msgs) /\
  (forall m, nth_error msgs index = Some m -> js_to_string chunk = None ->
     appendToMessage index chunk msgs = None) /\
  (forall m text,
     nth_error msgs index = Some m -> js_to_string chunk = Some text ->
     exists msgs',
       appendToMessage index chunk msgs = Some msgs' /\
       length msgs' = length msgs /\
       nth_error msgs' index =
         Some {| role := role m; content := content m ++ text |} /\
       forall j, j <> index -> nth_error msgs' j = nth_error msgs j).
Proof.
  unfold appendToMessage. split; [|split].
  - intros ->. reflexivity.
  - intros m -> ->. reflexivity.
  - intros m text Hm ->. rewrite Hm. eexists. split; [reflexivity|].
    split; [apply set_at_length|]. split.
    + apply nth_error_set_at. apply nth_error_Some. congruence.
    + intros j Hj. apply nth_error_set_at_other. congruence.
Qed.

Lemma appendToMessage_only_index_witness :
  (exists msgs',
     appendToMessage 1 (JArray [JNumber (lit "1000"); JNull; JBool true])
       two_messages = Some msgs' /\
     length msgs' = length two_messages /\
     nth_error msgs' 1 =
       Some {| role := assistant; content := lit "b" ++ lit "1000,,true" |} /\
     forall j, j <> 1%nat -> nth_error msgs' j = nth_error two_messages j) /\
  appendToMessage 1 (JObject [(lit "toString", JNumber (lit "1"))])
    two_messages = None /\
  appendToMessage 2 (JObject [(lit "toString", JNumber (lit "1"))])
    two_messages = Some two_messages.
Proof.
  split; [|split].
  - apply (proj2 (proj2
             (appendToMessage_only_index 1
                (JArray [JNumber (lit "1000"); JNull; JBool true]) two_messages))
             {| role := assistant; content := lit "b" |} (lit "1000,,true")).
    + reflexivity.
    + reflexivity.
  - apply (proj1 (proj2
             (appendToMessage_only_index 1
                (JObject [(lit "toString", JNumber (lit "1"))]) two_messages))
             {| role := assistant; content := lit "b" |}).
    + reflexivity.
    + reflexivity.
  - apply (proj1 (appendToMessage_only_index 2
                    (JObject [(lit "toString", JNumber (lit "1"))])
                    two_messages)).
    reflexivity.
Defined.

(** ** The read loop *)

Lemma stream_lines_app s c :
  stream_lines (s ++ c) =
  stream_lines s ++ stream_lines (snd (splitFrames s) ++ c).
Proof.
  unfold stream_lines. rewrite (splitFrames_app s c). cbn [fst].
  apply flat_map_app.
Qed.

Lemma read_chunk_event_stream ct msgs r c0 s chunk :
  is_event_stream ct = true ->
  read_chunk ct (length msgs) (reading_of msgs r c0 s) chunk =
  reading_of msgs r c0 (s ++ chunk).
Proof.
  intros Hct. unfold reading_of, stream_text.
  rewrite (stream_lines_app s chunk), map_app, texts_until_app.
  destruct (texts_until (map line_text (stream_lines s))) as [u [|]];
    cbn [fst snd]; [reflexivity|].
  unfold read_chunk. unfold is_event_stream in Hct. rewrite Hct.
  rewrite (splitFrames_app s chunk). cbn [snd].
  destruct (splitFrames (snd (splitFrames s) ++ chunk)) as [events rest] eqn:E.
  rewrite consume_events_slot. cbn [role content snd].
  unfold stream_lines. rewrite E. cbn [fst].
  destruct (texts_until (map line_text (flat_map split_lines events)))
    as [v [|]]; cbn [fst snd thrown_if]; rewrite <- app_assoc; reflexivity.
Qed.

(** The read loop on an event stream: after any chunks, the state is that
    of the whole text received so far. *)
Lemma read_chunks_event_stream ct cs : forall msgs r c0 s,
  is_event_stream ct = true ->
  fold_left (read_chunk ct (length msgs)) cs (reading_of msgs r c0 s) =
  reading_of msgs r c0 (s ++ concat cs).
Proof.
  induction cs as [|c cs IH]; intros msgs r c0 s Hct.
  - cbn [fold_left concat]. rewrite app_nil_r. reflexivity.
  - cbn [fold_left concat]. rewrite (read_chunk_event_stream _ _ _ _ _ _ Hct).
    rewrite IH by exact Hct. rewrite app_assoc. reflexivity.
Qed.

Lemma reading_of_nil msgs r :
  reading_of msgs r [] [] = Going [] (msgs ++ [{| role := r; content := [] |}]).
Proof. reflexivity. Qed.

(** X1. Chunk boundaries do not matter to the read loop. On an event stream,
    two ways of cutting the same text into chunks leave the loop in the same
    state, whatever the text: the same buffer and the same message list, or
    the same error thrown at the same line with the same message list. This
    is the loop as a whole, with its parsing and appending, and not only the
    splitting into frames. *)
Theorem read_loop_chunk_invariant ct msgs cs cs' :
  is_event_stream ct = true ->
  concat cs = concat cs' ->
  fold_left (read_chunk ct (length msgs)) cs
    (Going [] (msgs ++ [{| role := assistant; content := [] |}])) =
  fold_left (read_chunk ct (length msgs)) cs'
    (Going [] (msgs ++ [{| role := assistant; content := [] |}])).
Proof.
  intros Hct Heq. rewrite <- (reading_of_nil msgs assistant).
  rewrite !read_chunks_event_stream by exact Hct. rewrite Heq. reflexivity.
Qed.

Lemma read_loop_chunk_invariant_witness :
  fold_left (read_chunk (Some (lit "text/event-stream")) 0)
    [lit "data: He"; lit "llo" ++ [LF]; [LF]]
    (Going [] [{| role := assistant; content := [] |}]) =
  fold_left (read_chunk (Some (lit "text/event-stream")) 0)
    [lit "data: Hello" ++ [LF; LF]]
    (Going [] [{| role := assistant; content := [] |}]).
Proof.
  apply (read_loop_chunk_invariant (Some (lit "text/event-stream")) []
           [lit "data: He"; lit "llo" ++ [LF]; [LF]]
           [lit "data: Hello" ++ [LF; LF]]).
  - reflexivity.
  - reflexivity.
Defined.

(** The read loop on another content kind appends every chunk as it is. *)
Lemma read_chunks_plain ct cs : forall msgs m buffered,
  is_event_stream ct = false ->
  fold_left (read_chunk ct (length msgs)) cs (Going buffered (msgs ++ [m])) =
  Going (match cs with [] => buffered | _ :: _ => [] end)
        (msgs ++ [{| role := role m; content := content m ++ concat cs |}]).
Proof.
  induction cs as [|c cs IH]; intros msgs m buffered Hct.
  - cbn [fold_left concat]. rewrite slot_unchanged. reflexivity.
  - cbn [fold_left concat]. unfold read_chunk at 2.
    unfold is_event_stream in Hct. rewrite Hct.
    rewrite appendToMessage_slot. cbn [js_to_string option_map].
    rewrite IH by exact Hct. cbn [role content].
    rewrite <- app_assoc. destruct cs; reflexivity.
Qed.

Lemma slot_index {A} (l : list A) (x : A) :
  (length (l ++ [x]) - 1)%nat = length l.
Proof. rewrite length_app. simpl. lia. Qed.

Lemma finalize_at_slot msgs m :
  finalize_at (length msgs) (msgs ++ [m]) =
  msgs ++ [{| role := role m; content := postProcessMarkdown (content m) |}].
Proof.
  unfold finalize_at. rewrite nth_error_last. apply set_at_last.
Qed.

(** What the [try] block of the streaming branch leaves for a response with
    a success status and a body: the slot holds the text appended, finalized
    when the reading ends without an error and as it is otherwise. *)
Lemma try_stream_body resp body msgs :
  resp_ok resp = true ->
  resp_body resp = Some body ->
  try_stream (Fulfilled resp) msgs =
  let text := fst (body_text (resp_contentType resp) (chunks body)) in
  if snd (body_text (resp_contentType resp) (chunks body))
  then (msgs ++ [{| role := assistant; content := text |}], Some not_primitive)
  else
    match ending body with
    | Some message =>
        (msgs ++ [{| role := assistant; content := text |}],
         Some (read_error message))
    | None =>
        (msgs ++ [{| role := assistant; content := postProcessMarkdown text |}],
         None)
    end.
Proof.
  intros Hok Hbody. unfold try_stream. rewrite Hok, Hbody. cbn [negb].
  rewrite slot_index. cbv zeta. unfold body_text.
  destruct (is_event_stream (resp_contentType resp)) eqn:Hct.
  - rewrite <- (reading_of_nil msgs assistant).
    rewrite (read_chunks_event_stream _ _ _ _ _ _ Hct). cbn [app].
    unfold reading_of. cbn [app].
    destruct (snd (stream_text (concat (chunks body)))); [reflexivity|].
    destruct (ending body); [reflexivity|].
    rewrite finalize_at_slot. reflexivity.
  - rewrite (read_chunks_plain _ _ _ _ _ Hct). cbn [role content app fst snd].
    destruct (ending body); [reflexivity|].
    rewrite finalize_at_slot. reflexivity.
Qed.

Lemma try_stream_no_body resp msgs :
  resp_ok resp = true ->
  resp_body resp = None ->
  try_stream (Fulfilled resp) msgs =
  match resp_text resp with
  | Fulfilled t =>
      (msgs ++ [{| role := assistant; content := postProcessMarkdown t |}], None)
  | Rejected e => (msgs ++ [{| role := assistant; content := [] |}], Some e)
  end.
Proof.
  intros Hok Hbody. unfold try_stream. rewrite Hok, Hbody. cbn [negb].
  rewrite slot_index.
  destruct (resp_text resp); [|reflexivity].
  rewrite appendToMessage_slot. reflexivity.
Qed.

(** X2. When the response is no event stream, the streaming branch shows
    the body as it is: the assistant message is the finalized concatenation
    of the chunks, however the body was cut into chunks, and the finalized
    text of the response when it has no body to read. *)
Theorem stream_without_events resp s :
  resp_ok resp = true ->
  is_event_stream (resp_contentType resp) = false ->
  (forall cs,
     resp_body resp = Some {| chunks := cs; ending := None |} ->
     messages (send_end_stream (Fulfilled resp) s) =
       messages s ++
       [{| role := assistant; content := postProcessMarkdown (concat cs) |}] /\
     error (send_end_stream (Fulfilled resp) s) = error s) /\
  (forall t,
     resp_body resp = None -> resp_text resp = Fulfilled t ->
     messages (send_end_stream (Fulfilled resp) s) =
       messages s ++
       [{| role := assistant; content := postProcessMarkdown t |}] /\
     error (send_end_stream (Fulfilled resp) s) = error s).
Proof.
  intros Hok Hct. split.
  - intros cs Hbody. unfold send_end_stream.
    rewrite (try_stream_body _ _ _ Hok Hbody). unfold body_text. rewrite Hct.
    cbn [ending chunks fst snd]. split; reflexivity.
  - intros t Hbody Htext. unfold send_end_stream.
    rewrite (try_stream_no_body _ _ Hok Hbody), Htext. split; reflexivity.
Qed.

Lemma stream_without_events_witness :
  messages (send_end_stream
              (Fulfilled (chunked_response "text/plain"
                            [lit "Hel"; lit "lo"] None))
              talked_session) =
    messages talked_session ++
    [{| role := assistant;
        content := postProcessMarkdown (concat [lit "Hel"; lit "lo"]) |}] /\
  error (send_end_stream
           (Fulfilled (chunked_response "text/plain" [lit "Hel"; lit "lo"] None))
           talked_session) = error talked_session.
Proof.
  apply (proj1 (stream_without_events
                  (chunked_response "text/plain" [lit "Hel"; lit "lo"] None)
                  talked_session eq_refl eq_refl)
           [lit "Hel"; lit "lo"]).
  reflexivity.
Defined.

(** ** What a call of [send] leaves of the state *)

Lemma try_stream_tail r msgs :
  exists tail,
    fst (try_stream r msgs) = msgs ++ tail /\
    (tail = [] \/ exists c, tail = [{| role := assistant; content := c |}]).
Proof.
  destruct r as [resp|e].
  - destruct (resp_ok resp) eqn:Hok.
    + destruct (resp_body resp) as [body|] eqn:Hbody.
      * rewrite (try_stream_body _ _ _ Hok Hbody). cbv zeta.
        destruct (snd (body_text _ _)); [|destruct (ending body)];
          eexists; (split; [reflexivity|]); right; eexists; reflexivity.
      * rewrite (try_stream_no_body _ _ Hok Hbody).
        destruct (resp_text resp); eexists; (split; [reflexivity|]); right;
          eexists; reflexivity.
    + exists []. unfold try_stream. rewrite Hok. cbn [negb fst].
      rewrite app_nil_r. auto.
  - exists []. cbn. rewrite app_nil_r. auto.
Qed.

Lemma try_plain_tail r msgs :
  exists tail,
    fst (try_plain r msgs) = msgs ++ tail /\
    (tail = [] \/ exists c, tail = [{| role := assistant; content := c |}]).
Proof.
  destruct r as [resp|e].
  - unfold try_plain.
    destruct (truthy (opt_member resp (lit "error"))).
    + exists []. cbn [fst]. rewrite app_nil_r. auto.
    + destruct (coalesce_value (opt_member resp (lit "answer")) (JString []));
        try (exists []; cbn [fst]; rewrite app_nil_r; auto; fail).
      eexists. split; [reflexivity|]. right. eexists. reflexivity.
  - exists []. cbn. rewrite app_nil_r. auto.
Qed.

Lemma settle_messages s r : messages (settle s r) = fst r.
Proof. destruct r. reflexivity. Qed.

Lemma settle_pending s r : pending (settle s r) = false.
Proof. destruct r. reflexivity. Qed.

Lemma send_begin_messages opts prompt s s1 req :
  send_begin opts prompt s = (s1, Some req) ->
  messages s1 = messages s ++ [{| role := user; content := prompt |}].
Proof.
  unfold send_begin. destruct (negb _ || pending s); [discriminate|].
  intros [= <- _]. reflexivity.
Qed.

(** X3. Whatever the response, a call of [send] that issues a request leaves
    the earlier messages as they were and in place: the list it leaves is
    the list it found, the prompt, and at most one assistant message; and the
    session is idle again. This holds in both modes, for every way the
    request can settle. *)
Theorem send_keeps_earlier_messages opts prompt s req s1 :
  send_begin opts prompt s = (s1, Some req) ->
  (forall r, exists tail,
     messages (send_end_stream r s1) =
       messages s ++ {| role := user; content := prompt |} :: tail /\
     (tail = [] \/ exists c, tail = [{| role := assistant; content := c |}]) /\
     pending (send_end_stream r s1) = false) /\
  (forall r, exists tail,
     messages (send_end_plain r s1) =
       messages s ++ {| role := user; content := prompt |} :: tail /\
     (tail = [] \/ exists c, tail = [{| role := assistant; content := c |}]) /\
     pending (send_end_plain r s1) = false).
Proof.
  intros Hbegin. pose proof (send_begin_messages _ _ _ _ _ Hbegin) as Hm.
  split; intros r.
  - destruct (try_stream_tail r (messages s1)) as (tail & E & Ht).
    exists tail. unfold send_end_stream.
    rewrite settle_messages, settle_pending, E, Hm, <- app_assoc. auto.
  - destruct (try_plain_tail r (messages s1)) as (tail & E & Ht).
    exists tail. unfold send_end_plain.
    rewrite settle_messages, settle_pending, E, Hm, <- app_assoc. auto.
Qed.

Lemma send_keeps_earlier_messages_witness :
  exists tail,
    messages (send_end_stream (Rejected network_error)
                (fst (send_begin (options None (Some true)) (lit "hello")
                        talked_session))) =
      messages talked_session ++
      {| role := user; content := lit "hello" |} :: tail /\
    (tail = [] \/ exists c, tail = [{| role := assistant; content := c |}]) /\
    pending (send_end_stream (Rejected network_error)
               (fst (send_begin (options None (Some true)) (lit "hello")
                       talked_session))) = false.
Proof.
  apply (proj1 (send_keeps_earlier_messages (options None (Some true))
                  (lit "hello") talked_session _ _ eq_refl)
           (Rejected network_error)).
Defined.

(** X4. An aborted request is not an error. When the request is rejected
    with an [AbortError] the session only stops pending, and the error field
    is left as it was. The client aborts a request from [reset] only; when
    [reset] is called while the body is read, whatever has been read, the
    session ends with the message list of a new instance, no error, and not
    pending: what was streamed is discarded, not kept. *)
Theorem abort_is_silent e s :
  is_abort e = true ->
  send_end_stream (Rejected e) s =
    {| messages := messages s; pending := false; error := error s;
       controllers := controllers s; abortCtrl := abortCtrl s |} /\
  send_end_plain (Rejected e) s =
    {| messages := messages s; pending := false; error := error s;
       controllers := controllers s; abortCtrl := abortCtrl s |} /\
  (forall opts resp cs,
     reset_while_reading opts resp cs s =
     {| messages := messages (useChat opts); pending := false; error := None;
        controllers := abort_current (abortCtrl s) (controllers s);
        abortCtrl := abortCtrl s |}).
Proof.
  intros Ha. unfold is_abort in Ha.
  split; [|split].
  - unfold send_end_stream, settle. cbn [try_stream]. rewrite Ha. reflexivity.
  - unfold send_end_plain, settle. cbn [try_plain]. rewrite Ha. reflexivity.
  - intros opts resp cs. unfold reset_while_reading. cbv zeta.
    destruct (fold_left _ cs _) as [buffered msgs'|msgs' e']; reflexivity.
Qed.

Lemma abort_is_silent_witness :
  send_end_stream (Rejected abort_error) talked_session =
    {| messages := messages talked_session; pending := false;
       error := error talked_session;
       controllers := controllers talked_session;
       abortCtrl := abortCtrl talked_session |} /\
  reset_while_reading (options None (Some true))
    (chunked_response "text/event-stream" [] None)
    [lit "data: Hel" ++ [LF; LF]; lit "data: l"]
    (fst (send_begin (options None (Some true)) (lit "hello") talked_session)) =
    {| messages := []; pending := false; error := None;
       controllers := [true; true]; abortCtrl := Some 1%nat |}.
Proof.
  split.
  - apply (proj1 (abort_is_silent abort_error talked_session eq_refl)).
  - apply (proj2 (proj2 (abort_is_silent abort_error
             (fst (send_begin (options None (Some true)) (lit "hello")
                     talked_session))
             eq_refl))
             (options None (Some true))
             (chunked_response "text/event-stream" [] None)
             [lit "data: Hel" ++ [LF; LF]; lit "data: l"]).
Defined.

(** X5. Any other failure is recorded, and what was appended before it
    stays. When the request is rejected, the error field takes the message of
    the error, or [Unknown error] when it has none, and the prompt stays in
    the list. When the connection is lost while the body is read, the error
    field takes the message of that failure, and the text appended so far
    stays in the slot, not finalized; when a line had thrown before, it is
    the error of that line that is recorded, with the text appended before
    the line. *)
Theorem failure_is_recorded e s :
  is_abort e = false ->
  send_end_stream (Rejected e) s =
    {| messages := messages s; pending := false;
       error := Some (message_of e);
       controllers := controllers s; abortCtrl := abortCtrl s |} /\
  send_end_plain (Rejected e) s =
    {| messages := messages s; pending := false;
       error := Some (message_of e);
       controllers := controllers s; abortCtrl := abortCtrl s |} /\
  (forall resp cs message,
     resp_ok resp = true ->
     resp_body resp = Some {| chunks := cs; ending := Some message |} ->
     send_end_stream (Fulfilled resp) s =
     {| messages :=
          messages s ++
          [{| role := assistant;
              content := fst (body_text (resp_contentType resp) cs) |}];
        pending := false;
        error :=
          Some (if snd (body_text (resp_contentType resp) cs)
                then message_of not_primitive
                else message);
        controllers := controllers s; abortCtrl := abortCtrl s |}).
Proof.
  intros Ha. unfold is_abort in Ha. split; [|split].
  - unfold send_end_stream, settle. cbn [try_stream]. rewrite Ha. reflexivity.
  - unfold send_end_plain, settle. cbn [try_plain]. rewrite Ha. reflexivity.
  - intros resp cs message Hok Hbody. unfold send_end_stream.
    rewrite (try_stream_body _ _ _ Hok Hbody). cbn [ending chunks].
    cbv zeta. destruct (snd (body_text _ _)); reflexivity.
Qed.

Lemma failure_is_recorded_witness :
  send_end_plain (Rejected network_error) talked_session =
    {| messages := messages talked_session; pending := false;
       error := Some (lit "Failed to fetch");
       controllers := controllers talked_session;
       abortCtrl := abortCtrl talked_session |} /\
  send_end_stream
    (Fulfilled (chunked_response "text/event-stream"
                  [dq "data: {'content':1e3}" ++ [LF; LF]; lit "data: l"]
                  (Some (lit "network error"))))
    talked_session =
    {| messages :=
         messages talked_session ++
         [{| role := assistant; content := lit "1000" |}];
       pending := false; error := Some (lit "network error");
       controllers := controllers talked_session;
       abortCtrl := abortCtrl talked_session |}.
Proof.
  split.
  - apply (proj1 (proj2 (failure_is_recorded network_error talked_session
                           eq_refl))).
  - apply (proj2 (proj2 (failure_is_recorded network_error talked_session
                           eq_refl))
             (chunked_response "text/event-stream"
                [dq "data: {'content':1e3}" ++ [LF; LF]; lit "data: l"]
                (Some (lit "network error")))
             [dq "data: {'content':1e3}" ++ [LF; LF]; lit "data: l"]
             (lit "network error")).
    + reflexivity.
    + reflexivity.
Defined.

(** ** White space *)

Lemma trimStart_space a s : all_space a = true -> trimStart (a ++ s) = trimStart s.
Proof.
  unfold all_space. induction a as [|c a IH]; cbn [forallb app trimStart];
    [reflexivity|].
  intros [Hc Ha]%andb_true_iff. rewrite Hc. apply IH, Ha.
Qed.

Lemma trimEnd_space b : all_space b = true -> trimEnd b = [].
Proof.
  unfold all_space. induction b as [|c b IH]; cbn [forallb trimEnd];
    [reflexivity|].
  intros [Hc Hb]%andb_true_iff. rewrite (IH Hb), Hc. reflexivity.
Qed.

Lemma trimEnd_app_space s b : all_space b = true -> trimEnd (s ++ b) = trimEnd s.
Proof.
  intros Hb. induction s as [|c s IH]; cbn [app trimEnd].
  - apply trimEnd_space, Hb.
  - rewrite IH. reflexivity.
Qed.

Lemma trimStart_suffix s : exists a, all_space a = true /\ s = a ++ trimStart s.
Proof.
  induction s as [|c s (a & Ha & E)]; cbn [trimStart].
  - exists []. split; reflexivity.
  - destruct (is_js_space c) eqn:Hc.
    + exists (c :: a). cbn [all_space forallb app]. unfold all_space in Ha.
      rewrite Hc, Ha, <- E. split; reflexivity.
    + exists []. split; reflexivity.
Qed.

Lemma trimStart_app_nonspace s b :
  trimStart s <> [] -> trimStart (s ++ b) = trimStart s ++ b.
Proof.
  induction s as [|c s IH]; cbn [trimStart app]; [congruence|].
  destruct (is_js_space c); [exact IH|reflexivity].
Qed.

Lemma trimStart_all_space s : all_space s = true -> trimStart s = [].
Proof.
  intros H. rewrite <- (app_nil_r s), trimStart_space by exact H. reflexivity.
Qed.

Lemma trimStart_app_space s b :
  all_space b = true -> trimEnd (trimStart (s ++ b)) = trimEnd (trimStart s).
Proof.
  intros Hb. destruct (trimStart s) as [|c t] eqn:E.
  - destruct (trimStart_suffix s) as (a & Ha & Es). rewrite E, app_nil_r in Es.
    subst a. rewrite trimStart_space by exact Ha.
    rewrite (trimStart_all_space b Hb). reflexivity.
  - rewrite trimStart_app_nonspace by congruence. rewrite E.
    apply trimEnd_app_space, Hb.
Qed.

(** [trim] removes the white space around a text, whatever it is. *)
Lemma trim_surrounded a s b :
  all_space a = true -> all_space b = true -> trim (a ++ s ++ b) = trim s.
Proof.
  intros Ha Hb. unfold trim. rewrite trimStart_space by exact Ha.
  apply trimStart_app_space, Hb.
Qed.

Lemma trim_all_space s : all_space s = true -> trim s = [].
Proof. intros H. unfold trim. rewrite trimStart_all_space by exact H. reflexivity. Qed.

Lemma trimEnd_nonspace x t :
  is_js_space x = false -> trimEnd (x :: t) = x :: trimEnd t.
Proof. intros H. cbn [trimEnd]. rewrite H. destruct (trimEnd t); reflexivity. Qed.

Lemma trimStart_head s :
  trimStart s = [] \/
  exists x t, trimStart s = x :: t /\ is_js_space x = false.
Proof.
  induction s as [|c s IH]; cbn [trimStart]; [left; reflexivity|].
  destruct (is_js_space c) eqn:E; [exact IH|]. right. eauto.
Qed.

Lemma trim_nil_all_space s : trim s = [] -> all_space s = true.
Proof.
  unfold trim. intros H.
  destruct (trimStart_suffix s) as (a & Ha & E).
  destruct (trimStart_head s) as [E0|(x & t & E1 & Hx)].
  - rewrite E0, app_nil_r in E. subst a. exact Ha.
  - rewrite E1, (trimEnd_nonspace _ _ Hx) in H. discriminate H.
Qed.

Lemma trimEnd_idempotent s : trimEnd (trimEnd s) = trimEnd s.
Proof.
  induction s as [|c s IH]; [reflexivity|]. cbn [trimEnd].
  destruct (trimEnd s) as [|d t] eqn:E.
  - destruct (is_js_space c) eqn:Hc; [reflexivity|]. cbn [trimEnd].
    rewrite Hc. reflexivity.
  - cbn [trimEnd] in IH |- *. rewrite IH. reflexivity.
Qed.

Lemma trim_idempotent s : trim (trim s) = trim s.
Proof.
  unfold trim. destruct (trimStart_head s) as [E0|(x & t & E1 & Hx)].
  - rewrite E0. reflexivity.
  - rewrite E1, (trimEnd_nonspace _ _ Hx). cbn [trimStart]. rewrite Hx.
    rewrite (trimEnd_nonspace _ _ Hx), trimEnd_idempotent. reflexivity.
Qed.

Lemma trimEnd_fixed m y :
  is_js_space y = false -> trimEnd (m ++ [y]) = m ++ [y].
Proof.
  intros Hy. induction m as [|c m IH]; cbn [app trimEnd].
  - rewrite Hy. reflexivity.
  - rewrite IH. destruct (m ++ [y]) eqn:E; [|reflexivity].
    destruct m; discriminate E.
Qed.

(** [trim] leaves a text that neither begins nor ends with white space. *)
Lemma trim_fixed x m y :
  is_js_space x = false -> is_js_space y = false ->
  trim (x :: m ++ [y]) = x :: m ++ [y].
Proof.
  intros Hx Hy. unfold trim. cbn [trimStart]. rewrite Hx.
  apply (trimEnd_fixed (x :: m) y Hy).
Qed.

(** X6. A line is read the same with white space around it: indentation
    before, spaces or a carriage return after, of any length and of any of
    the code units [trim] removes. *)
Theorem parseSSELine_ignores_surrounding_space a line b :
  all_space a = true -> all_space b = true ->
  parseSSELine (a ++ line ++ b) = parseSSELine line.
Proof.
  intros Ha Hb. unfold parseSSELine. rewrite (trim_surrounded _ _ _ Ha Hb).
  reflexivity.
Qed.

Lemma parseSSELine_ignores_surrounding_space_witness :
  parseSSELine ([9; 32] ++ dq "data: {'content':'Hel'}" ++ [32; CR]) =
  parseSSELine (dq "data: {'content':'Hel'}").
Proof.
  apply (parseSSELine_ignores_surrounding_space [9; 32]
           (dq "data: {'content':'Hel'}") [32; CR]).
  - reflexivity.
  - reflexivity.
Defined.

(** X7. [send] does nothing exactly when the prompt is white space only or
    a request is pending: then the state is untouched and no request is
    issued. In every other case it issues a request. *)
Theorem send_begin_nothing_iff opts prompt s :
  (all_space prompt = true \/ pending s = true <->
   send_begin opts prompt s = (s, None)) /\
  (all_space prompt = false -> pending s = false ->
   exists s1 req, send_begin opts prompt s = (s1, Some req)).
Proof.
  assert (Hg : negb (truthy (Some (JString (trim prompt)))) = true <->
               all_space prompt = true).
  { cbn [truthy]. split.
    - destruct (trim prompt) eqn:E; [|discriminate].
      intros _. apply trim_nil_all_space, E.
    - intros H. rewrite (trim_all_space _ H). reflexivity. }
  split; [split|].
  - intros H. unfold send_begin.
    assert (E : negb (truthy (Some (JString (trim prompt)))) || pending s = true).
    { apply orb_true_iff. destruct H as [H|H]; [left; apply Hg, H|right; exact H]. }
    rewrite E. reflexivity.
  - unfold send_begin.
    destruct (negb (truthy (Some (JString (trim prompt)))) || pending s) eqn:E;
      [|discriminate].
    intros _. apply orb_true_iff in E as [E|E]; [left; apply Hg, E|right; exact E].
  - intros Hp Hs. unfold send_begin.
    destruct (bool_dec (negb (truthy (Some (JString (trim prompt))))) true)
      as [E|E].
    + apply Hg in E. congruence.
    + apply not_true_is_false in E. rewrite E, Hs. cbn [orb]. eauto.
Qed.

Lemma send_begin_nothing_iff_witness :
  send_begin (options None None) [32; 9; LF] talked_session =
    (talked_session, None) /\
  exists s1 req,
    send_begin (options None None) (lit "hello") talked_session = (s1, Some req).
Proof.
  split.
  - apply (proj1 (proj1 (send_begin_nothing_iff (options None None) [32; 9; LF]
                           talked_session))).
    left. reflexivity.
  - apply (proj2 (send_begin_nothing_iff (options None None) (lit "hello")
                    talked_session)).
    + reflexivity.
    + reflexivity.
Defined.

(** ** [reset] *)

(** X8. [reset] while a request is in flight puts the message list back to
    the list of a new instance and clears the error; it aborts the signal of
    that request and of no other; it leaves the pending flag set, for the
    aborted request to clear, which it does without recording an error; and
    resetting twice is resetting once. *)
Theorem reset_restores opts prompt s s1 req :
  send_begin opts prompt s = (s1, Some req) ->
  messages (reset opts s1) = messages (useChat opts) /\
  error (reset opts s1) = None /\
  pending (reset opts s1) = true /\
  nth_error (controllers (reset opts s1)) (req_signal req) = Some true /\
  (forall j, j <> req_signal req ->
     nth_error (controllers (reset opts s1)) j = nth_error (controllers s1) j) /\
  reset opts (reset opts s1) = reset opts s1 /\
  (forall e, is_abort e = true ->
     send_end_stream (Rejected e) (reset opts s1) =
     {| messages := messages (useChat opts); pending := false; error := None;
        controllers := controllers (reset opts s1);
        abortCtrl := abortCtrl s1 |}).
Proof.
  intros Hbegin. unfold send_begin in Hbegin.
  destruct (negb _ || pending s); [discriminate|].
  injection Hbegin as <- <-. cbn [reset messages error pending controllers
    abortCtrl abort_current req_signal useChat].
  set (store := abort_current (abortCtrl s) (controllers s)).
  assert (Hlen : (length store < length (store ++ [false]))%nat)
    by (rewrite length_app; simpl; lia).
  split; [reflexivity|]. split; [reflexivity|]. split; [reflexivity|].
  split; [apply nth_error_set_at, Hlen|].
  split; [intros j Hj; apply nth_error_set_at_other; congruence|].
  split.
  - unfold reset. cbn [messages error pending controllers abortCtrl abort_current].
    rewrite set_at_twice. reflexivity.
  - intros e Ha. unfold send_end_stream, settle. cbn [try_stream].
    unfold is_abort in Ha. rewrite Ha. reflexivity.
Qed.

Lemma reset_restores_witness :
  messages (reset (options None (Some true))
              (fst (send_begin (options None (Some true)) (lit "hello")
                      talked_session))) =
    messages (useChat (options None (Some true))) /\
  nth_error
    (controllers (reset (options None (Some true))
                    (fst (send_begin (options None (Some true)) (lit "hello")
                            talked_session)))) 1 = Some true.
Proof.
  pose proof (reset_restores (options None (Some true)) (lit "hello")
                talked_session _ _ eq_refl) as H.
  split.
  - exact (proj1 H).
  - exact (proj1 (proj2 (proj2 (proj2 H)))).
Defined.

(** ** The history window, for every maximum *)

(** X10. Whatever the maximum, the window is a run of the non-system
    messages, in their order, that ends with the last of them; no system
    message is in it. *)
Theorem buildHistory_suffix opts msgs :
  (exists older, non_system msgs = older ++ buildHistory opts msgs) /\
  (forall m, In m (buildHistory opts msgs) -> role m <> system).
Proof.
  split.
  - rewrite buildHistory_unfold. unfold js_slice.
    eexists. symmetry. apply firstn_skipn.
  - apply buildHistory_no_system.
Qed.

Lemma buildHistory_suffix_witness :
  (exists older,
     non_system two_messages =
     older ++ buildHistory (options (Some 1%Z) None) two_messages) /\
  (forall m, In m (buildHistory (options (Some 1%Z) None) two_messages) ->
             role m <> system).
Proof.
  apply (buildHistory_suffix (options (Some 1%Z) None) two_messages).
Defined.

(** ** What [postProcessMarkdown] adds *)

(** X11. [postProcessMarkdown] only appends: a closing fence on a line of
    its own when the number of fences is odd, and a final line feed when
    there is none. The text it is given is kept as a prefix; the result ends
    with a line feed and has an even number of fences. *)
Theorem postProcessMarkdown_appends s :
  exists tail,
    postProcessMarkdown s = s ++ tail /\
    (tail = [] \/ tail = [LF] \/ tail = LF :: lit "```" ++ [LF]) /\
    endsWith [LF] (postProcessMarkdown s) = true /\
    Nat.even (fence_count (postProcessMarkdown s)) = true.
Proof.
  destruct (postProcessMarkdown_shape s) as [Hodd Hend].
  assert (Heven : Nat.even (fence_count (postProcessMarkdown s)) = true).
  { rewrite <- Nat.negb_odd, Hodd. reflexivity. }
  unfold postProcessMarkdown in *.
  destruct (Nat.odd (fence_count s)).
  - destruct (endsWith [LF] (s ++ LF :: lit "```")) eqn:E.
    + unfold endsWith in E. rewrite rev_app_distr in E. discriminate E.
    + cbn [negb] in *. exists (LF :: lit "```" ++ [LF]).
      split; [rewrite <- app_assoc; reflexivity|].
      split; [auto|]. split; assumption.
  - destruct (endsWith [LF] s) eqn:E; cbn [negb] in *.
    + exists []. split; [rewrite app_nil_r; reflexivity|].
      split; [auto|]. split; assumption.
    + exists [LF]. split; [reflexivity|].
      split; [auto|]. split; assumption.
Qed.

(** ** Lines of an event *)

Lemma match_newline_no_break c s :
  negb (c =? LF) && negb (c =? CR) = true -> match_newline (c :: s) = None.
Proof.
  intros [H1 H2]%andb_true_iff. unfold match_newline, opt_cr, one_lf.
  apply negb_true_iff in H1, H2. rewrite H2, H1. reflexivity.
Qed.

Lemma split_lines_from_line l : forall cur rest,
  no_break l = true ->
  split_from match_newline match_newline_length cur (l ++ LF :: rest) =
  (cur ++ l) :: split_from match_newline match_newline_length [] rest.
Proof.
  unfold no_break. induction l as [|c l IH]; intros cur rest H.
  - rewrite app_nil_r. apply split_from_hit. reflexivity.
  - cbn [forallb] in H. apply andb_true_iff in H as [Hc Hl]. cbn [app].
    rewrite (split_from_miss _ _ _ _ _ (match_newline_no_break _ _ Hc)).
    rewrite (IH _ _ Hl), <- app_assoc. reflexivity.
Qed.

Lemma split_lines_from_last l : forall cur,
  no_break l = true ->
  split_from match_newline match_newline_length cur l = [cur ++ l].
Proof.
  unfold no_break. induction l as [|c l IH]; intros cur H.
  - rewrite split_from_nil, app_nil_r. reflexivity.
  - cbn [forallb] in H. apply andb_true_iff in H as [Hc Hl].
    rewrite (split_from_miss _ _ _ _ _ (match_newline_no_break _ _ Hc)).
    rewrite (IH _ Hl), <- app_assoc. reflexivity.
Qed.

(** Splitting into lines undoes joining them. *)
Lemma split_lines_join lines :
  lines <> [] -> forallb no_break lines = true ->
  split_lines (join_lines lines) = lines.
Proof.
  unfold split_lines. induction lines as [|l lines IH]; [congruence|].
  intros _ H. cbn [forallb] in H. apply andb_true_iff in H as [Hl Hrest].
  destruct lines as [|l' lines].
  - cbn [join_lines]. apply (split_lines_from_last l [] Hl).
  - change (join_lines (l :: l' :: lines)) with (l ++ LF :: join_lines (l' :: lines)).
    rewrite (split_lines_from_line l [] _ Hl). cbn [app].
    rewrite IH by (congruence || exact Hrest). reflexivity.
Qed.

(** X12. An event of several lines gives the text of each of its lines, in
    their order: the read loop appends them to the slot one after another,
    with nothing between them, up to the first line whose payload has no
    text; that line throws, and the lines after it are not read. A number is
    appended as [String] prints it. *)
Theorem event_of_lines lines msgs m :
  lines <> [] -> forallb no_break lines = true ->
  consume_event (length msgs) (msgs ++ [m]) (join_lines lines) =
  (msgs ++
   [{| role := role m;
       content := content m ++ fst (texts_until (map line_text lines)) |}],
   thrown_if (snd (texts_until (map line_text lines)))).
Proof.
  intros Hne Hnb. unfold consume_event.
  rewrite (split_lines_join _ Hne Hnb). apply consume_lines_slot.
Qed.

Lemma event_of_lines_witness :
  consume_event (length two_messages)
    (two_messages ++ [{| role := assistant; content := lit "He" |}])
    (join_lines [lit "event: token"; lit "data: l"; dq "data: {'delta':'lo'}";
                 dq "data: {'content':1e3}"]) =
  (two_messages ++ [{| role := assistant; content := lit "Hello1000" |}], None) /\
  consume_event (length two_messages)
    (two_messages ++ [{| role := assistant; content := lit "He" |}])
    (join_lines [lit "data: l"; dq "data: {'delta':{'toString':1}}";
                 lit "data: lo"]) =
  (two_messages ++ [{| role := assistant; content := lit "Hel" |}],
   Some not_primitive).
Proof.
  split.
  - apply (event_of_lines
             [lit "event: token"; lit "data: l"; dq "data: {'delta':'lo'}";
              dq "data: {'content':1e3}"]
             two_messages {| role := assistant; content := lit "He" |}).
    + discriminate.
    + reflexivity.
  - apply (event_of_lines
             [lit "data: l"; dq "data: {'delta':{'toString':1}}"; lit "data: lo"]
             two_messages {| role := assistant; content := lit "He" |}).
    + discriminate.
    + reflexivity.
Defined.

(** ** A payload that is JSON but no object *)

(** X13. A data line whose payload is JSON text for a number, a boolean, a
    string or an array contributes nothing: none of the fields is there to
    read, and the payload is not taken as text either. *)
Theorem parseSSELine_json_scalar line v :
  startsWith (lit "data:") (trim line) = true ->
  JSON_parse (payload_of line) = Some v ->
  v <> JNull -> (forall members, v <> JObject members) ->
  parseSSELine line = JString [] /\
  forall idx msgs, consume_line idx msgs line = Some msgs.
Proof.
  intros Hdata Hparse Hnull Hobj.
  assert (E : parseSSELine line = JString []).
  { rewrite (parseSSELine_data _ Hdata). cbv zeta. rewrite Hparse.
    destruct (_ || _); [reflexivity|].
    destruct v; try reflexivity; [contradiction|].
    exfalso. eapply Hobj. reflexivity. }
  split; [exact E|]. intros idx msgs. unfold consume_line. rewrite E. reflexivity.
Qed.

Lemma parseSSELine_json_scalar_witness :
  parseSSELine (lit "data: 42") = JString [] /\
  forall idx msgs, consume_line idx msgs (lit "data: 42") = Some msgs.
Proof.
  apply (parseSSELine_json_scalar (lit "data: 42") (JNumber (lit "42"))).
  - reflexivity.
  - reflexivity.
  - discriminate.
  - intros members. discriminate.
Defined.

(** ** The handler before it streams *)

(** X14. A failure before the stream begins is answered with status 500 and
    an error object, in streaming mode as in the other, and nothing is
    written to the outgoing response: a missing key whatever the backend
    would answer, a backend response without a success status whatever its
    status. A backend that cannot be reached makes the handler throw, with
    nothing written. *)
Theorem handler_fails_before_stream config b :
  (key_missing config = true ->
   forall fetched,
     handler config b fetched =
     Returned 500
       (JObject [(lit "error", JString (lit "Server missing OPENAI_API_KEY"))])) /\
  (key_missing config = false ->
   (forall upstream,
      resp_ok upstream = false ->
      handler config b (Fulfilled upstream) = Returned 500 (error_reply upstream) /\
      output (handler config b (Fulfilled upstream)) = []) /\
   (forall e, handler config b (Rejected e) = Thrown [] e)).
Proof.
  unfold key_missing. split.
  - intros H fetched. unfold handler. rewrite H. reflexivity.
  - intros H. split.
    + intros upstream Hok. unfold handler. rewrite H, Hok. split; reflexivity.
    + intros e. unfold handler. rewrite H. reflexivity.
Qed.

Lemma handler_fails_before_stream_witness :
  handler no_key_config streaming_body
    (Fulfilled (backend_response 200 "text/event-stream" [])) =
  Returned 500
    (JObject [(lit "error", JString (lit "Server missing OPENAI_API_KEY"))]) /\
  handler sample_config streaming_body (Rejected network_error) =
  Thrown [] network_error.
Proof.
  split.
  - apply (proj1 (handler_fails_before_stream no_key_config streaming_body)
             eq_refl).
  - apply (proj2 (proj2 (handler_fails_before_stream sample_config
                           streaming_body) eq_refl)).
Defined.

(** ** What the backend is sent *)

Lemma send_begin_request opts prompt s s1 req :
  send_begin opts prompt s = (s1, Some req) ->
  req_prompt req = prompt /\
  req_history req = buildHistory opts (messages s) /\
  req_model req = opt_model opts /\
  req_temperature req = opt_temperature opts /\
  req_stream req = match opt_stream opts with Some v => v | None => false end.
Proof.
  unfold send_begin. destruct (negb _ || pending s); [discriminate|].
  intros [= <- <-]. repeat split.
Qed.

(** X15. The messages posted to the backend for a call of [send] are the
    handler's own system message, then the history window, then the prompt.
    The system prompt of the client is never among them: the only system
    message is the first. The backend is asked to stream exactly when the
    client was created with the stream option set. *)
Theorem backend_messages config opts prompt s s1 req :
  send_begin opts prompt s = (s1, Some req) ->
  up_messages (upstream_payload config (body_of_request req)) =
    {| role := system; content := lit "You are a helpful assistant." |}
    :: buildHistory opts (messages s)
    ++ [{| role := user; content := prompt |}] /\
  (forall m,
     In m (buildHistory opts (messages s) ++ [{| role := user; content := prompt |}]) ->
     role m <> system) /\
  up_stream (upstream_payload config (body_of_request req)) =
    match opt_stream opts with Some v => v | None => false end.
Proof.
  intros Hbegin.
  destruct (send_begin_request _ _ _ _ _ Hbegin) as (Hp & Hh & _ & _ & Hs).
  unfold upstream_payload, body_of_request, wants_stream.
  cbn [up_messages up_stream body_history body_prompt body_stream].
  rewrite Hp, Hh, Hs. split; [reflexivity|]. split; [|reflexivity].
  intros m [Hin|[<-|[]]]%in_app_or.
  - eapply buildHistory_no_system, Hin.
  - discriminate.
Qed.

Lemma backend_messages_witness :
  option_map
    (fun req => up_messages (upstream_payload sample_config (body_of_request req)))
    (snd (send_begin (options (Some 1%Z) None) (lit "hello") talked_session)) =
  Some ({| role := system; content := lit "You are a helpful assistant." |}
        :: buildHistory (options (Some 1%Z) None) (messages talked_session)
        ++ [{| role := user; content := lit "hello" |}]).
Proof.
  exact (f_equal Some
           (proj1 (backend_messages sample_config (options (Some 1%Z) None)
                     (lit "hello") talked_session _ _ eq_refl))).
Defined.

(** ** The shape of what the handler writes *)

Lemma wrap_lines_writes chunk :
  wrap_lines chunk =
  map Write (map data_frame
               (filter (fun ln => (0 <? length ln)%nat) (split_lines chunk))).
Proof. unfold wrap_lines. rewrite map_map. reflexivity. Qed.

Lemma flat_map_wrap_lines_writes cs :
  exists ws, flat_map wrap_lines cs = map Write ws.
Proof.
  induction cs as [|c cs (ws & IH)]; [exists []; reflexivity|].
  cbn [flat_map]. rewrite IH, wrap_lines_writes, <- map_app. eauto.
Qed.

(** X16. The handler writes to the response only when it was asked to
    stream and got past its checks. What it writes then begins with the
    keep-alive frame; a run that completes ends the response once, after the
    last write; a run that throws has not ended it. *)
Theorem handler_output_shape config b fetched :
  match handler config b fetched with
  | Returned _ _ => True
  | Streamed out =>
      wants_stream b = true /\
      exists ws, out = Write ping_frame :: map Write ws ++ [End]
  | Thrown out _ =>
      out = [] \/
      wants_stream b = true /\ exists ws, out = Write ping_frame :: map Write ws
  end.
Proof.
  unfold handler.
  destruct (negb (truthy (option_map JString (openaiApiKey config)))); [exact I|].
  destruct fetched as [upstream|e]; [|left; reflexivity].
  destruct (negb (resp_ok upstream)); [exact I|].
  destruct (wants_stream b); cbn [negb].
  - cbv zeta.
    destruct (includes (lit "text/event-stream") _).
    + destruct (resp_body upstream) as [body|].
      * destruct (ending body).
        -- right. split; [reflexivity|]. eauto.
        -- split; [reflexivity|]. eauto.
      * split; [reflexivity|]. exists []. reflexivity.
    + destruct (resp_body upstream) as [body|].
      * destruct (includes (lit "application/json") _).
        -- destruct (resp_text upstream).
           ++ split; [reflexivity|]. eexists [_; _]. reflexivity.
           ++ right. split; [reflexivity|]. exists []. reflexivity.
        -- destruct (flat_map_wrap_lines_writes (chunks body)) as (ws & ->).
           destruct (ending body).
           ++ right. split; [reflexivity|]. eauto.
           ++ split; [reflexivity|]. exists (ws ++ [done_frame]).
              rewrite map_app, <- app_assoc. reflexivity.
      * split; [reflexivity|]. exists []. reflexivity.
  - destruct (resp_text upstream) as [t|e]; [|left; reflexivity].
    destruct (JSON_parse t); [exact I|left; reflexivity].
Qed.

(** ** The earlier handler *)

(** X17. Streaming was added without changing the rest. For a request that
    does not ask for a stream the handler answers as the earlier handler
    did, for every configuration, request and backend behaviour; and for
    every request the two post the same model, temperature and messages. *)
Theorem handler_extends_first_handler config b :
  (wants_stream b = false ->
   forall fetched, handler config b fetched = first_handler config b fetched) /\
  first_payload config b =
    (up_model (upstream_payload config b),
     up_temperature (upstream_payload config b),
     up_messages (upstream_payload config b)).
Proof.
  split; [|reflexivity].
  intros Hs fetched. unfold handler, first_handler. rewrite Hs. cbn [negb].
  reflexivity.
Qed.

Lemma handler_extends_first_handler_witness :
  handler sample_config plain_body
    (Fulfilled (backend_response 200 "application/json" hi_there_body)) =
  first_handler sample_config plain_body
    (Fulfilled (backend_response 200 "application/json" hi_there_body)).
Proof.
  apply (proj1 (handler_extends_first_handler sample_config plain_body) eq_refl).
Defined.

(** ** The non-streaming answer, for every body *)

Lemma answer_of_not_null data : answer_of data <> JNull.
Proof.
  unfold answer_of, coalesce_value.
  destruct (opt_member _ (lit "content")) as [[]|]; discriminate.
Qed.

Lemma handler_plain config b upstream text :
  key_missing config = false ->
  resp_ok upstream = true ->
  wants_stream b = false ->
  resp_text upstream = Fulfilled text ->
  handler config b (Fulfilled upstream) =
  match JSON_parse text with
  | Some data => Returned 200 (JObject [(lit "answer", answer_of data)])
  | None => Thrown [] syntax_error
  end.
Proof.
  unfold key_missing. intros Hkey Hok Hstream Htext. unfold handler.
  rewrite Hkey, Hok, Hstream, Htext. reflexivity.
Qed.

Lemma try_plain_answer a msgs :
  try_plain (Fulfilled (Some (JObject [(lit "answer", a)]))) msgs =
  shown_answer a msgs.
Proof.
  unfold try_plain.
  replace (opt_member (Some (JObject [(lit "answer", a)])) (lit "error"))
    with undefined by reflexivity.
  replace (opt_member (Some (JObject [(lit "answer", a)])) (lit "answer"))
    with (Some a) by reflexivity.
  cbn [truthy undefined coalesce_value].
  destruct a; reflexivity.
Qed.

(** A non-streaming exchange with a backend body that parses: the client
    is handed the answer the handler took from the body, as far as JSON can
    write it. *)
Lemma exchange_plain config t upstream opts prompt s text data :
  key_missing config = false ->
  resp_ok upstream = true ->
  resp_text upstream = Fulfilled text ->
  JSON_parse text = Some data ->
  opt_stream opts <> Some true ->
  pending s = false ->
  trim prompt <> [] ->
  exists s1,
    messages s1 = messages s ++ [{| role := user; content := prompt |}] /\
    error s1 = None /\
    exchange config t (Fulfilled upstream) opts prompt s =
    Some (settle s1 (shown_answer (json_image (answer_of data)) (messages s1))).
Proof.
  intros Hkey Hok Htext Hparse Hopt Hp Ht.
  destruct (send_begin_idle opts prompt s Hp Ht)
    as (req & Hbegin & _ & _ & Hstream).
  assert (Hplain : req_stream req = false).
  { rewrite Hstream. destruct (opt_stream opts) as [[|]|];
      [contradiction Hopt|..]; reflexivity. }
  unfold exchange. rewrite Hbegin.
  rewrite (handler_plain config (body_of_request req) upstream text
             Hkey Hok); [|cbn; rewrite Hplain; reflexivity|exact Htext].
  rewrite Hparse, Hplain. eexists. split; [|split].
  3: { unfold send_end_plain, dollar_fetch.
       change ((200 <=? 200) && (200 <=? 299)) with true. cbv iota.
       cbn [json_image map fst snd]. rewrite try_plain_answer. reflexivity. }
  all: reflexivity.
Qed.

(** X18. In non-streaming mode, for every backend body that parses, the
    session gains the prompt and, when the content of the first choice is a
    string, one assistant message holding it, finalized. A body without such
    a content gives an assistant message that is a single line feed, and so
    does a content that is a number too large for a double: it is [null] in
    the reply the client reads. Any other content gives no assistant message
    but an error, the one of calling a string method on it. *)
Theorem plain_session config t upstream opts prompt s text data :
  key_missing config = false ->
  resp_ok upstream = true ->
  resp_text upstream = Fulfilled text ->
  JSON_parse text = Some data ->
  opt_stream opts <> Some true ->
  pending s = false ->
  trim prompt <> [] ->
  exists s',
    exchange config t (Fulfilled upstream) opts prompt s = Some s' /\
    pending s' = false /\
    match json_image (answer_of data) with
    | JString c =>
        messages s' =
          messages s ++
          [{| role := user; content := prompt |};
           {| role := assistant; content := postProcessMarkdown c |}] /\
        error s' = None
    | JNull =>
        messages s' =
          messages s ++
          [{| role := user; content := prompt |};
           {| role := assistant; content := [LF] |}] /\
        error s' = None
    | _ =>
        messages s' = messages s ++ [{| role := user; content := prompt |}] /\
        error s' = err_message not_a_function
    end.
Proof.
  intros Hkey Hok Htext Hparse Hopt Hp Ht.
  destruct (exchange_plain config t upstream opts prompt s text data
              Hkey Hok Htext Hparse Hopt Hp Ht) as (s1 & Hm & He & Hex).
  eexists. split; [exact Hex|]. split; [apply settle_pending|].
  destruct (json_image (answer_of data));
    cbn [shown_answer settle messages error]; rewrite ?Hm, ?He, <- ?app_assoc;
    split; reflexivity.
Qed.

Lemma plain_session_witness :
  (exists s',
     exchange sample_config sample_transport
       (Fulfilled (backend_response 200 "application/json"
                     (dq "{'choices':[{'message':{'content':42}}]}")))
       (options None None) (lit "hello") talked_session = Some s' /\
     pending s' = false /\
     messages s' =
       messages talked_session ++ [{| role := user; content := lit "hello" |}] /\
     error s' = err_message not_a_function) /\
  (exists s',
     exchange sample_config sample_transport
       (Fulfilled (backend_response 200 "application/json"
                     (dq "{'choices':[{'message':{'content':1e400}}]}")))
       (options None None) (lit "hello") talked_session = Some s' /\
     pending s' = false /\
     messages s' =
       messages talked_session ++
       [{| role := user; content := lit "hello" |};
        {| role := assistant; content := [LF] |}] /\
     error s' = None).
Proof.
  split.
  - apply (plain_session sample_config sample_transport
             (backend_response 200 "application/json"
                (dq "{'choices':[{'message':{'content':42}}]}"))
             (options None None) (lit "hello") talked_session
             (dq "{'choices':[{'message':{'content':42}}]}")
             (JObject
                [(lit "choices",
                  JArray
                    [JObject
                       [(lit "message",
                         JObject [(lit "content", JNumber (lit "42"))])]])])).
    + reflexivity.
    + reflexivity.
    + reflexivity.
    + reflexivity.
    + discriminate.
    + reflexivity.
    + vm_compute. discriminate.
  - apply (plain_session sample_config sample_transport
             (backend_response 200 "application/json"
                (dq "{'choices':[{'message':{'content':1e400}}]}"))
             (options None None) (lit "hello") talked_session
             (dq "{'choices':[{'message':{'content':1e400}}]}")
             (JObject
                [(lit "choices",
                  JArray
                    [JObject
                       [(lit "message",
                         JObject [(lit "content", JNumber (lit "Infinity"))])]])])).
    + reflexivity.
    + reflexivity.
    + reflexivity.
    + reflexivity.
    + discriminate.
    + reflexivity.
    + vm_compute. discriminate.
Defined.

(** ** Frames, as the client splits them *)

Lemma chomp_cr_cons c c' t : chomp_cr (c :: c' :: t) = c :: chomp_cr (c' :: t).
Proof. reflexivity. Qed.

Lemma chomp_cr_cases t : chomp_cr t = t \/ t = chomp_cr t ++ [CR].
Proof.
  induction t as [|c [|c' t] IH].
  - left. reflexivity.
  - cbn. destruct (N.eqb_spec c CR) as [->|_]; [right|left]; reflexivity.
  - rewrite chomp_cr_cons. destruct IH as [IH|IH].
    + left. rewrite IH. reflexivity.
    + right. cbn [app]. rewrite <- IH. reflexivity.
Qed.

Lemma match_blank_no_LF c c' s :
  negb (c =? LF) = true -> negb (c' =? LF) = true ->
  match_blank (c :: c' :: s) = None.
Proof.
  intros H H'. apply negb_true_iff in H, H'.
  unfold match_blank, match_newline, opt_cr, one_lf.
  destruct (c =? CR); [rewrite H'|rewrite H]; reflexivity.
Qed.

Lemma match_newline_no_LF c c' s :
  negb (c =? LF) = true -> negb (c' =? LF) = true ->
  match_newline (c :: c' :: s) = None.
Proof.
  intros H H'. apply negb_true_iff in H, H'.
  unfold match_newline, opt_cr, one_lf.
  destruct (c =? CR); [rewrite H'|rewrite H]; reflexivity.
Qed.

(** A text without a line feed, followed by a blank line, is one piece of
    the split, less the carriage return it may end with. *)
Lemma split_blank_from_no_LF t : forall cur rest,
  no_LF t = true ->
  split_blank_from cur (t ++ LF :: LF :: rest) =
  (cur ++ chomp_cr t) :: split_blank_from [] rest.
Proof.
  unfold no_LF. induction t as [|c [|c' t] IH]; intros cur rest H.
  - rewrite app_nil_r. apply split_blank_from_hit. reflexivity.
  - cbn [forallb] in H. rewrite andb_true_r in H. cbn [app chomp_cr].
    destruct (N.eqb_spec c CR) as [->|Hc].
    + rewrite app_nil_r. apply split_blank_from_hit. reflexivity.
    + assert (E : match_blank (c :: LF :: LF :: rest) = None).
      { apply negb_true_iff in H. apply N.eqb_neq in Hc.
        unfold match_blank, match_newline, opt_cr, one_lf. rewrite Hc, H.
        reflexivity. }
      rewrite (split_blank_from_miss _ _ _ E).
      apply split_blank_from_hit. reflexivity.
  - cbn [forallb] in H. apply andb_true_iff in H as [Hc H].
    pose proof H as H'. cbn [forallb] in H'. apply andb_true_iff in H' as [Hc' _].
    rewrite chomp_cr_cons.
    change ((c :: c' :: t) ++ LF :: LF :: rest)
      with (c :: (c' :: t) ++ LF :: LF :: rest).
    rewrite (split_blank_from_miss cur c ((c' :: t) ++ LF :: LF :: rest)
               (match_blank_no_LF _ _ _ Hc Hc')).
    rewrite (IH _ _ H), <- app_assoc. reflexivity.
Qed.

(** A text without a line feed is one line. *)
Lemma split_lines_no_LF t : forall cur,
  no_LF t = true ->
  split_from match_newline match_newline_length cur t = [cur ++ t].
Proof.
  unfold no_LF. induction t as [|c [|c' t] IH]; intros cur H.
  - rewrite split_from_nil, app_nil_r. reflexivity.
  - cbn [forallb] in H. rewrite andb_true_r in H.
    assert (E : match_newline [c] = None).
    { apply negb_true_iff in H. unfold match_newline, opt_cr, one_lf.
      destruct (c =? CR); [reflexivity|]. rewrite H. reflexivity. }
    rewrite (split_from_miss _ _ _ _ _ E), split_from_nil. reflexivity.
  - cbn [forallb] in H. apply andb_true_iff in H as [Hc H].
    pose proof H as H'. cbn [forallb] in H'. apply andb_true_iff in H' as [Hc' _].
    rewrite (split_from_miss _ _ _ _ _ (match_newline_no_LF _ _ _ Hc Hc')).
    rewrite (IH _ H), <- app_assoc. reflexivity.
Qed.

Lemma no_LF_chomp_cr t : no_LF t = true -> no_LF (chomp_cr t) = true.
Proof.
  unfold no_LF. induction t as [|c [|c' t] IH]; intros H.
  - reflexivity.
  - cbn. destruct (c =? CR); [reflexivity|exact H].
  - rewrite chomp_cr_cons. cbn [forallb] in H |- *.
    apply andb_true_iff in H as [Hc H]. rewrite Hc, (IH H). reflexivity.
Qed.

Lemma line_text_chomp_cr t : line_text (chomp_cr t) = line_text t.
Proof.
  destruct (chomp_cr_cases t) as [E|E]; [rewrite E; reflexivity|].
  rewrite E at 2. unfold line_text, parseSSELine.
  rewrite <- (trim_surrounded [] (chomp_cr t) [CR]); reflexivity.
Qed.

Lemma splitFrames_frame t rest :
  no_LF t = true ->
  splitFrames (t ++ LF :: LF :: rest) =
  (chomp_cr t :: fst (splitFrames rest), snd (splitFrames rest)).
Proof.
  intros H. unfold splitFrames, split_blank.
  rewrite (split_blank_from_no_LF t [] rest H). cbn [app fst snd].
  rewrite removelast_cons_split, last_cons_split. reflexivity.
Qed.

(** A text that begins with a frame of one line has that line, less the
    carriage return it may end with, as its first line. *)
Lemma stream_lines_frame t rest :
  no_LF t = true ->
  stream_lines (t ++ LF :: LF :: rest) = chomp_cr t :: stream_lines rest.
Proof.
  intros H. unfold stream_lines. rewrite (splitFrames_frame _ _ H).
  cbn [fst flat_map]. unfold split_lines.
  rewrite (split_lines_no_LF _ [] (no_LF_chomp_cr _ H)). reflexivity.
Qed.

Lemma stream_text_frame t rest :
  no_LF t = true ->
  stream_text (t ++ LF :: LF :: rest) =
  texts_until (line_text t :: map line_text (stream_lines rest)).
Proof.
  intros H. unfold stream_text. rewrite (stream_lines_frame _ _ H).
  cbn [map]. rewrite line_text_chomp_cr. reflexivity.
Qed.

(** A frame of one line that gives no text adds nothing. *)
Lemma stream_text_silent_frame t rest :
  no_LF t = true -> line_text t = Some [] ->
  stream_text (t ++ LF :: LF :: rest) = stream_text rest.
Proof.
  intros H E. rewrite (stream_text_frame _ _ H), E. cbn [texts_until].
  unfold stream_text. destruct (texts_until _). reflexivity.
Qed.

Lemma stream_lines_frames ts :
  forallb no_LF ts = true ->
  stream_lines (concat (map (fun t => t ++ [LF; LF]) ts)) = map chomp_cr ts.
Proof.
  induction ts as [|t ts IH]; intros H; [reflexivity|].
  cbn [forallb] in H. apply andb_true_iff in H as [Ht Hts].
  cbn [map concat]. rewrite <- app_assoc. cbn [app].
  rewrite (stream_lines_frame _ _ Ht), (IH Hts). reflexivity.
Qed.

Lemma stream_text_frames ts :
  forallb no_LF ts = true ->
  stream_text (concat (map (fun t => t ++ [LF; LF]) ts)) =
  texts_until (map line_text ts).
Proof.
  intros H. unfold stream_text. rewrite (stream_lines_frames _ H), map_map.
  f_equal. apply map_ext. intros t. apply line_text_chomp_cr.
Qed.

(** A line of [split(/\r?\n/)] holds no line feed. *)
Lemma split_lines_from_no_LF s : forall cur,
  no_LF cur = true ->
  forallb no_LF (split_from match_newline match_newline_length cur s) = true.
Proof.
  induction s as [s IH] using (induction_ltof1 _ (@length N)). unfold ltof in IH.
  intros cur Hcur. destruct (match_newline s) as [r|] eqn:E.
  - rewrite (split_from_hit _ _ _ _ _ E). cbn [forallb]. rewrite Hcur.
    apply IH; [eapply match_newline_length, E|reflexivity].
  - destruct s as [|c s].
    + rewrite split_from_nil. cbn [forallb]. rewrite Hcur. reflexivity.
    + rewrite (split_from_miss _ _ _ _ _ E). apply IH; [simpl; lia|].
      unfold no_LF in *. rewrite forallb_app, Hcur. cbn [forallb].
      destruct (N.eqb_spec c LF) as [->|_]; [discriminate E|reflexivity].
Qed.

Lemma split_lines_no_LF_all s : forallb no_LF (split_lines s) = true.
Proof. apply split_lines_from_no_LF. reflexivity. Qed.

Lemma wrapped_lines_no_LF cs : forallb no_LF (wrapped_lines cs) = true.
Proof.
  unfold wrapped_lines. induction cs as [|c cs IH]; [reflexivity|].
  cbn [flat_map]. rewrite forallb_app. apply andb_true_iff. split; [|exact IH].
  apply forallb_forall. intros ln [Hin _]%filter_In.
  pose proof (split_lines_no_LF_all c) as H. rewrite forallb_forall in H. auto.
Qed.

Lemma flat_map_wrap_lines cs :
  flat_map wrap_lines cs =
  map (fun ln => Write (data_frame ln)) (wrapped_lines cs).
Proof.
  unfold wrapped_lines, wrap_lines.
  induction cs as [|c cs IH]; [reflexivity|].
  cbn [flat_map]. rewrite map_app, IH. reflexivity.
Qed.

Lemma written_writes xs rest :
  written (map Write xs ++ rest) = xs ++ written rest.
Proof. induction xs as [|x xs IH]; [reflexivity|]. cbn. rewrite IH. reflexivity. Qed.

Lemma written_data_writes lines rest :
  written (map (fun ln => Write (data_frame ln)) lines ++ rest) =
  map data_frame lines ++ written rest.
Proof.
  induction lines as [|x xs IH]; [reflexivity|].
  cbn [map app written]. f_equal. exact IH.
Qed.

(** ** The three shapes of a backend stream *)

Lemma handler_relay config b upstream body :
  key_missing config = false -> resp_ok upstream = true -> wants_stream b = true ->
  is_event_stream (resp_contentType upstream) = true ->
  resp_body upstream = Some body ->
  handler config b (Fulfilled upstream) =
  match ending body with
  | None => Streamed (Write ping_frame :: map Write (chunks body) ++ [End])
  | Some message =>
      Thrown (Write ping_frame :: map Write (chunks body)) (read_error message)
  end.
Proof.
  unfold key_missing, is_event_stream. intros Hkey Hok Hstream Hct Hbody.
  unfold handler. rewrite Hkey, Hok, Hstream. cbn [negb]. rewrite Hct, Hbody.
  reflexivity.
Qed.

Lemma handler_text config b upstream body :
  key_missing config = false -> resp_ok upstream = true -> wants_stream b = true ->
  is_event_stream (resp_contentType upstream) = false ->
  is_json_kind (resp_contentType upstream) = false ->
  resp_body upstream = Some body ->
  handler config b (Fulfilled upstream) =
  match ending body with
  | None =>
      Streamed (Write ping_frame ::
                map (fun ln => Write (data_frame ln)) (wrapped_lines (chunks body))
                ++ [Write done_frame; End])
  | Some message =>
      Thrown (Write ping_frame ::
              map (fun ln => Write (data_frame ln)) (wrapped_lines (chunks body)))
             (read_error message)
  end.
Proof.
  unfold key_missing, is_event_stream, is_json_kind.
  intros Hkey Hok Hstream Hct Hjson Hbody.
  unfold handler. rewrite Hkey, Hok, Hstream. cbn [negb].
  rewrite Hct, Hbody, Hjson, flat_map_wrap_lines. reflexivity.
Qed.

Lemma handler_bridge config b upstream body text :
  key_missing config = false -> resp_ok upstream = true -> wants_stream b = true ->
  is_event_stream (resp_contentType upstream) = false ->
  is_json_kind (resp_contentType upstream) = true ->
  resp_body upstream = Some body ->
  resp_text upstream = Fulfilled text ->
  handler config b (Fulfilled upstream) =
  Streamed
    [Write ping_frame;
     Write (data_frame
              (JSON_stringify (JObject [(lit "content", bridged_answer text)])));
     Write done_frame; End].
Proof.
  unfold key_missing, is_event_stream, is_json_kind.
  intros Hkey Hok Hstream Hct Hjson Hbody Htext.
  unfold handler. rewrite Hkey, Hok, Hstream. cbn [negb].
  rewrite Hct, Hbody, Hjson, Htext. reflexivity.
Qed.

(** A streamed answer, from the handler to the session. *)
Lemma exchange_streamed config t fetched opts prompt s out :
  pending s = false -> trim prompt <> [] ->
  (forall b, wants_stream b = match opt_stream opts with Some v => v | None => false end ->
             handler config b fetched = Streamed out) ->
  exists s',
    exchange config t fetched opts prompt s = Some s' /\
    messages s' =
      messages s ++
      [{| role := user; content := prompt |};
       {| role := assistant;
          content := slot_content (stream_text (concat (written out))) |}] /\
    error s' = stream_error (stream_text (concat (written out))) /\
    pending s' = false.
Proof.
  intros Hp Ht Hh.
  destruct (send_begin_idle opts prompt s Hp Ht)
    as (req & Hbegin & _ & _ & Hstream).
  unfold exchange. rewrite Hbegin.
  rewrite Hh by (cbn; rewrite Hstream; reflexivity).
  eexists. split; [reflexivity|]. unfold send_end_stream.
  rewrite (try_stream_body (stream_response t out)
             {| chunks := written out; ending := None |}) by reflexivity.
  unfold body_text, slot_content, stream_error.
  cbn [ending chunks stream_response resp_contentType].
  replace (is_event_stream (Some (lit "text/event-stream; charset=utf-8")))
    with true by (vm_compute; reflexivity).
  cbv zeta.
  destruct (snd (stream_text (concat (written out))));
    cbn [settle messages error pending]; rewrite <- app_assoc;
    split; [reflexivity|split; reflexivity|reflexivity|split; reflexivity].
Qed.

Lemma ping_line_text : line_text (lit ": ping") = Some [].
Proof. reflexivity. Qed.

Lemma done_line_text : line_text (lit "data: [DONE]") = Some [].
Proof. reflexivity. Qed.

(** X19. The relay is transparent. When the backend answers a streaming
    request with an event stream, the session ends as if the client had read
    the backend's stream itself: the keep-alive frame the handler puts in
    front adds nothing. The assistant message is the text of the backend's
    stream, whatever the stream holds and however it is cut into chunks:
    finalized when every line has a text, and otherwise the text up to the
    first line that has none, as it is, with the error of that line
    recorded. *)
Theorem relay_session config t upstream cs opts prompt s :
  key_missing config = false ->
  resp_ok upstream = true ->
  is_event_stream (resp_contentType upstream) = true ->
  resp_body upstream = Some {| chunks := cs; ending := None |} ->
  opt_stream opts = Some true ->
  pending s = false ->
  trim prompt <> [] ->
  exists s',
    exchange config t (Fulfilled upstream) opts prompt s = Some s' /\
    messages s' =
      messages s ++
      [{| role := user; content := prompt |};
       {| role := assistant;
          content := slot_content (stream_text (concat cs)) |}] /\
    error s' = stream_error (stream_text (concat cs)) /\
    pending s' = false /\
    messages s' =
      messages (send_end_stream (Fulfilled upstream)
                  (fst (send_begin opts prompt s))) /\
    error s' =
      error (send_end_stream (Fulfilled upstream)
               (fst (send_begin opts prompt s))).
Proof.
  intros Hkey Hok Hct Hbody Hopt Hp Ht.
  assert (Hh : forall b,
    wants_stream b = match opt_stream opts with Some v => v | None => false end ->
    handler config b (Fulfilled upstream) =
    Streamed (Write ping_frame :: map Write cs ++ [End])).
  { intros b Hb. rewrite Hopt in Hb.
    rewrite (handler_relay _ _ _ _ Hkey Hok Hb Hct Hbody). reflexivity. }
  destruct (exchange_streamed config t (Fulfilled upstream) opts prompt s
              _ Hp Ht Hh) as (s' & Hex & Hm & He & Hpend).
  exists s'. split; [exact Hex|].
  assert (Htext : stream_text (concat (written
            (Write ping_frame :: map Write cs ++ [End]))) =
          stream_text (concat cs)).
  { cbn [written]. rewrite written_writes. cbn [written concat].
    rewrite app_nil_r. unfold ping_frame. rewrite <- app_assoc. cbn [app].
    apply stream_text_silent_frame; reflexivity. }
  rewrite Htext in Hm, He. split; [exact Hm|]. split; [exact He|].
  split; [exact Hpend|]. rewrite Hm, He.
  destruct (send_begin_idle opts prompt s Hp Ht) as (req & Hbegin & _).
  rewrite Hbegin. cbn [fst]. unfold send_end_stream.
  rewrite (try_stream_body _ _ _ Hok Hbody). unfold body_text.
  cbn [ending chunks messages]. rewrite Hct. cbv zeta.
  unfold slot_content, stream_error.
  destruct (snd (stream_text (concat cs)));
    cbn [settle messages error]; rewrite <- app_assoc; split; reflexivity.
Qed.

Lemma relay_session_witness :
  (exists s',
     exchange sample_config sample_transport
       (Fulfilled (chunked_response "text/event-stream"
                     [lit "data: H"; lit "el" ++ [LF];
                      LF :: dq "data: {'delta':{'content':'lo'}}" ++ [LF; LF];
                      dq "data: {'content':1e3}" ++ [LF; LF];
                      lit "data: [DONE]" ++ [LF; LF]] None))
       (options None (Some true)) (lit "hello") talked_session = Some s' /\
     messages s' =
       messages talked_session ++
       [{| role := user; content := lit "hello" |};
        {| role := assistant; content := lit "Hello1000" ++ [LF] |}] /\
     error s' = None /\ pending s' = false /\
     messages s' =
       messages
         (send_end_stream
            (Fulfilled (chunked_response "text/event-stream"
                          [lit "data: H"; lit "el" ++ [LF];
                           LF :: dq "data: {'delta':{'content':'lo'}}" ++ [LF; LF];
                           dq "data: {'content':1e3}" ++ [LF; LF];
                           lit "data: [DONE]" ++ [LF; LF]] None))
            (fst (send_begin (options None (Some true)) (lit "hello")
                    talked_session))) /\
     error s' =
       error
         (send_end_stream
            (Fulfilled (chunked_response "text/event-stream"
                          [lit "data: H"; lit "el" ++ [LF];
                           LF :: dq "data: {'delta':{'content':'lo'}}" ++ [LF; LF];
                           dq "data: {'content':1e3}" ++ [LF; LF];
                           lit "data: [DONE]" ++ [LF; LF]] None))
            (fst (send_begin (options None (Some true)) (lit "hello")
                    talked_session)))) /\
  (exists s',
     exchange sample_config sample_transport
       (Fulfilled (chunked_response "text/event-stream"
                     [lit "data: Hel" ++ [LF; LF];
                      dq "data: {'delta':{'toString':1}}" ++ [LF; LF];
                      lit "data: lo" ++ [LF; LF]] None))
       (options None (Some true)) (lit "hello") talked_session = Some s' /\
     messages s' =
       messages talked_session ++
       [{| role := user; content := lit "hello" |};
        {| role := assistant; content := lit "Hel" |}] /\
     error s' = Some (lit "Cannot convert object to primitive value") /\
     pending s' = false).
Proof.
  split.
  - apply (relay_session sample_config sample_transport
             (chunked_response "text/event-stream"
                [lit "data: H"; lit "el" ++ [LF];
                 LF :: dq "data: {'delta':{'content':'lo'}}" ++ [LF; LF];
                 dq "data: {'content':1e3}" ++ [LF; LF];
                 lit "data: [DONE]" ++ [LF; LF]] None)
             [lit "data: H"; lit "el" ++ [LF];
              LF :: dq "data: {'delta':{'content':'lo'}}" ++ [LF; LF];
              dq "data: {'content':1e3}" ++ [LF; LF];
              lit "data: [DONE]" ++ [LF; LF]]
             (options None (Some true)) (lit "hello") talked_session).
    + reflexivity.
    + reflexivity.
    + reflexivity.
    + reflexivity.
    + reflexivity.
    + reflexivity.
    + vm_compute. discriminate.
  - assert (Ht : trim (lit "hello") <> []) by (vm_compute; discriminate).
    destruct (relay_session sample_config sample_transport
                (chunked_response "text/event-stream"
                   [lit "data: Hel" ++ [LF; LF];
                    dq "data: {'delta':{'toString':1}}" ++ [LF; LF];
                    lit "data: lo" ++ [LF; LF]] None)
                [lit "data: Hel" ++ [LF; LF];
                 dq "data: {'delta':{'toString':1}}" ++ [LF; LF];
                 lit "data: lo" ++ [LF; LF]]
                (options None (Some true)) (lit "hello") talked_session
                eq_refl eq_refl eq_refl eq_refl eq_refl eq_refl Ht)
      as (s' & Hex & Hm & He & Hpend & _).
    exists s'. split; [exact Hex|]. split; [exact Hm|].
    split; [exact He|exact Hpend].
Defined.

Lemma no_LF_data ln : no_LF ln = true -> no_LF (lit "data: " ++ ln) = true.
Proof. intros H. unfold no_LF in *. rewrite forallb_app, H. reflexivity. Qed.

Lemma texts_until_silent l : texts_until (Some [] :: l) = texts_until l.
Proof. cbn [texts_until]. destruct (texts_until l). reflexivity. Qed.

Lemma texts_until_silent_end l : texts_until (l ++ [Some []]) = texts_until l.
Proof.
  rewrite texts_until_app. destruct (texts_until l) as [u [|]]; cbn [fst snd];
    [reflexivity|]. rewrite app_nil_r. reflexivity.
Qed.

Lemma text_stream_text lines :
  forallb no_LF lines = true ->
  stream_text
    (concat (ping_frame :: map data_frame lines ++ [done_frame])) =
  texts_until (map wrapped_text lines).
Proof.
  intros H.
  assert (E : concat (ping_frame :: map data_frame lines ++ [done_frame]) =
              concat (map (fun t => t ++ [LF; LF])
                        (lit ": ping" :: map (app (lit "data: ")) lines
                         ++ [lit "data: [DONE]"]))).
  { cbn [map concat]. apply (f_equal (app ping_frame)).
    rewrite !map_app, !concat_app.
    apply (f_equal (fun x => x ++ concat [done_frame])).
    rewrite map_map. apply f_equal. apply map_ext. intros ln.
    unfold data_frame. rewrite app_assoc. reflexivity. }
  rewrite E, stream_text_frames.
  - cbn [map]. rewrite ping_line_text, texts_until_silent.
    rewrite map_app. cbn [map]. rewrite done_line_text, texts_until_silent_end.
    rewrite map_map. reflexivity.
  - cbn [forallb]. rewrite forallb_app. cbn [forallb]. rewrite !andb_true_r.
    apply forallb_forall. intros x (ln & <- & Hin)%in_map_iff.
    rewrite forallb_forall in H. apply no_LF_data. auto.
Qed.

(** X20. A backend stream that is neither an event stream nor JSON reaches
    the session line by line. The assistant message is put together from
    what each non-empty line of each chunk gives when it is read as the
    payload of a data line; the line breaks themselves are not kept. It is
    finalized when every line has a text; otherwise it is the text up to the
    first line that has none, as it is, and the error of that line is
    recorded. *)
Theorem text_session config t upstream cs opts prompt s :
  key_missing config = false ->
  resp_ok upstream = true ->
  is_event_stream (resp_contentType upstream) = false ->
  is_json_kind (resp_contentType upstream) = false ->
  resp_body upstream = Some {| chunks := cs; ending := None |} ->
  opt_stream opts = Some true ->
  pending s = false ->
  trim prompt <> [] ->
  exists s',
    exchange config t (Fulfilled upstream) opts prompt s = Some s' /\
    messages s' =
      messages s ++
      [{| role := user; content := prompt |};
       {| role := assistant;
          content :=
            slot_content
              (texts_until (map wrapped_text (wrapped_lines cs))) |}] /\
    error s' =
      stream_error (texts_until (map wrapped_text (wrapped_lines cs))) /\
    pending s' = false.
Proof.
  intros Hkey Hok Hct Hjson Hbody Hopt Hp Ht.
  assert (Hh : forall b,
    wants_stream b = match opt_stream opts with Some v => v | None => false end ->
    handler config b (Fulfilled upstream) =
    Streamed (Write ping_frame ::
              map (fun ln => Write (data_frame ln)) (wrapped_lines cs)
              ++ [Write done_frame; End])).
  { intros b Hb. rewrite Hopt in Hb.
    rewrite (handler_text _ _ _ _ Hkey Hok Hb Hct Hjson Hbody). reflexivity. }
  destruct (exchange_streamed config t (Fulfilled upstream) opts prompt s
              _ Hp Ht Hh) as (s' & Hex & Hm & He & Hpend).
  exists s'. split; [exact Hex|].
  cbn [written] in Hm, He. rewrite written_data_writes in Hm, He.
  cbn [written] in Hm, He.
  rewrite (text_stream_text _ (wrapped_lines_no_LF cs)) in Hm, He.
  auto.
Qed.

Lemma text_session_witness :
  exists s',
    exchange sample_config sample_transport
      (Fulfilled (chunked_response "text/plain"
                    [lit "Hel" ++ [LF] ++ lit "lo" ++ [CR; LF; LF] ++ lit "!";
                     LF :: dq "{'content':1e3}" ++ [LF]]
                    None))
      (options None (Some true)) (lit "hello") talked_session = Some s' /\
    messages s' =
      messages talked_session ++
      [{| role := user; content := lit "hello" |};
       {| role := assistant; content := lit "Hello!1000" ++ [LF] |}] /\
    error s' = None /\ pending s' = false.
Proof.
  apply (text_session sample_config sample_transport
           (chunked_response "text/plain"
              [lit "Hel" ++ [LF] ++ lit "lo" ++ [CR; LF; LF] ++ lit "!";
               LF :: dq "{'content':1e3}" ++ [LF]] None)
           [lit "Hel" ++ [LF] ++ lit "lo" ++ [CR; LF; LF] ++ lit "!";
            LF :: dq "{'content':1e3}" ++ [LF]]
           (options None (Some true)) (lit "hello") talked_session).
  - reflexivity.
  - reflexivity.
  - reflexivity.
  - reflexivity.
  - reflexivity.
  - reflexivity.
  - reflexivity.
  - vm_compute. discriminate.
Defined.

(** ** [JSON.parse] after [JSON.stringify] *)

Lemma hex_value_hex_digit n : n < 16 -> hex_value (hex_digit n) = Some n.
Proof.
  intros H. unfold hex_digit, hex_value, is_digit.
  destruct (N.ltb_spec n 10).
  - rewrite (proj2 (N.leb_le 48 (48 + n))) by lia.
    rewrite (proj2 (N.leb_le (48 + n) 57)) by lia. cbn [andb]. f_equal. lia.
  - rewrite (proj2 (N.leb_gt (87 + n) 57)) by lia. rewrite andb_false_r.
    rewrite (proj2 (N.leb_le 97 (87 + n))) by lia.
    rewrite (proj2 (N.leb_le (87 + n) 102)) by lia. cbn [andb]. f_equal. lia.
Qed.

Lemma hex_digits_value c :
  c < 65536 ->
  (((c / 4096 mod 16) * 16 + (c / 256) mod 16) * 16 + (c / 16) mod 16) * 16
  + c mod 16 = c.
Proof.
  intros H.
  assert (E256 : c / 256 = c / 16 / 16) by (rewrite N.Div0.div_div; reflexivity).
  assert (E4096 : c / 4096 = c / 16 / 16 / 16)
    by (rewrite !N.Div0.div_div; reflexivity).
  rewrite E256, E4096.
  pose proof (N.div_mod' c 16) as H1.
  pose proof (N.div_mod' (c / 16) 16) as H2.
  pose proof (N.div_mod' (c / 16 / 16) 16) as H3.
  assert (H4 : c / 16 / 16 / 16 < 16).
  { rewrite <- E4096. apply N.Div0.div_lt_upper_bound. exact H. }
  rewrite (N.mod_small _ _ H4). lia.
Qed.

Lemma hex4_u_escape c :
  c < 65536 ->
  hex4 (hex_digit ((c / 4096) mod 16)) (hex_digit ((c / 256) mod 16))
       (hex_digit ((c / 16) mod 16)) (hex_digit (c mod 16)) = Some c.
Proof.
  intros H. unfold hex4.
  rewrite !hex_value_hex_digit by (apply N.mod_lt; discriminate).
  f_equal. apply hex_digits_value, H.
Qed.

Lemma parse_u_escape c rest :
  c < 65536 ->
  parse_string_body (u_escape c ++ rest) = push_unit c (parse_string_body rest).
Proof.
  intros H. unfold u_escape. cbn [app parse_string_body].
  change (BACKSLASH =? 34) with false. change (BACKSLASH =? 92) with true.
  change (117 =? 117) with true. cbv iota.
  rewrite (hex4_u_escape c H). reflexivity.
Qed.

Lemma parse_two_char_escape e u rest :
  unescape e = Some u -> (e =? 117) = false ->
  parse_string_body (BACKSLASH :: e :: rest) =
  push_unit u (parse_string_body rest).
Proof.
  intros Hu He. cbn [parse_string_body].
  change (BACKSLASH =? 34) with false. change (BACKSLASH =? 92) with true.
  cbv iota. rewrite He, Hu. reflexivity.
Qed.

Lemma parse_plain_unit c rest :
  (c =? 34) = false -> (c =? 92) = false -> (c <? 32) = false ->
  parse_string_body (c :: rest) = push_unit c (parse_string_body rest).
Proof.
  intros H1 H2 H3. cbn [parse_string_body]. rewrite H1, H2, H3. reflexivity.
Qed.

(** What [JSON.stringify] writes for a string, [JSON.parse] reads back. *)
Lemma parse_string_body_quote_units s : forall rest,
  js_wf s = true ->
  parse_string_body (quote_units s ++ DQUOTE :: rest) = Some (s, rest).
Proof.
  induction s as [s IH] using (induction_ltof1 _ (@length N)). unfold ltof in IH.
  intros rest Hwf. destruct s as [|c s1]; [reflexivity|].
  unfold js_wf in Hwf. cbn [forallb] in Hwf.
  apply andb_true_iff in Hwf as [Hc Hs1]. apply N.ltb_lt in Hc.
  assert (IH1 : parse_string_body (quote_units s1 ++ DQUOTE :: rest) =
                Some (s1, rest)) by (apply IH; [simpl; lia|exact Hs1]).
  cbn [quote_units].
  destruct (N.eqb_spec c 34) as [->|N34].
  { cbn [app]. rewrite (parse_two_char_escape 34 34) by reflexivity.
    rewrite IH1. reflexivity. }
  destruct (N.eqb_spec c 92) as [->|N92].
  { cbn [app]. rewrite (parse_two_char_escape 92 92) by reflexivity.
    rewrite IH1. reflexivity. }
  destruct (N.eqb_spec c 8) as [->|N8].
  { cbn [app]. rewrite (parse_two_char_escape 98 8) by reflexivity.
    rewrite IH1. reflexivity. }
  destruct (N.eqb_spec c 12) as [->|N12].
  { cbn [app]. rewrite (parse_two_char_escape 102 12) by reflexivity.
    rewrite IH1. reflexivity. }
  destruct (N.eqb_spec c 10) as [->|N10].
  { cbn [app]. rewrite (parse_two_char_escape 110 10) by reflexivity.
    rewrite IH1. reflexivity. }
  destruct (N.eqb_spec c 13) as [->|N13].
  { cbn [app]. rewrite (parse_two_char_escape 114 13) by reflexivity.
    rewrite IH1. reflexivity. }
  destruct (N.eqb_spec c 9) as [->|N9].
  { cbn [app]. rewrite (parse_two_char_escape 116 9) by reflexivity.
    rewrite IH1. reflexivity. }
  destruct (c <? 32) eqn:E32.
  { rewrite <- app_assoc, (parse_u_escape c _ Hc), IH1. reflexivity. }
  assert (P : forall r, parse_string_body (c :: r) =
                        push_unit c (parse_string_body r)).
  { intros r. apply parse_plain_unit; [apply N.eqb_neq; exact N34|
      apply N.eqb_neq; exact N92|exact E32]. }
  destruct (is_high_surrogate c).
  { destruct s1 as [|d s2].
    - rewrite (parse_u_escape c _ Hc). reflexivity.
    - destruct (is_low_surrogate d) eqn:Ed.
      + cbn [app]. rewrite P.
        unfold is_low_surrogate in Ed. apply andb_true_iff in Ed as [Ed _].
        apply N.leb_le in Ed.
        rewrite parse_plain_unit;
          [|apply N.eqb_neq; lia|apply N.eqb_neq; lia|apply N.ltb_ge; lia].
        rewrite IH; [reflexivity|simpl; lia|].
        unfold js_wf in *. cbn [forallb] in Hs1.
        apply andb_true_iff in Hs1 as [_ Hs2]. exact Hs2.
      + rewrite <- app_assoc, (parse_u_escape c _ Hc), IH1. reflexivity. }
  destruct (is_low_surrogate c).
  { rewrite <- app_assoc, (parse_u_escape c _ Hc), IH1. reflexivity. }
  cbn [app]. rewrite P, IH1. reflexivity.
Qed.

Lemma parse_value_string f s r t rest :
  skip_ws s = DQUOTE :: r -> parse_string_body r = Some (t, rest) ->
  parse_value (S f) s = Some (JString t, rest).
Proof.
  intros Hs Hr. cbn [parse_value]. rewrite Hs.
  change (DQUOTE =? 123) with false. change (DQUOTE =? 91) with false.
  change (DQUOTE =? 34) with true. cbv iota. rewrite Hr. reflexivity.
Qed.

Lemma parse_members_last f s r k r1 r2 v r3 r4 :
  skip_ws s = DQUOTE :: r -> parse_string_body r = Some (k, r1) ->
  skip_ws r1 = 58 :: r2 -> parse_value f r2 = Some (v, r3) ->
  skip_ws r3 = 125 :: r4 ->
  parse_members (S f) s = Some ([(k, v)], r4).
Proof.
  intros Hs Hk H1 Hv H3. cbn [parse_members]. rewrite Hs.
  change (DQUOTE =? 34) with true. cbv iota. rewrite Hk, H1.
  change (58 =? 58) with true. cbv iota. rewrite Hv, H3. reflexivity.
Qed.

Lemma parse_value_object f s r d r' ms rest :
  skip_ws s = 123 :: r -> skip_ws r = d :: r' -> (d =? 125) = false ->
  parse_members f (skip_ws r) = Some (ms, rest) ->
  parse_value (S f) s = Some (JObject ms, rest).
Proof.
  intros Hs Hr Hd Hm. cbn [parse_value]. rewrite Hs.
  change (123 =? 123) with true. cbv iota. rewrite Hr, Hd.
  rewrite <- Hr, Hm. reflexivity.
Qed.

Lemma JSON_stringify_member k c :
  JSON_stringify (JObject [(k, JString c)]) =
  123 :: DQUOTE :: quote_units k ++
  DQUOTE :: 58 :: DQUOTE :: quote_units c ++ [DQUOTE; 125].
Proof.
  cbn [JSON_stringify map join_comma fst snd]. unfold quote.
  change (lit "{") with [123]. change (lit "}") with [125].
  change (lit ":") with [58]. cbn [app].
  repeat (rewrite <- app_assoc; cbn [app]). reflexivity.
Qed.

(** An object of one string member survives [JSON.stringify] and
    [JSON.parse]. *)
Lemma own_properties_single k v : own_properties [(k, v)] = [(k, v)].
Proof.
  unfold own_properties.
  cbn [fold_left put fst snd sort_indexed fold_right filter].
  destruct (array_index k); reflexivity.
Qed.

Lemma JSON_parse_stringify_member k c :
  js_wf k = true -> js_wf c = true ->
  JSON_parse (JSON_stringify (JObject [(k, JString c)])) =
  Some (JObject [(k, JString c)]).
Proof.
  intros Hk Hc.
  replace (JObject [(k, JString c)]) with (value_of (JObject [(k, JString c)]))
    at 2 by (cbn [value_of map fst snd]; rewrite own_properties_single;
             reflexivity).
  apply (JSON_parse_any_fuel 3) with (r := []); [|reflexivity].
  rewrite JSON_stringify_member.
  eapply parse_value_object; [reflexivity|reflexivity|reflexivity|].
  eapply parse_members_last.
  - reflexivity.
  - apply (parse_string_body_quote_units k _ Hk).
  - reflexivity.
  - eapply parse_value_string; [reflexivity|].
    apply (parse_string_body_quote_units c [125] Hc).
  - reflexivity.
Qed.

(** ** The JSON bridge, from the backend to the session *)

Lemma JSON_stringify_object_shape ms :
  JSON_stringify (JObject ms) =
  123 :: join_comma
           (map (fun kv => quote (fst kv) ++ lit ":" ++ JSON_stringify (snd kv)) ms)
         ++ [125].
Proof. reflexivity. Qed.

(** The payload of the data line the handler writes for an object is the
    text of the object. *)
Lemma data_line_of_object ms :
  startsWith (lit "data:") (trim (lit "data: " ++ JSON_stringify (JObject ms)))
    = true /\
  payload_of (lit "data: " ++ JSON_stringify (JObject ms)) =
    JSON_stringify (JObject ms).
Proof.
  rewrite JSON_stringify_object_shape.
  set (body := join_comma _).
  assert (E : trim (lit "data: " ++ 123 :: body ++ [125]) =
              lit "data: " ++ 123 :: body ++ [125]).
  { change (lit "data: " ++ 123 :: body ++ [125])
      with (100 :: ([97; 116; 97; 58; 32; 123] ++ body) ++ [125]).
    apply trim_fixed; reflexivity. }
  unfold payload_of. rewrite E. split; [reflexivity|].
  change (slice_from 5 (lit "data: " ++ 123 :: body ++ [125]))
    with (32 :: 123 :: body ++ [125]).
  unfold trim. cbn [trimStart]. change (is_js_space 32) with true.
  change (is_js_space 123) with false. cbv iota.
  apply (trimEnd_fixed (123 :: body) 125). reflexivity.
Qed.

Lemma printable_no_LF t : forallb printable t = true -> no_LF t = true.
Proof.
  unfold no_LF. intros H. apply forallb_forall. intros c Hc.
  rewrite forallb_forall in H. specialize (H c Hc). unfold printable in H.
  apply N.leb_le in H. apply negb_true_iff, N.eqb_neq. unfold LF. lia.
Qed.

(** The client reads back the content the handler wrote. *)
Lemma bridge_line_text c :
  js_wf c = true ->
  line_text
    (lit "data: " ++ JSON_stringify (JObject [(lit "content", JString c)])) =
  Some c.
Proof.
  intros Hc.
  destruct (data_line_of_object [(lit "content", JString c)]) as [Hdata Hpay].
  unfold line_text.
  rewrite (parseSSELine_object _ [(lit "content", JString c)] Hdata).
  - reflexivity.
  - rewrite Hpay. apply JSON_parse_stringify_member; [reflexivity|exact Hc].
Qed.

Lemma bridge_stream_text c :
  js_wf c = true ->
  stream_text
    (concat [ping_frame;
             data_frame (JSON_stringify (JObject [(lit "content", JString c)]));
             done_frame]) = (c, false).
Proof.
  intros Hc. cbn [concat]. unfold ping_frame, data_frame, done_frame.
  rewrite app_nil_r.
  set (j := JSON_stringify (JObject [(lit "content", JString c)])).
  assert (Hj : no_LF (lit "data: " ++ j) = true).
  { apply no_LF_data, printable_no_LF, JSON_stringify_printable. reflexivity. }
  replace ((lit ": ping" ++ [LF; LF]) ++
           (lit "data: " ++ j ++ [LF; LF]) ++ lit "data: [DONE]" ++ [LF; LF])
    with (lit ": ping" ++ LF :: LF ::
          ((lit "data: " ++ j) ++ LF :: LF ::
           (lit "data: [DONE]" ++ LF :: LF :: [])))
    by (rewrite <- !app_assoc; reflexivity).
  rewrite stream_text_silent_frame by reflexivity.
  rewrite (stream_text_frame _ _ Hj). unfold j.
  rewrite (bridge_line_text c Hc).
  change (map line_text (stream_lines (lit "data: [DONE]" ++ [LF; LF])))
    with [@Some jsstring []].
  cbn [texts_until]. rewrite app_nil_r. reflexivity.
Qed.

(** X21. The bridge gives the streaming client what the other client gets.
    When the backend answers a streaming request with one JSON document whose
    answer is a string, the assistant message is that string, finalized: the
    client reads back from the one data frame exactly what the handler put in
    it. It is the message list that non-streaming mode leaves for the same
    backend answer. *)
Theorem bridge_session config t upstream body text c opts prompt s :
  key_missing config = false ->
  resp_ok upstream = true ->
  is_event_stream (resp_contentType upstream) = false ->
  is_json_kind (resp_contentType upstream) = true ->
  resp_body upstream = Some body ->
  resp_text upstream = Fulfilled text ->
  bridged_answer text = JString c ->
  js_wf c = true ->
  opt_stream opts = Some true ->
  pending s = false ->
  trim prompt <> [] ->
  exists s',
    exchange config t (Fulfilled upstream) opts prompt s = Some s' /\
    messages s' =
      messages s ++
      [{| role := user; content := prompt |};
       {| role := assistant; content := postProcessMarkdown c |}] /\
    error s' = None /\ pending s' = false /\
    (forall opts',
       opt_stream opts' <> Some true -> JSON_parse text <> None ->
       exists s'',
         exchange config t (Fulfilled upstream) opts' prompt s = Some s'' /\
         messages s'' = messages s' /\ error s'' = error s').
Proof.
  intros Hkey Hok Hct Hjson Hbody Htext Hans Hc Hopt Hp Ht.
  assert (Hh : forall b,
    wants_stream b = match opt_stream opts with Some v => v | None => false end ->
    handler config b (Fulfilled upstream) =
    Streamed
      [Write ping_frame;
       Write (data_frame
                (JSON_stringify (JObject [(lit "content", JString c)])));
       Write done_frame; End]).
  { intros b Hb. rewrite Hopt in Hb.
    rewrite (handler_bridge _ _ _ _ _ Hkey Hok Hb Hct Hjson Hbody Htext), Hans.
    reflexivity. }
  destruct (exchange_streamed config t (Fulfilled upstream) opts prompt s
              _ Hp Ht Hh) as (s' & Hex & Hm & He & Hpend).
  cbn [written] in Hm, He. rewrite (bridge_stream_text c Hc) in Hm, He.
  exists s'. split; [exact Hex|]. split; [exact Hm|]. split; [exact He|].
  split; [exact Hpend|].
  intros opts' Hopt' Hparse.
  destruct (JSON_parse text) as [data|] eqn:Edata; [|contradiction].
  destruct (exchange_plain config t upstream opts' prompt s text data
              Hkey Hok Htext Edata Hopt' Hp Ht) as (s1 & Hm1 & He1 & Hex').
  unfold bridged_answer in Hans. rewrite Edata in Hans. rewrite Hans in Hex'.
  eexists. split; [exact Hex'|].
  cbn [json_image shown_answer settle messages error].
  rewrite Hm, He, Hm1, He1, <- app_assoc. split; reflexivity.
Qed.

Lemma bridge_session_witness :
  exists s',
    exchange sample_config sample_transport
      (Fulfilled (backend_response 200 "application/json" hi_there_body))
      (options None (Some true)) (lit "hello") talked_session = Some s' /\
    messages s' =
      messages talked_session ++
      [{| role := user; content := lit "hello" |};
       {| role := assistant; content := postProcessMarkdown (lit "hi there") |}] /\
    error s' = None /\ pending s' = false /\
    (forall opts',
       opt_stream opts' <> Some true -> JSON_parse hi_there_body <> None ->
       exists s'',
         exchange sample_config sample_transport
           (Fulfilled (backend_response 200 "application/json" hi_there_body))
           opts' (lit "hello") talked_session = Some s'' /\
         messages s'' = messages s' /\ error s'' = error s').
Proof.
  apply (bridge_session sample_config sample_transport
           (backend_response 200 "application/json" hi_there_body)
           {| chunks := [hi_there_body]; ending := None |}
           hi_there_body (lit "hi there")
           (options None (Some true)) (lit "hello") talked_session).
  - reflexivity.
  - reflexivity.
  - reflexivity.
  - reflexivity.
  - reflexivity.
  - reflexivity.
  - reflexivity.
  - reflexivity.
  - reflexivity.
  - reflexivity.
  - vm_compute. discriminate.
Defined.

(** ** The widget *)

(** X22. The widget sends the input trimmed: the prompt of the request and
    the content of the user message are the input without the white space
    around it, and the input is cleared. With a request pending, the text
    typed is cleared from the input without being sent; an input of white
    space only is left as it is. *)
Theorem onSubmit_sends_trimmed props w :
  (all_space (w_input w) = true -> onSubmit props w = (w, None)) /\
  (all_space (w_input w) = false -> pending (w_chat w) = true ->
   onSubmit props w =
   ({| w_open := w_open w; w_input := []; w_greeted := w_greeted w;
       w_chat := w_chat w |}, None)) /\
  (all_space (w_input w) = false -> pending (w_chat w) = false ->
   exists w' req,
     onSubmit props w = (w', Some req) /\
     req_prompt req = trim (w_input w) /\
     messages (w_chat w') =
       messages (w_chat w) ++
       [{| role := user; content := trim (w_input w) |}] /\
     w_input w' = []).
Proof.
  assert (Hne : all_space (w_input w) = false -> trim (w_input w) <> []).
  { intros H E. apply trim_nil_all_space in E. congruence. }
  split; [|split].
  - intros H. unfold onSubmit. rewrite (trim_all_space _ H). reflexivity.
  - intros H Hp. unfold onSubmit. specialize (Hne H).
    destruct (trim (w_input w)) as [|c q] eqn:E; [contradiction|].
    cbn [truthy negb]. unfold send_begin. rewrite Hp, orb_true_r. reflexivity.
  - intros H Hp. unfold onSubmit. specialize (Hne H).
    assert (Ht : trim (trim (w_input w)) <> [])
      by (rewrite trim_idempotent; exact Hne).
    destruct (send_begin_idle (chat_options props) (trim (w_input w)) (w_chat w)
                Hp Ht) as (req & Hbegin & Hprompt & _).
    destruct (trim (w_input w)) as [|c q] eqn:E; [contradiction|].
    cbn [truthy negb]. rewrite Hbegin. eexists. exists req.
    split; [reflexivity|]. split; [exact Hprompt|]. split; reflexivity.
Qed.

Lemma onSubmit_sends_trimmed_witness :
  exists w' req,
    onSubmit sample_props (mounted sample_props (lit "  hello ")) =
      (w', Some req) /\
    req_prompt req = trim (lit "  hello ") /\
    messages (w_chat w') =
      messages (w_chat (mounted sample_props (lit "  hello "))) ++
      [{| role := user; content := trim (lit "  hello ") |}] /\
    w_input w' = [].
Proof.
  apply (proj2 (proj2 (onSubmit_sends_trimmed sample_props
                         (mounted sample_props (lit "  hello "))))).
  - reflexivity.
  - reflexivity.
Defined.

Lemma js_slice_all {A} (n : Z) (x : A) : (0 <= n)%Z -> js_slice (- n) [x] = [x].
Proof.
  intros H. unfold js_slice. cbn [length].
  destruct (- n <? 0)%Z eqn:E.
  - apply Z.ltb_lt in E. replace (Z.max (Z.of_nat 1 + - n) 0) with 0%Z by lia.
    reflexivity.
  - apply Z.ltb_ge in E. replace (Z.min (- n) (Z.of_nat 1)) with 0%Z by lia.
    reflexivity.
Qed.

Lemma filter_system_app msgs m :
  filter (fun m => negb (Role_eqb (role m) system)) msgs = [] ->
  role m <> system ->
  filter (fun m => negb (Role_eqb (role m) system)) (msgs ++ [m]) = [m].
Proof.
  intros H Hm. rewrite filter_app, H. cbn [filter app].
  destruct (role m); try reflexivity. contradiction.
Qed.

(** X23. The greeting is an assistant message like any other. Added to a
    conversation that has not begun, it is the history of the first prompt:
    the backend receives it after the handler's system message, as if the
    model had said it. *)
Theorem greeting_is_history props config w prompt s1 req :
  w_greeted w = false ->
  non_system (messages (w_chat w)) = [] ->
  (0 <= p_maxHistory props)%Z ->
  send_begin (chat_options props) prompt (w_chat (ensureGreeting props w))
    = (s1, Some req) ->
  messages (w_chat (ensureGreeting props w)) =
    messages (w_chat w) ++
    [{| role := assistant; content := p_welcomeMessage props |}] /\
  req_history req =
    [{| role := assistant; content := p_welcomeMessage props |}] /\
  up_messages (upstream_payload config (body_of_request req)) =
    [{| role := system; content := lit "You are a helpful assistant." |};
     {| role := assistant; content := p_welcomeMessage props |};
     {| role := user; content := prompt |}].
Proof.
  intros Hg Hn Hmax Hbegin. unfold non_system in Hn.
  assert (Em : messages (w_chat (ensureGreeting props w)) =
               messages (w_chat w) ++
               [{| role := assistant; content := p_welcomeMessage props |}]).
  { unfold ensureGreeting. rewrite Hg, Hn. reflexivity. }
  destruct (send_begin_request _ _ _ _ _ Hbegin) as (Hp & Hh & _).
  assert (Eh : req_history req =
               [{| role := assistant; content := p_welcomeMessage props |}]).
  { rewrite Hh, Em. unfold buildHistory. cbv zeta.
    rewrite (filter_system_app _ _ Hn) by discriminate.
    apply js_slice_all, Hmax. }
  split; [exact Em|]. split; [exact Eh|].
  unfold upstream_payload, body_of_request. cbn [up_messages body_history body_prompt].
  rewrite Eh, Hp. reflexivity.
Qed.

Lemma greeting_is_history_witness :
  option_map
    (fun req => up_messages (upstream_payload sample_config (body_of_request req)))
    (snd (send_begin (chat_options sample_props) (lit "hello")
            (w_chat (ensureGreeting sample_props (mounted sample_props []))))) =
  Some [{| role := system; content := lit "You are a helpful assistant." |};
        {| role := assistant; content := p_welcomeMessage sample_props |};
        {| role := user; content := lit "hello" |}].
Proof.
  exact (f_equal Some
           (proj2 (proj2
              (greeting_is_history sample_props sample_config
                 (mounted sample_props []) (lit "hello") _ _
                 eq_refl eq_refl (proj1 (Z.leb_le 0 10) eq_refl) eq_refl)))).
Defined.

(** X24. The widget greets once. Greeting is idempotent; and once the
    widget has greeted, a reset removes the greeting with the rest of the
    conversation and opening the panel again does not bring it back. *)
Theorem greeting_not_restored props w :
  ensureGreeting props (ensureGreeting props w) = ensureGreeting props w /\
  (w_greeted (ensureGreeting props w) = true ->
   ensureGreeting props (click_reset props (ensureGreeting props w)) =
     click_reset props (ensureGreeting props w) /\
   messages (w_chat (click_reset props (ensureGreeting props w))) =
     messages (useChat (chat_options props))).
Proof.
  assert (Hfix : forall w0, w_greeted w0 = true -> ensureGreeting props w0 = w0).
  { intros w0 H. unfold ensureGreeting. rewrite H. reflexivity. }
  split.
  - assert (Hcases : ensureGreeting props w = w \/
                     w_greeted (ensureGreeting props w) = true).
    { unfold ensureGreeting. destruct (w_greeted w) eqn:Hg; [left; reflexivity|].
      cbv zeta. destruct (_ =? _)%nat; [right|left]; reflexivity. }
    destruct Hcases as [E|E]; [rewrite E; exact E|apply Hfix, E].
  - intros Hg. split; [|reflexivity]. apply Hfix. exact Hg.
Qed.

Lemma greeting_not_restored_witness :
  ensureGreeting sample_props
    (click_reset sample_props
       (ensureGreeting sample_props (mounted sample_props []))) =
  click_reset sample_props
    (ensureGreeting sample_props (mounted sample_props [])) /\
  messages (w_chat (click_reset sample_props
                      (ensureGreeting sample_props (mounted sample_props [])))) =
  messages (useChat (chat_options sample_props)).
Proof.
  apply (proj2 (greeting_not_restored sample_props (mounted sample_props []))).
  reflexivity.
Defined.
